(** * CurlClient: a shallow embedding of proxygen's sample HTTP client driver

    Source: proxygen/httpclient/samples/curl/CurlClient.cpp.

    The driver is embedded as functions over an explicit client state.  The
    collaborators it talks to (the input file stream, the transaction it
    sends on, the standard output, the buffer chains it receives) are
    embedded as small recording objects, so that what the driver does to them
    can be stated and proved.  An exchange starts at [sendRequest]:
    [connectSuccess] and [sslHandshakeFollowup], which set up the session
    before they call it, are on the transport's side of the embedding. *)

From Stdlib Require Import ZArith Ascii.
From stdpp Require Import base option list strings gmap.

Abbreviation byte := Byte.byte.

(** ** std::ifstream

    The body source.  Only what the driver uses is embedded: opening a file
    by name, [good], [read] and [gcount].  A stream holds the bytes of the
    file, the read cursor and the state bits. *)

Module Ifstream.

Record t := mk {
  contents : list byte;   (* the bytes of the opened file *)
  gpos : nat;             (* read cursor: offset of the next unread byte *)
  eofbit : bool;
  failbit : bool;
  badbit : bool;
  last_gcount : nat       (* characters extracted by the last read *)
}.

(** A file system maps a file name to the bytes of the file, or to [None]
    when the file cannot be opened. *)
Definition filesystem := string → option (list byte).

(** [std::ifstream(name, ios::in | ios::binary)]: a file that cannot be
    opened leaves the stream with [failbit] set. *)
Definition open (fs : filesystem) (name : string) : t :=
  match fs name with
  | Some bytes => mk bytes 0 false false false 0
  | None => mk [] 0 false true false 0
  end.

Definition good (f : t) : bool :=
  negb (eofbit f) && negb (failbit f) && negb (badbit f).

Definition gcount (f : t) : nat := last_gcount f.

(** The bytes not read yet. *)
Definition unread (f : t) : list byte := drop (gpos f) (contents f).

(** [read(s, n)]: extracts up to [n] characters.  When the stream is not
    good on entry nothing is extracted and [failbit] is set.  When the end
    of the file is reached before [n] characters were extracted, [eofbit]
    and [failbit] are set.  Returns the characters stored into [s]. *)
Definition read (n : nat) (f : t) : list byte * t :=
  if good f then
    let got := take n (unread f) in
    let short := bool_decide (length got < n) in
    (got, mk (contents f) (gpos f + length got)
             (eofbit f || short) (failbit f || short) (badbit f)
             (length got))
  else ([], mk (contents f) (gpos f) (eofbit f) true (badbit f) 0).

End Ifstream.

(** ** folly::IOBuf

    A buffer has a storage area and a length: the valid data are the first
    [len] bytes of the storage. *)

Module IOBuf.

Record t := mk {
  storage : list byte;
  len : nat
}.

(** [data()] / [length()]: the valid bytes. *)
Definition data (b : t) : list byte := take (len b) (storage b).
Definition length (b : t) : nat := Datatypes.length (data b).

(** [IOBuf::createCombined(capacity)]: an empty buffer with room for
    [capacity] bytes.  The storage is not initialised by the source; the
    embedding fills it with zero bytes. *)
Definition createCombined (capacity : nat) : t :=
  mk (replicate capacity Byte.x00) 0.

(** Storing [src] at [writableData()], which is the end of the valid
    data. *)
Definition write_at_tail (src : list byte) (b : t) : t :=
  mk (take (len b) (storage b) ++ src
        ++ drop (len b + Datatypes.length src) (storage b))
     (len b).

(** [append(n)]: the next [n] bytes of the storage become valid. *)
Definition append (n : nat) (b : t) : t := mk (storage b) (len b + n).

End IOBuf.

(** ** folly::split

    [folly::split(delim, input, out)] with a one-character delimiter and the
    default [ignoreEmpty = false]: the pieces between consecutive
    delimiters, empty pieces included; an input with [n] delimiters gives
    [n + 1] pieces, and the empty input gives one empty piece. *)

Fixpoint split (delim : ascii) (input : string) : list string :=
  match input with
  | EmptyString => [EmptyString]
  | String c rest =>
      if Ascii.eqb c delim then EmptyString :: split delim rest
      else match split delim rest with
           | piece :: pieces => String c piece :: pieces
           | [] => [String c EmptyString]
           end
  end.

(** [StringPiece::empty()] *)
Definition empty (s : string) : bool :=
  match s with EmptyString => true | String _ _ => false end.

(** ** proxygen::HTTPHeaders *)

Module HTTPHeaders.

(** Modelled from the spec: the header collection is declared in
    proxygen/lib/http/HTTPHeaders.h, which this development does not
    embed.  It is `an ordered sequence of (name, value) pairs; name
    comparison case-insensitive; duplicates permitted and preserved in
    insertion order'. *)
Abbreviation t := (list (string * string)).

Definition to_lower (c : ascii) : ascii :=
  let n := nat_of_ascii c in
  if (65 <=? n) && (n <=? 90) then ascii_of_nat (n + 32) else c.

Fixpoint caseInsensitiveEqual (a b : string) : bool :=
  match a, b with
  | EmptyString, EmptyString => true
  | String x a', String y b' =>
      Ascii.eqb (to_lower x) (to_lower y) && caseInsensitiveEqual a' b'
  | _, _ => false
  end.

(** The codes of the common headers the driver names. *)
Inductive HTTPHeaderCode :=
| HTTP_HEADER_USER_AGENT
| HTTP_HEADER_HOST
| HTTP_HEADER_ACCEPT.

Definition getHeaderName (code : HTTPHeaderCode) : string :=
  match code with
  | HTTP_HEADER_USER_AGENT => "User-Agent"
  | HTTP_HEADER_HOST => "Host"
  | HTTP_HEADER_ACCEPT => "Accept"
  end.

(** Modelled from the spec: `add(name, value): appends; never overwrites;
    never deduplicates'. *)
Definition add (name value : string) (h : t) : t := h ++ [(name, value)].

Definition add_code (code : HTTPHeaderCode) (value : string) (h : t) : t :=
  add (getHeaderName code) value h.

(** Modelled from the spec: `count(name): case-insensitive name match'. *)
Definition getNumberOfValues (name : string) (h : t) : nat :=
  length (filter (λ nv, Is_true (caseInsensitiveEqual (fst nv) name)) h).

Definition getNumberOfValues_code (code : HTTPHeaderCode) (h : t) : nat :=
  getNumberOfValues (getHeaderName code) h.

(** Modelled from the spec: `getSingleOrEmpty(name): case-insensitive name
    match; empty-string sentinel on zero matches'. *)
Definition getSingleOrEmpty (name : string) (h : t) : string :=
  match filter (λ nv, Is_true (caseInsensitiveEqual (fst nv) name)) h with
  | [(_, v)] => v
  | _ => EmptyString
  end.

(** [forEach]: visits the pairs in insertion order. *)
Definition forEach {S : Type} (f : string → string → S → S) (h : t) (s : S) : S :=
  fold_left (λ acc nv, f (fst nv) (snd nv) acc) h s.

End HTTPHeaders.

(** ** proxygen::HTTPMethod, proxygen::URL, proxygen::HTTPMessage *)

Inductive HTTPMethod :=
| GET | POST | OPTIONS | DELETE | HEAD | CONNECT | PUT | TRACE | PATCH.

Definition HTTPMethod_eqb (a b : HTTPMethod) : bool :=
  match a, b with
  | GET, GET | POST, POST | OPTIONS, OPTIONS | DELETE, DELETE | HEAD, HEAD
  | CONNECT, CONNECT | PUT, PUT | TRACE, TRACE | PATCH, PATCH => true
  | _, _ => false
  end.

Module URL.

(** A parsed URL, as what its accessors return (the class is declared in
    proxygen/lib/utils/URL.h, which this development does not embed). *)
Record t := mk {
  getUrl : string;
  makeRelativeURL : string;
  isSecure : bool;
  getHost : string;
  getHostAndPort : string
}.

End URL.

Module HTTPMessage.

(** The request or response descriptor.  Modelled from the spec:
    [HTTP2Codec::requestUpgrade] and [setPartiallyReliable] are defined
    outside CurlClient.cpp; the spec gives the descriptor an `optional
    "partially reliable" flag' and an `optional upgrade marker (for
    cleartext-to-HTTP/2 upgrade)', which those two calls set. *)
Record t := mk {
  method : option HTTPMethod;
  version : Z * Z;
  url : string;
  secure : bool;
  headers : HTTPHeaders.t;
  upgradeMarker : bool;
  partiallyReliable : bool
}.

(** A default-constructed message. *)
Definition new : t := mk None (1, 1)%Z EmptyString false [] false false.

Definition setMethod (m : HTTPMethod) (r : t) : t :=
  mk (Some m) (version r) (url r) (secure r) (headers r)
     (upgradeMarker r) (partiallyReliable r).
Definition setHTTPVersion (maj min : Z) (r : t) : t :=
  mk (method r) (maj, min) (url r) (secure r) (headers r)
     (upgradeMarker r) (partiallyReliable r).
Definition setURL (u : string) (r : t) : t :=
  mk (method r) (version r) u (secure r) (headers r)
     (upgradeMarker r) (partiallyReliable r).
Definition setSecure (b : bool) (r : t) : t :=
  mk (method r) (version r) (url r) b (headers r)
     (upgradeMarker r) (partiallyReliable r).
Definition setHeaders (h : HTTPHeaders.t) (r : t) : t :=
  mk (method r) (version r) (url r) (secure r) h
     (upgradeMarker r) (partiallyReliable r).
Definition setPartiallyReliable (r : t) : t :=
  mk (method r) (version r) (url r) (secure r) (headers r)
     (upgradeMarker r) true.

(** [HTTP2Codec::requestUpgrade(request)]: tags the request for the
    cleartext upgrade. *)
Definition requestUpgrade (r : t) : t :=
  mk (method r) (version r) (url r) (secure r) (headers r)
     true (partiallyReliable r).

End HTTPMessage.

(** ** folly::SSLContext

    The TLS context is an external collaborator: it is embedded as the list
    of configuration calls made on it. *)

Module SSLContext.

Inductive call :=
| setOptions (opts : Z)
| setCipherList
| loadTrustedCertificates (caPath : string)
| loadCertKeyPairFromFiles (certPath keyPath : string)
| setAdvertisedNextProtocols (protos : list string).

Abbreviation t := (list call).

Definition SSL_OP_NO_COMPRESSION : Z := 0x00020000.

End SSLContext.

(** ** What the driver writes: std::cout and the glog streams *)

Inductive Severity := INFO | ERROR.

Inductive Output :=
| CoutStr (s : string)              (* cout << s *)
| CoutWrite (bytes : list byte)     (* cout.write(p, n) *)
| CoutFlush                         (* cout.flush() *)
| DumpMessage (msg : HTTPMessage.t) (vlevel : Z)   (* msg.dumpMessage(v) *)
| Log (sev : Severity) (text : string).            (* LOG(sev) << text *)

(** ** proxygen::HTTPTransaction

    The transaction handle the driver sends on.  It is embedded as a
    recording object: [history] lists, in order, the calls the driver made on
    it and the flow-control callbacks it delivered to the driver.
    [egress_full] is the transport's flow-control policy: given the history
    up to and including a [sendBody] call, it tells whether that call fills
    the egress buffer, in which case the transaction calls the handler's
    [onEgressPaused] before [sendBody] returns. *)

Module HTTPTransaction.

Inductive item :=
| SendHeaders (msg : HTTPMessage.t)
| SendBody (buf : IOBuf.t)
| SendEOM
| EgressPaused
| EgressResumed.

Record t := mk {
  history : list item;
  egress_full : list item → bool
}.

Definition record (i : item) (txn : t) : t :=
  mk (history txn ++ [i]) (egress_full txn).

Definition sendHeaders (msg : HTTPMessage.t) (txn : t) : t :=
  record (SendHeaders msg) txn.

(** Returns the transaction and whether [onEgressPaused] is to be
    delivered to the handler from within the call. *)
Definition sendBody (buf : IOBuf.t) (txn : t) : t * bool :=
  let txn' := record (SendBody buf) txn in
  if egress_full txn (history txn') then (record EgressPaused txn', true)
  else (txn', false).

Definition sendEOM (txn : t) : t := record SendEOM txn.

(** A transaction fresh from [newTransaction]. *)
Definition new (policy : list item → bool) : t := mk [] policy.

End HTTPTransaction.

(** ** folly::IOBuf chains

    A body chunk arrives as a chain of buffers linked in a ring: every node
    has a [next] pointer and the last node points back to the head.  Nodes
    live in a heap indexed by their address. *)

Module IOBufChain.

Record node := mknode {
  buf : IOBuf.t;
  next : nat
}.

Abbreviation heap := (gmap nat node).

End IOBufChain.

(** ** CurlClient::CurlPushHandler, the members *)

Module CurlPushHandlerState.

Record t := mk {
  pushedTxn_ : option nat;
  seenOnHeadersComplete_ : bool;
  promise_ : option HTTPMessage.t;
  response_ : option HTTPMessage.t
}.

(** [CurlPushHandler(parent)].  The members' initial values are set in
    CurlClient.h, which this development does not embed; modelled from
    the spec: nothing has been seen or received yet. *)
Definition new : t := mk None false None None.

End CurlPushHandlerState.

(** ** CurlClient, the members *)

Record CurlClient := mkCurlClient {
  txn_ : option HTTPTransaction.t;
  httpMethod_ : HTTPMethod;
  url_ : URL.t;
  proxy_ : option URL.t;
  request_ : HTTPMessage.t;
  inputFilename_ : string;
  sslContext_ : option SSLContext.t;
  recvWindow_ : Z;
  loggingEnabled_ : bool;
  h2c_ : bool;
  httpMajor_ : Z;
  httpMinor_ : Z;
  egressPaused_ : bool;
  inputFile_ : option Ifstream.t;
  partiallyReliable_ : bool;
  response_ : option HTTPMessage.t;
  pushTxnHandlers_ : list CurlPushHandlerState.t
}.

Definition set_txn (v : option HTTPTransaction.t) (c : CurlClient) : CurlClient :=
  mkCurlClient v (httpMethod_ c) (url_ c) (proxy_ c) (request_ c)
    (inputFilename_ c) (sslContext_ c) (recvWindow_ c) (loggingEnabled_ c)
    (h2c_ c) (httpMajor_ c) (httpMinor_ c) (egressPaused_ c) (inputFile_ c)
    (partiallyReliable_ c) (response_ c) (pushTxnHandlers_ c).

Definition set_request (v : HTTPMessage.t) (c : CurlClient) : CurlClient :=
  mkCurlClient (txn_ c) (httpMethod_ c) (url_ c) (proxy_ c) v
    (inputFilename_ c) (sslContext_ c) (recvWindow_ c) (loggingEnabled_ c)
    (h2c_ c) (httpMajor_ c) (httpMinor_ c) (egressPaused_ c) (inputFile_ c)
    (partiallyReliable_ c) (response_ c) (pushTxnHandlers_ c).

Definition set_sslContext (v : option SSLContext.t) (c : CurlClient) : CurlClient :=
  mkCurlClient (txn_ c) (httpMethod_ c) (url_ c) (proxy_ c) (request_ c)
    (inputFilename_ c) v (recvWindow_ c) (loggingEnabled_ c) (h2c_ c)
    (httpMajor_ c) (httpMinor_ c) (egressPaused_ c) (inputFile_ c)
    (partiallyReliable_ c) (response_ c) (pushTxnHandlers_ c).

Definition set_recvWindow (v : Z) (c : CurlClient) : CurlClient :=
  mkCurlClient (txn_ c) (httpMethod_ c) (url_ c) (proxy_ c) (request_ c)
    (inputFilename_ c) (sslContext_ c) v (loggingEnabled_ c) (h2c_ c)
    (httpMajor_ c) (httpMinor_ c) (egressPaused_ c) (inputFile_ c)
    (partiallyReliable_ c) (response_ c) (pushTxnHandlers_ c).

Definition set_loggingEnabled (v : bool) (c : CurlClient) : CurlClient :=
  mkCurlClient (txn_ c) (httpMethod_ c) (url_ c) (proxy_ c) (request_ c)
    (inputFilename_ c) (sslContext_ c) (recvWindow_ c) v (h2c_ c)
    (httpMajor_ c) (httpMinor_ c) (egressPaused_ c) (inputFile_ c)
    (partiallyReliable_ c) (response_ c) (pushTxnHandlers_ c).

Definition set_h2c (v : bool) (c : CurlClient) : CurlClient :=
  mkCurlClient (txn_ c) (httpMethod_ c) (url_ c) (proxy_ c) (request_ c)
    (inputFilename_ c) (sslContext_ c) (recvWindow_ c) (loggingEnabled_ c) v
    (httpMajor_ c) (httpMinor_ c) (egressPaused_ c) (inputFile_ c)
    (partiallyReliable_ c) (response_ c) (pushTxnHandlers_ c).

Definition set_egressPaused (v : bool) (c : CurlClient) : CurlClient :=
  mkCurlClient (txn_ c) (httpMethod_ c) (url_ c) (proxy_ c) (request_ c)
    (inputFilename_ c) (sslContext_ c) (recvWindow_ c) (loggingEnabled_ c)
    (h2c_ c) (httpMajor_ c) (httpMinor_ c) v (inputFile_ c)
    (partiallyReliable_ c) (response_ c) (pushTxnHandlers_ c).

Definition set_inputFile (v : option Ifstream.t) (c : CurlClient) : CurlClient :=
  mkCurlClient (txn_ c) (httpMethod_ c) (url_ c) (proxy_ c) (request_ c)
    (inputFilename_ c) (sslContext_ c) (recvWindow_ c) (loggingEnabled_ c)
    (h2c_ c) (httpMajor_ c) (httpMinor_ c) (egressPaused_ c) v
    (partiallyReliable_ c) (response_ c) (pushTxnHandlers_ c).

Definition set_response (v : option HTTPMessage.t) (c : CurlClient) : CurlClient :=
  mkCurlClient (txn_ c) (httpMethod_ c) (url_ c) (proxy_ c) (request_ c)
    (inputFilename_ c) (sslContext_ c) (recvWindow_ c) (loggingEnabled_ c)
    (h2c_ c) (httpMajor_ c) (httpMinor_ c) (egressPaused_ c) (inputFile_ c)
    (partiallyReliable_ c) v (pushTxnHandlers_ c).

Definition set_pushTxnHandlers (v : list CurlPushHandlerState.t) (c : CurlClient) : CurlClient :=
  mkCurlClient (txn_ c) (httpMethod_ c) (url_ c) (proxy_ c) (request_ c)
    (inputFilename_ c) (sslContext_ c) (recvWindow_ c) (loggingEnabled_ c)
    (h2c_ c) (httpMajor_ c) (httpMinor_ c) (egressPaused_ c) (inputFile_ c)
    (partiallyReliable_ c) (response_ c) v.

(** The driver together with the process-wide output streams it writes. *)
Record World := mkWorld {
  client : CurlClient;
  output : list Output
}.

Definition on_client (f : CurlClient → CurlClient) (w : World) : World :=
  mkWorld (f (client w)) (output w).

Definition emit (o : list Output) (w : World) : World :=
  mkWorld (client w) (output w ++ o).

(** [LOG_IF(sev, loggingEnabled_) << text] *)
Definition LOG_IF_logging (sev : Severity) (text : string) (w : World) : World :=
  if loggingEnabled_ (client w) then emit [Log sev text] w else w.

(** ** CurlClient, the methods *)

(** The constructor.  [loggingEnabled], [recvWindow] and [egressPaused] are
    the in-class initial values of the members of the same names, set in
    CurlClient.h, which this development does not embed: they are taken as
    parameters. *)
Definition CurlClient_new
    (loggingEnabled : bool) (recvWindow : Z) (egressPaused : bool)
    (httpMethod : HTTPMethod) (url : URL.t) (proxy : option URL.t)
    (headers : HTTPHeaders.t) (inputFilename : string) (h2c : bool)
    (httpMajor httpMinor : Z) (partiallyReliable : bool) : CurlClient :=
  let proxy_ := match proxy with
                | Some p => Some p
                | None => None
                end in
  let request :=
    HTTPHeaders.forEach
      (λ header val r,
         HTTPMessage.setHeaders
           (HTTPHeaders.add header val (HTTPMessage.headers r)) r)
      headers HTTPMessage.new in
  mkCurlClient None httpMethod url proxy_ request inputFilename None
    recvWindow loggingEnabled h2c httpMajor httpMinor egressPaused None
    partiallyReliable None [].

(** [parseHeaders]: [None] stands for an access outside [nv]. *)
Definition parseHeaders (headersString : string) : option HTTPHeaders.t :=
  let headersList := split "," headersString in
  foldl
    (λ acc headerPair,
       headers ← acc;
       let nv := split "=" headerPair in
       if bool_decide (0 < length nv) then
         nv0 ← nv !! 0;
         if empty nv0 then Some headers
         else
           value ← (if bool_decide (1 < length nv) then nv !! 1
                    else Some EmptyString);
           Some (HTTPHeaders.add nv0 value headers)
       else Some headers)
    (Some []) headersList.

Definition initializeSsl (caPath nextProtos certPath keyPath : string)
    (c : CurlClient) : CurlClient :=
  let ctx : SSLContext.t := [] in
  let ctx := ctx ++ [SSLContext.setOptions SSLContext.SSL_OP_NO_COMPRESSION] in
  let ctx := ctx ++ [SSLContext.setCipherList] in
  let ctx := if negb (empty caPath)
             then ctx ++ [SSLContext.loadTrustedCertificates caPath]
             else ctx in
  let ctx := if negb (empty certPath) && negb (empty keyPath)
             then ctx ++ [SSLContext.loadCertKeyPairFromFiles certPath keyPath]
             else ctx in
  let nextProtoList := split "," nextProtos in
  let ctx := ctx ++ [SSLContext.setAdvertisedNextProtocols nextProtoList] in
  set_h2c false (set_sslContext (Some ctx) c).

(** Machine integers: the value of type [int32_t], and of type [size_t]
    (64 bits wide), that an integer converts to. *)
Definition int32_t (z : Z) : Z := (z + 2 ^ 31) mod 2 ^ 32 - 2 ^ 31.
Definition size_t (z : Z) : Z := z mod 2 ^ 64.

(** [setFlowControlSettings]: the parameter is an [int32_t]. *)
Definition setFlowControlSettings (recvWindow : Z) (c : CurlClient)
    : CurlClient :=
  set_recvWindow (int32_t recvWindow) c.

(** ** Calls on [txn_].  A call through a null [txn_] gives [None]. *)

Definition txn_sendHeaders (msg : HTTPMessage.t) (w : World) : option World :=
  txn ← txn_ (client w);
  Some (on_client (set_txn (Some (HTTPTransaction.sendHeaders msg txn))) w).

Definition txn_sendEOM (w : World) : option World :=
  txn ← txn_ (client w);
  Some (on_client (set_txn (Some (HTTPTransaction.sendEOM txn))) w).

Definition onEgressPaused (w : World) : World :=
  let w := LOG_IF_logging INFO "Egress paused" w in
  on_client (set_egressPaused true) w.

(** [txn_->sendBody(buf)]: when the call fills the egress buffer, the
    transaction calls [onEgressPaused] on the driver before it returns. *)
Definition txn_sendBody (buf : IOBuf.t) (w : World) : option World :=
  txn ← txn_ (client w);
  let '(txn', paused) := HTTPTransaction.sendBody buf txn in
  let w := on_client (set_txn (Some txn')) w in
  Some (if paused then onEgressPaused w else w).

Definition kReadSize : nat := 4096.

(** One pass through the body of the loop of [sendBodyFromFile], up to the
    call of [sendBody]: the buffer and the stream after the read. *)
Definition read_chunk (f : Ifstream.t) : IOBuf.t * Ifstream.t :=
  let buf := IOBuf.createCombined kReadSize in
  let '(stored, f) := Ifstream.read kReadSize f in
  let buf := IOBuf.write_at_tail stored buf in
  let buf := IOBuf.append (Ifstream.gcount f) buf in
  (buf, f).

(** The loop of [sendBodyFromFile].  [fuel] bounds the number of passes;
    [None] stands for a null [inputFile_] or [txn_], or for the loop wanting
    more passes than [fuel]. *)
Fixpoint sendBodyFromFile_loop (fuel : nat) (w : World) : option World :=
  f ← inputFile_ (client w);
  if Ifstream.good f && negb (egressPaused_ (client w)) then
    match fuel with
    | 0 => None
    | S fuel =>
        let '(buf, f) := read_chunk f in
        let w := on_client (set_inputFile (Some f)) w in
        w ← txn_sendBody buf w;
        sendBodyFromFile_loop fuel w
    end
  else Some w.

(** [sendBodyFromFile].  [CHECK(inputFile_)] aborts on a null pointer:
    [None].  Every pass of the loop but the last consumes [kReadSize] bytes,
    so one more pass than there are unread bytes is always enough. *)
Definition sendBodyFromFile (w : World) : option World :=
  f ← inputFile_ (client w);
  w ← sendBodyFromFile_loop (S (length (Ifstream.unread f))) w;
  if negb (egressPaused_ (client w)) then txn_sendEOM w else Some w.

(** The part of [sendRequest] that fills in [request_], up to the default
    headers. *)
Definition build_request (c : CurlClient) : HTTPMessage.t :=
  let r := request_ c in
  let r := HTTPMessage.setMethod (httpMethod_ c) r in
  let r := HTTPMessage.setHTTPVersion (httpMajor_ c) (httpMinor_ c) r in
  let r := match proxy_ c with
           | Some _ => HTTPMessage.setURL (URL.getUrl (url_ c)) r
           | None => HTTPMessage.setURL (URL.makeRelativeURL (url_ c)) r
           end in
  let r := HTTPMessage.setSecure (URL.isSecure (url_ c)) r in
  let r := if h2c_ c then HTTPMessage.requestUpgrade r else r in
  let h := HTTPMessage.headers r in
  let h :=
    if negb (bool_decide (HTTPHeaders.getNumberOfValues_code
                            HTTPHeaders.HTTP_HEADER_USER_AGENT h ≠ 0))
    then HTTPHeaders.add_code HTTPHeaders.HTTP_HEADER_USER_AGENT
           "proxygen_curl" h
    else h in
  let h :=
    if negb (bool_decide (HTTPHeaders.getNumberOfValues_code
                            HTTPHeaders.HTTP_HEADER_HOST h ≠ 0))
    then HTTPHeaders.add_code HTTPHeaders.HTTP_HEADER_HOST
           (URL.getHostAndPort (url_ c)) h
    else h in
  let h :=
    if negb (bool_decide (HTTPHeaders.getNumberOfValues_code
                            HTTPHeaders.HTTP_HEADER_ACCEPT h ≠ 0))
    then HTTPHeaders.add "Accept" "*/*" h
    else h in
  HTTPMessage.setHeaders h r.

Definition sendRequest (fs : Ifstream.filesystem) (txn : HTTPTransaction.t)
    (w : World) : option World :=
  let c := set_txn (Some txn) (client w) in
  let c := set_request (build_request c) c in
  let w := mkWorld c (output w) in
  let w := if loggingEnabled_ c then emit [DumpMessage (request_ c) 4] w
           else w in
  let w := if partiallyReliable_ c
           then on_client
                  (λ c, set_request
                          (HTTPMessage.setPartiallyReliable (request_ c)) c) w
           else w in
  w ← txn_sendHeaders (request_ (client w)) w;
  if HTTPMethod_eqb (httpMethod_ c) POST then
    let f := Ifstream.open fs (inputFilename_ c) in
    sendBodyFromFile (on_client (set_inputFile (Some f)) w)
  else txn_sendEOM w.

(** [tag] is the empty string when the caller passes none. *)
Definition printMessageImpl (msg : HTTPMessage.t) (tag : string) (w : World)
    : World :=
  if negb (loggingEnabled_ (client w)) then w
  else emit [CoutStr tag; DumpMessage msg 10] w.

Definition connectError (what : string) (w : World) : World :=
  LOG_IF_logging ERROR
    ("Coudln't connect to " +:+ URL.getHostAndPort (url_ (client w))
       +:+ ":" +:+ what) w.

Definition setTransaction (w : World) : World := w.

Definition detachTransaction (w : World) : World := w.

Definition onHeadersComplete (msg : HTTPMessage.t) (w : World) : World :=
  let w := on_client (set_response (Some msg)) w in
  printMessageImpl msg "" w.

(** The [do ... while (p != chain.get())] loop of [onBody], from node [p].
    [None] stands for following a pointer to no node of the heap, or for
    the loop wanting more passes than [fuel]. *)
Fixpoint onBody_loop (fuel : nat) (heap : IOBufChain.heap) (head p : nat)
    (out : list Output) : option (list Output) :=
  match fuel with
  | 0 => None
  | S fuel =>
      n ← heap !! p;
      let out := out ++ [CoutWrite (IOBuf.data (IOBufChain.buf n))] in
      let out := out ++ [CoutFlush] in
      let p := IOBufChain.next n in
      if bool_decide (p ≠ head) then onBody_loop fuel heap head p out
      else Some out
  end.

(** [onBody].  A ring visits no node twice, so as many passes as the heap
    has nodes are enough. *)
Definition onBody (heap : IOBufChain.heap) (chain : option nat) (w : World)
    : option World :=
  if negb (loggingEnabled_ (client w)) then Some w
  else match chain with
       | Some head =>
           out ← onBody_loop (size heap) heap head head (output w);
           Some (mkWorld (client w) out)
       | None => Some w
       end.

Definition onTrailers (w : World) : World :=
  LOG_IF_logging INFO "Discarding trailers" w.

Definition onEOM (w : World) : World := LOG_IF_logging INFO "Got EOM" w.

Definition onUpgrade (w : World) : World :=
  LOG_IF_logging INFO "Discarding upgrade protocol" w.

Definition onError (what : string) (w : World) : World :=
  LOG_IF_logging ERROR ("An error occurred: " +:+ what) w.

Definition onEgressResumed (w : World) : option World :=
  let w := LOG_IF_logging INFO "Egress resumed" w in
  let w := on_client (set_egressPaused false) w in
  match inputFile_ (client w) with
  | Some _ => sendBodyFromFile w
  | None => Some w
  end.

(** [onPushedTransaction]: the new handler is kept at the end of
    [pushTxnHandlers_]; [pushedTxn->setHandler] binds it on the transport's
    side. *)
Definition onPushedTransaction (pushedTxn : nat) (w : World) : World :=
  on_client
    (λ c, set_pushTxnHandlers
            (pushTxnHandlers_ c ++ [CurlPushHandlerState.new]) c) w.

Definition getServerName (c : CurlClient) : string :=
  let res :=
    HTTPHeaders.getSingleOrEmpty
      (HTTPHeaders.getHeaderName HTTPHeaders.HTTP_HEADER_HOST)
      (HTTPMessage.headers (request_ c)) in
  if empty res then URL.getHost (url_ c) else res.

(** ** CurlClient::CurlPushHandler, the methods

    A handler is owned by its parent, in [pushTxnHandlers_]; it is named by
    its index there.  [None] stands for a call on a handler that does not
    exist. *)

Module CurlPushHandler.

Import CurlPushHandlerState.

Definition update (i : nat) (h : CurlPushHandlerState.t) (w : World) : World :=
  on_client
    (λ c, set_pushTxnHandlers (<[i := h]> (pushTxnHandlers_ c)) c) w.

Definition setTransaction (i : nat) (txn : nat) (w : World) : option World :=
  h ← pushTxnHandlers_ (client w) !! i;
  let w := LOG_IF_logging INFO "Received pushed transaction" w in
  Some (update i (mk (Some txn) (seenOnHeadersComplete_ h) (promise_ h)
                     (response_ h)) w).

Definition detachTransaction (i : nat) (w : World) : option World :=
  h ← pushTxnHandlers_ (client w) !! i;
  Some (LOG_IF_logging INFO "Detached pushed transaction" w).

Definition onHeadersComplete (i : nat) (msg : HTTPMessage.t) (w : World)
    : option World :=
  h ← pushTxnHandlers_ (client w) !! i;
  if negb (seenOnHeadersComplete_ h) then
    let h := mk (pushedTxn_ h) true (promise_ h) (response_ h) in
    let h := mk (pushedTxn_ h) (seenOnHeadersComplete_ h) (Some msg)
                (response_ h) in
    Some (printMessageImpl msg "[PP] " (update i h w))
  else
    let h := mk (pushedTxn_ h) (seenOnHeadersComplete_ h) (promise_ h)
                (Some msg) in
    Some (printMessageImpl msg "[PR] " (update i h w)).

Definition onBody (i : nat) (heap : IOBufChain.heap) (chain : option nat)
    (w : World) : option World :=
  h ← pushTxnHandlers_ (client w) !! i;
  onBody heap chain w.

Definition onEOM (i : nat) (w : World) : option World :=
  h ← pushTxnHandlers_ (client w) !! i;
  Some (LOG_IF_logging INFO "Got PushTxn EOM" w).

Definition onError (i : nat) (what : string) (w : World) : option World :=
  h ← pushTxnHandlers_ (client w) !! i;
  Some (onError what w).

End CurlPushHandler.

(** ** The transport's side: delivering callbacks

    Once [sendRequest] has run, the transport drives the exchange by calling
    the handler methods.  A flow-control callback is recorded in the history
    of the transaction that delivers it. *)

Inductive PushEvent :=
| PushSetTransaction (txn : nat)
| PushDetachTransaction
| PushHeadersComplete (msg : HTTPMessage.t)
| PushBody (heap : IOBufChain.heap) (chain : option nat)
| PushEOM
| PushError (what : string).

Inductive Event :=
| SetTransaction
| DetachTransaction
| HeadersComplete (msg : HTTPMessage.t)
| Body (heap : IOBufChain.heap) (chain : option nat)
| Trailers
| EOM
| Upgrade
| Error (what : string)
| EgressPaused
| EgressResumed
| PushedTransaction (pushedTxn : nat)
| Pushed (i : nat) (e : PushEvent).

Definition txn_record (i : HTTPTransaction.item) (w : World) : World :=
  match txn_ (client w) with
  | Some txn => on_client (set_txn (Some (HTTPTransaction.record i txn))) w
  | None => w
  end.

Definition deliver (e : Event) (w : World) : option World :=
  match e with
  | SetTransaction => Some (setTransaction w)
  | DetachTransaction => Some (detachTransaction w)
  | HeadersComplete msg => Some (onHeadersComplete msg w)
  | Body heap chain => onBody heap chain w
  | Trailers => Some (onTrailers w)
  | EOM => Some (onEOM w)
  | Upgrade => Some (onUpgrade w)
  | Error what => Some (onError what w)
  | EgressPaused =>
      Some (onEgressPaused (txn_record HTTPTransaction.EgressPaused w))
  | EgressResumed =>
      onEgressResumed (txn_record HTTPTransaction.EgressResumed w)
  | PushedTransaction pushedTxn => Some (onPushedTransaction pushedTxn w)
  | Pushed i (PushSetTransaction txn) => CurlPushHandler.setTransaction i txn w
  | Pushed i PushDetachTransaction => CurlPushHandler.detachTransaction i w
  | Pushed i (PushHeadersComplete msg) =>
      CurlPushHandler.onHeadersComplete i msg w
  | Pushed i (PushBody heap chain) => CurlPushHandler.onBody i heap chain w
  | Pushed i PushEOM => CurlPushHandler.onEOM i w
  | Pushed i (PushError what) => CurlPushHandler.onError i what w
  end.

Fixpoint run (events : list Event) (w : World) : option World :=
  match events with
  | [] => Some w
  | e :: events => w ← deliver e w; run events w
  end.

(** An exchange: [sendRequest] on a new transaction, then the callbacks the
    transport delivers. *)
Definition exchange (fs : Ifstream.filesystem)
    (policy : list HTTPTransaction.item → bool) (events : list Event)
    (w : World) : option World :=
  w ← sendRequest fs (HTTPTransaction.new policy) w;
  run events w.

(** The history of the transaction the driver holds. *)
Definition txn_history (w : World) : list HTTPTransaction.item :=
  match txn_ (client w) with
  | Some txn => HTTPTransaction.history txn
  | None => []
  end.

(** The buffers of the [sendBody] calls of a history, in order. *)
Definition sent_buffers (h : list HTTPTransaction.item) : list IOBuf.t :=
  omap (λ i, match i with HTTPTransaction.SendBody b => Some b | _ => None end) h.

(** The body bytes a history carries: the data of its buffers, joined. *)
Definition sent_bytes (h : list HTTPTransaction.item) : list byte :=
  mjoin (IOBuf.data <$> sent_buffers h).

(** How many [sendEOM] calls a history holds. *)
Definition eom_count (h : list HTTPTransaction.item) : nat :=
  length (omap (λ i, match i with
                     | HTTPTransaction.SendEOM => Some ()
                     | _ => None
                     end) h).

Definition is_send (i : HTTPTransaction.item) : bool :=
  match i with
  | HTTPTransaction.SendBody _ | HTTPTransaction.SendEOM => true
  | _ => false
  end.

(** The request as [sendRequest] hands it to [sendHeaders]. *)
Definition sent_request (c : CurlClient) : HTTPMessage.t :=
  if partiallyReliable_ c
  then HTTPMessage.setPartiallyReliable (build_request c)
  else build_request c.

(** ** Vocabulary of the statements about [onBody] *)

(** [linked heap head addrs]: every address of [addrs] has a node in the
    heap, each node points to the next address of the list, and the last
    one points to [head]. *)
Fixpoint linked (heap : IOBufChain.heap) (head : nat) (addrs : list nat)
    : bool :=
  match addrs with
  | [] => false
  | a :: rest =>
      match heap !! a with
      | None => false
      | Some n =>
          match rest with
          | [] => bool_decide (IOBufChain.next n = head)
          | a' :: _ =>
              bool_decide (IOBufChain.next n = a') && linked heap head rest
          end
      end
  end.

(** The nodes at [addrs], all different, make a ring that starts at
    [head]. *)
Definition ring (heap : IOBufChain.heap) (head : nat) (addrs : list nat)
    : Prop :=
  addrs !! 0 = Some head ∧ NoDup addrs ∧ linked heap head addrs = true.

(** The data of the buffers at [addrs], in order. *)
Definition segments (heap : IOBufChain.heap) (addrs : list nat)
    : list (list byte) :=
  omap (λ a, (λ n, IOBuf.data (IOBufChain.buf n)) <$> heap !! a) addrs.

(** Each segment written, then flushed. *)
Definition written (segs : list (list byte)) : list Output :=
  segs ≫= λ bytes, [CoutWrite bytes; CoutFlush].

(** ** Vocabulary of the statements about [parseHeaders] *)

(** Whether the character [d] occurs in [s]. *)
Fixpoint occurs (d : ascii) (s : string) : bool :=
  match s with
  | EmptyString => false
  | String c rest => Ascii.eqb c d || occurs d rest
  end.

(** The part of [s] before the first [d], all of [s] if there is none. *)
Fixpoint before (d : ascii) (s : string) : string :=
  match s with
  | EmptyString => EmptyString
  | String c rest =>
      if Ascii.eqb c d then EmptyString else String c (before d rest)
  end.

(** The part of [s] after the first [d], if there is one. *)
Fixpoint after (d : ascii) (s : string) : option string :=
  match s with
  | EmptyString => None
  | String c rest => if Ascii.eqb c d then Some rest else after d rest
  end.

(** The entry a token stands for, in the spec's words: the name is what
    comes before the first `='; `a token with empty name is skipped
    entirely; a token with no `=' yields an empty-string value; surplus
    `='-delimited fragments beyond the first are discarded'. *)
Definition token_entry (token : string) : option (string * string) :=
  let name := before "=" token in
  if empty name then None
  else Some (name, match after "=" token with
                   | None => EmptyString
                   | Some fragments => before "=" fragments
                   end).

(** The default headers, in the spec's words: User-Agent, Host and Accept,
    each one `if and only if the caller did not already supply a header of
    that name (case-insensitive)'. *)
Definition default_headers (hostAndPort : string) (supplied : HTTPHeaders.t)
    : HTTPHeaders.t :=
  (if bool_decide (HTTPHeaders.getNumberOfValues "User-Agent" supplied = 0)
   then [("User-Agent", "proxygen_curl")] else [])
  ++ (if bool_decide (HTTPHeaders.getNumberOfValues "Host" supplied = 0)
      then [("Host", hostAndPort)] else [])
  ++ (if bool_decide (HTTPHeaders.getNumberOfValues "Accept" supplied = 0)
      then [("Accept", "*/*")] else []).

(** The callbacks whose handlers cannot abort: all but the body callbacks,
    which follow the pointers of a chain, and the callbacks of push
    handlers, which must exist. *)
Definition always_returns (e : Event) : bool :=
  match e with
  | Body _ _ | Pushed _ _ => false
  | _ => true
  end.

(** ** Vocabulary of the statements about the feeder *)

Section Vocabulary.

Import HTTPTransaction.

(** Whether egress is paused after a history item, given whether it was
    before: the flow-control callbacks switch it. *)
Definition flow_step (p : bool) (i : item) : bool :=
  match i with
  | HTTPTransaction.EgressPaused => true
  | HTTPTransaction.EgressResumed => false
  | _ => p
  end.

Definition paused_after (p : bool) (h : list item) : bool :=
  foldl flow_step p h.

(** No [sendBody] and no [sendEOM] while paused. *)
Fixpoint quiet (p : bool) (h : list item) : bool :=
  match h with
  | [] => true
  | i :: h => (if is_send i then negb p else true) && quiet (flow_step p i) h
  end.

(** Every buffer sent carries the bytes of the source found at the offset
    that the buffers sent before it add up to. *)
Definition chunked (data : list byte) (h : list item) : Prop :=
  ∀ l1 b l2, h = l1 ++ SendBody b :: l2 →
    IOBuf.data b = take kReadSize (drop (length (sent_bytes l1)) data).

(** Every [sendEOM] comes after some [sendBody]. *)
Definition eom_after_body (h : list item) : Prop :=
  ∀ l1 l2, h = l1 ++ SendEOM :: l2 → ∃ b, SendBody b ∈ l1.

(** What holds of the stream [f], the history [h] and the paused flag
    while the bytes [data] of an opened source are fed. *)
Record Feeding (data : list byte) (f : Ifstream.t) (h : list item)
    (paused : bool) : Prop := mkFeeding {
  fd_contents : Ifstream.contents f = data;
  fd_bad : Ifstream.badbit f = false;
  fd_pos : Ifstream.gpos f ≤ length data;
  fd_done : Ifstream.good f = false → Ifstream.gpos f = length data;
  fd_sent : sent_bytes h = take (Ifstream.gpos f) data;
  fd_chunked : chunked data h;
  fd_flag : paused_after false h = true → paused = true;
  fd_quiet : quiet false h = true;
  fd_eom : SendEOM ∈ h → Ifstream.good f = false;
  fd_first : data ≠ [] → eom_after_body h
}.

Definition FeedingWorld (data : list byte) (w : World) : Prop :=
  ∃ f txn, inputFile_ (client w) = Some f ∧ txn_ (client w) = Some txn ∧
    Feeding data f (HTTPTransaction.history txn) (egressPaused_ (client w)).

(** Between callbacks, the feeder has either been paused or has sent the
    end of the message. *)
Definition Settled (data : list byte) (w : World) : Prop :=
  FeedingWorld data w ∧
  (egressPaused_ (client w) = false → SendEOM ∈ txn_history w).

End Vocabulary.

(** The feeder changes no member of the driver but [txn_], [inputFile_]
    and [egressPaused_]. *)
Definition feeder_frame (c c' : CurlClient) : Prop :=
  c' = set_txn (txn_ c') (set_inputFile (inputFile_ c')
         (set_egressPaused (egressPaused_ c') c)).

(** The members the feeder works on. *)
Definition feeder_core (w : World) :=
  (txn_ (client w), inputFile_ (client w), egressPaused_ (client w)).

(** What a history looks like: the size of the buffer for a [sendBody], and
    a word for everything else. *)
Definition outline (h : list HTTPTransaction.item) : list (string + Z) :=
  (λ i, match i with
        | HTTPTransaction.SendHeaders _ => inl "headers"
        | HTTPTransaction.SendBody b => inr (Z.of_nat (IOBuf.length b))
        | HTTPTransaction.SendEOM => inl "EOM"
        | HTTPTransaction.EgressPaused => inl "paused"
        | HTTPTransaction.EgressResumed => inl "resumed"
        end) <$> h.

(** ** Sample inputs *)

Module Sample.

Definition url : URL.t :=
  URL.mk "http://example.org:8080/upload" "/upload" false "example.org"
    "example.org:8080".

(** A driver posting the file "body.bin", as the constructor leaves it. *)
Definition poster (h2c : bool) (headers : HTTPHeaders.t) : World :=
  mkWorld
    (CurlClient_new true 65536 false POST url None headers "body.bin" h2c
       1 1 false)
    [].

Definition getter (logging h2c : bool) : World :=
  mkWorld
    (CurlClient_new logging 65536 false GET url None [] "" h2c 1 1 false)
    [].

(** A file system with the single file "body.bin". *)
Definition disk (bytes : list byte) : Ifstream.filesystem :=
  λ name, if String.eqb name "body.bin" then Some bytes else None.

Definition body (n : Z) : list byte := replicate (Z.to_nat n) Byte.x61.

(** A transport that never signals a full egress buffer, and one that
    does on the first [sendBody] only. *)
Definition never_full : list HTTPTransaction.item → bool := λ _, false.
Definition full_once : list HTTPTransaction.item → bool :=
  λ h, bool_decide (length (sent_buffers h) = 1).

(** A chain of three buffers, at addresses 10, 20 and 30; the second one
    is empty. *)
Definition chain : IOBufChain.heap :=
  <[10 := IOBufChain.mknode (IOBuf.mk [Byte.x61; Byte.x62; Byte.x00] 2) 20]>
    (<[20 := IOBufChain.mknode (IOBuf.mk [] 0) 30]>
       (<[30 := IOBufChain.mknode (IOBuf.mk [Byte.x63] 1) 10]> ∅)).

(** The driver after it has posted a file of three bytes, egress never
    paused. *)
Definition posted : World :=
  default (poster false [])
    (sendRequest (disk (body 3)) (HTTPTransaction.new never_full)
       (poster false [])).

(** A driver posting "body.bin" with logging disabled. *)
Definition silent_poster (headers : HTTPHeaders.t) : World :=
  mkWorld
    (CurlClient_new false 65536 false POST url None headers "body.bin" false
       1 1 false)
    [].

(** The world a sample run ends in. *)
Definition after (run : option World) : World := default (getter false false) run.

End Sample.

(** ** Vocabulary of the statements about whole exchanges *)

(** How many [sendHeaders] calls a history holds. *)
Definition headers_count (h : list HTTPTransaction.item) : nat :=
  length (omap (λ i, match i with
                     | HTTPTransaction.SendHeaders _ => Some ()
                     | _ => None
                     end) h).

(** The flow-control callbacks. *)
Definition flow_event (e : Event) : bool :=
  match e with
  | EgressPaused | EgressResumed => true
  | _ => false
  end.

(** What the feeder and the flow-control callbacks add to a history:
    anything but [sendHeaders]. *)
Definition not_headers (i : HTTPTransaction.item) : bool :=
  match i with
  | HTTPTransaction.SendHeaders _ => false
  | _ => true
  end.

(** The records of the flow-control callbacks in a history. *)
Definition flow_item (i : HTTPTransaction.item) : bool :=
  match i with
  | HTTPTransaction.EgressPaused | HTTPTransaction.EgressResumed => true
  | _ => false
  end.

(** ** Vocabulary of the round trip through [parseHeaders] *)

(** A header as a token of a specification: name, [=], value. *)
Definition render_token (nv : string * string) : string :=
  fst nv +:+ "=" +:+ snd nv.

(** Headers as a specification: their tokens, separated by commas. *)
Fixpoint render (headers : list (string * string)) : string :=
  match headers with
  | [] => EmptyString
  | [nv] => render_token nv
  | nv :: rest => render_token nv +:+ String "," (render rest)
  end.

(** A header that a specification can carry: a name that is not empty, and
    neither [=] nor [,] in the name or in the value. *)
Definition plain_header (nv : string * string) : Prop :=
  empty (fst nv) = false ∧
  occurs "=" (fst nv) = false ∧ occurs "," (fst nv) = false ∧
  occurs "=" (snd nv) = false ∧ occurs "," (snd nv) = false.

(** ** Vocabulary of the statements about push streams and bodies *)

(** The headers-complete callbacks of push handler [i], one per message. *)
Definition push_headers (i : nat) (msgs : list HTTPMessage.t) : list Event :=
  (λ msg, Pushed i (PushHeadersComplete msg)) <$> msgs.

(** How many pushed transactions a sequence of callbacks announces. *)
Definition pushed_count (events : list Event) : nat :=
  length (omap (λ e, match e with
                     | PushedTransaction _ => Some ()
                     | _ => None
                     end) events).

(** The bytes written to [std::cout] with [write], joined. *)
Definition cout_bytes (out : list Output) : list byte :=
  mjoin (omap (λ o, match o with CoutWrite bytes => Some bytes | _ => None end)
           out).

(** How many times [std::cout] was flushed. *)
Definition flush_count (out : list Output) : nat :=
  length (omap (λ o, match o with CoutFlush => Some () | _ => None end) out).

(** A body chunk as the transport hands it over: a heap, the head of the
    chain, and the addresses of the chain in order. *)
Record Chunk := mkChunk {
  chunk_heap : IOBufChain.heap;
  chunk_head : nat;
  chunk_addrs : list nat
}.

Definition body_event (c : Chunk) : Event :=
  Body (chunk_heap c) (Some (chunk_head c)).

Definition chunk_segments (c : Chunk) : list (list byte) :=
  segments (chunk_heap c) (chunk_addrs c).

(** ** proxygen::HTTPUpstreamSession and [connectSuccess]

    The session the connector hands to [connectSuccess] is, like the
    transaction, a recording object: [calls] lists, in the order they were
    made, the calls the driver made on it and, as [onTransaction], what the
    transaction it has made recorded.  [setFlowControl] takes three
    [size_t].  [ssl_transport] is what [dynamic_cast<AsyncSSLSocket*>] makes of
    [getTransport()]: [None] when the transport is not a TLS socket,
    otherwise the next protocol the socket has selected, if any.
    [new_txn] is what [newTransaction] returns: the flow-control policy of
    the transaction it makes, or [None] for the null pointer that a session
    which takes no more transactions returns. *)

Module HTTPUpstreamSession.

Inductive call :=
| setFlowControl (initialReceiveWindow receiveStreamWindowSize
                    receiveSessionWindowSize : Z)
| newTransaction
| closeWhenIdle
| onTransaction (i : HTTPTransaction.item).

Record t := mk {
  calls : list call;
  ssl_transport : option (option string);
  new_txn : option (list HTTPTransaction.item → bool)
}.

Definition record (c : call) (s : t) : t :=
  mk (calls s ++ [c]) (ssl_transport s) (new_txn s).

Definition record_all (cs : list call) (s : t) : t :=
  mk (calls s ++ cs) (ssl_transport s) (new_txn s).

End HTTPUpstreamSession.

(** The driver with its output, the session, and the lines written with
    [VLOG(1)]. *)
Record Connection := mkConnection {
  world : World;
  session : HTTPUpstreamSession.t;
  verbose : list string
}.

(** [sslHandshakeFollowup]: a call through the null pointer that the cast
    gives for a transport that is not a TLS socket is [None]. *)
Definition sslHandshakeFollowup (cn : Connection) : option Connection :=
  sslSocket ← HTTPUpstreamSession.ssl_transport (session cn);
  let nextProto := sslSocket in
  match nextProto with
  | Some proto =>
      Some (mkConnection (world cn) (session cn)
              (verbose cn ++ ["Client selected next protocol " +:+ proto]))
  | None =>
      Some (mkConnection (world cn) (session cn)
              (verbose cn ++ ["Client did not select a next protocol"]))
  end.

(** [connectSuccess].  Each argument of [setFlowControl] is [recvWindow_]
    converted from [int32_t] to [size_t].  [sendRequest] on a null
    transaction calls [sendHeaders] through it: [None].  What the
    transaction has recorded when [sendRequest] returns is entered in the
    record of the session before the call of [closeWhenIdle]. *)
Definition connectSuccess (fs : Ifstream.filesystem) (cn : Connection)
    : option Connection :=
  cn ← (if URL.isSecure (url_ (client (world cn)))
        then sslHandshakeFollowup cn
        else Some cn);
  let recvWindow := size_t (recvWindow_ (client (world cn))) in
  let s := HTTPUpstreamSession.record
             (HTTPUpstreamSession.setFlowControl recvWindow recvWindow
                recvWindow)
             (session cn) in
  let s := HTTPUpstreamSession.record HTTPUpstreamSession.newTransaction s in
  let txn := HTTPTransaction.new <$> HTTPUpstreamSession.new_txn s in
  w ← match txn with
      | Some txn => sendRequest fs txn (world cn)
      | None => None
      end;
  let s := HTTPUpstreamSession.record_all
             (HTTPUpstreamSession.onTransaction <$> txn_history w) s in
  let s := HTTPUpstreamSession.record HTTPUpstreamSession.closeWhenIdle s in
  Some (mkConnection w s (verbose cn)).


(** Sample connections. *)
Module SampleSession.

(** A session over a plain socket and one over a TLS socket that has
    selected "h2". *)
Definition plain : HTTPUpstreamSession.t :=
  HTTPUpstreamSession.mk [] None (Some Sample.never_full).
Definition tls : HTTPUpstreamSession.t :=
  HTTPUpstreamSession.mk [] (Some (Some "h2")) (Some Sample.never_full).

Definition secure_url : URL.t :=
  URL.mk "https://example.org/" "/" true "example.org" "example.org".

(** A driver for a GET of the secure URL, logging disabled. *)
Definition secure_getter : World :=
  mkWorld
    (CurlClient_new false 65536 false GET secure_url None [] "" false 1 1
       false)
    [].

(** The connection a sample call ends in. *)
Definition after (r : option Connection) : Connection :=
  default (mkConnection secure_getter plain []) r.

End SampleSession.


(** The response heads a sequence of callbacks of the main transaction
    delivers, in order. *)
Definition responses (events : list Event) : list HTTPMessage.t :=
  omap (λ e, match e with
             | HeadersComplete msg => Some msg
             | _ => None
             end) events.


(** ** Vocabulary of the statements about resuming *)

(** Every [onEgressResumed] is answered at once by a send: the record of
    the callback is followed by a [sendBody] or a [sendEOM], and while bytes
    of the source are still unsent it is a [sendBody] that carries the bytes
    found at the offset the buffers sent before it end at. *)
Definition resumed_sends (data : list byte)
    (h : list HTTPTransaction.item) : Prop :=
  ∀ l1 l2, h = l1 ++ HTTPTransaction.EgressResumed :: l2 →
    ∃ i l3, l2 = i :: l3 ∧ is_send i = true ∧
      (length (sent_bytes l1) < length data →
       ∃ b, i = HTTPTransaction.SendBody b ∧
            IOBuf.data b
            = take kReadSize (drop (length (sent_bytes l1)) data) ∧
            IOBuf.data b ≠ []).

(** The paused flag follows the flow-control records of the history, from
    the value [p0] it had when the transaction was new. *)
Definition Tracked (data : list byte) (p0 : bool) (w : World) : Prop :=
  egressPaused_ (client w) = paused_after p0 (txn_history w) ∧
  resumed_sends data (txn_history w).

(** * Properties *)

(** ** The input stream and one pass of the feeder *)

Lemma read_good (n : nat) (f : Ifstream.t) :
  Ifstream.good f = true →
  Ifstream.read n f =
    (take n (Ifstream.unread f),
     Ifstream.mk (Ifstream.contents f)
       (Ifstream.gpos f + length (take n (Ifstream.unread f)))
       (bool_decide (length (take n (Ifstream.unread f)) < n))
       (bool_decide (length (take n (Ifstream.unread f)) < n))
       false
       (length (take n (Ifstream.unread f)))).
Proof.
  intros Hg. unfold Ifstream.read. rewrite Hg.
  unfold Ifstream.good in Hg.
  destruct (Ifstream.eofbit f), (Ifstream.failbit f), (Ifstream.badbit f);
    try discriminate; reflexivity.
Qed.

Lemma buffer_filled (stored : list byte) (capacity : nat) :
  length stored ≤ capacity →
  IOBuf.data
    (IOBuf.append (length stored)
       (IOBuf.write_at_tail stored (IOBuf.createCombined capacity)))
  = stored.
Proof.
  intros _. unfold IOBuf.data, IOBuf.append, IOBuf.write_at_tail,
    IOBuf.createCombined. cbn [IOBuf.len IOBuf.storage].
  rewrite take_0. cbn [app]. rewrite Nat.add_0_l.
  by rewrite take_app_length.
Qed.

(** The buffer handed to [sendBody] holds the bytes the read stored, and as
    many of them as [gcount] reports. *)
Lemma read_chunk_data (f : Ifstream.t) :
  IOBuf.data (read_chunk f).1 = (Ifstream.read kReadSize f).1 ∧
  IOBuf.length (read_chunk f).1 = Ifstream.gcount (read_chunk f).2 ∧
  (read_chunk f).2 = (Ifstream.read kReadSize f).2.
Proof.
  unfold read_chunk, IOBuf.length.
  assert (Hg : Ifstream.gcount (Ifstream.read kReadSize f).2
               = length (Ifstream.read kReadSize f).1).
  { unfold Ifstream.read. by destruct (Ifstream.good f). }
  assert (Hle : length (Ifstream.read kReadSize f).1 ≤ kReadSize).
  { unfold Ifstream.read. destruct (Ifstream.good f); cbn [fst].
    - rewrite length_take. lia.
    - cbn. lia. }
  destruct (Ifstream.read kReadSize f) as [stored f'] eqn:E.
  cbn [fst snd] in *. rewrite Hg.
  rewrite (buffer_filled stored kReadSize Hle). done.
Qed.

Lemma read_chunk_good (f : Ifstream.t) :
  Ifstream.good f = true →
  IOBuf.data (read_chunk f).1 = take kReadSize (Ifstream.unread f) ∧
  Ifstream.contents (read_chunk f).2 = Ifstream.contents f ∧
  Ifstream.gpos (read_chunk f).2
    = Ifstream.gpos f + length (take kReadSize (Ifstream.unread f)) ∧
  Ifstream.badbit (read_chunk f).2 = false ∧
  Ifstream.good (read_chunk f).2
    = negb (bool_decide (length (take kReadSize (Ifstream.unread f)) < kReadSize)).
Proof.
  intros Hg. destruct (read_chunk_data f) as (Hd & _ & Hf).
  rewrite Hd, Hf, (read_good _ _ Hg). cbn [fst snd].
  unfold Ifstream.good. cbn.
  by destruct (bool_decide _).
Qed.

(** ** Histories *)

Section Histories.

Import HTTPTransaction.

Lemma snoc_split {A} (h : list A) (i : A) l1 x l2 :
  h ++ [i] = l1 ++ x :: l2 →
  (l2 = [] ∧ l1 = h ∧ x = i) ∨ (∃ l2', l2 = l2' ++ [i] ∧ h = l1 ++ x :: l2').
Proof.
  destruct l2 as [|y l2 _] using rev_ind; intros H.
  - left. apply app_inj_tail in H as [-> ->]. done.
  - right. exists l2. rewrite app_comm_cons, app_assoc in H.
    apply app_inj_tail in H as [-> ->]. done.
Qed.

Lemma sent_buffers_snoc h i :
  sent_buffers (h ++ [i])
  = sent_buffers h ++ match i with SendBody b => [b] | _ => [] end.
Proof.
  unfold sent_buffers. rewrite omap_app. f_equal. by destruct i.
Qed.

Lemma sent_bytes_snoc h i :
  sent_bytes (h ++ [i])
  = sent_bytes h ++ match i with SendBody b => IOBuf.data b | _ => [] end.
Proof.
  unfold sent_bytes. rewrite sent_buffers_snoc, fmap_app, join_app.
  f_equal. destruct i; cbn; by rewrite ?app_nil_r.
Qed.

Lemma sent_bytes_body h :
  sent_bytes h ≠ [] → ∃ b, SendBody b ∈ h.
Proof.
  induction h as [|i h IH] using rev_ind; [done|].
  rewrite sent_bytes_snoc. intros Hne.
  destruct i as [m|b| | |];
    try (rewrite app_nil_r in Hne; destruct (IH Hne) as [b Hb];
         exists b; apply elem_of_app; by left).
  exists b. apply elem_of_app. right. by apply list_elem_of_singleton.
Qed.

Lemma paused_after_snoc p h i :
  paused_after p (h ++ [i]) = flow_step (paused_after p h) i.
Proof. unfold paused_after. by rewrite foldl_app. Qed.

Lemma quiet_snoc p h i :
  quiet p (h ++ [i])
  = quiet p h && (if is_send i then negb (paused_after p h) else true).
Proof.
  revert p. induction h as [|j h IH]; intros p; cbn.
  - by rewrite andb_true_r.
  - rewrite IH. by rewrite andb_assoc.
Qed.

Lemma quiet_paused l2 l3 :
  quiet true (l2 ++ l3) = true →
  HTTPTransaction.EgressResumed ∉ l2 →
  ∀ i, i ∈ l2 → is_send i = false.
Proof.
  induction l2 as [|j l2 IH]; intros Hq Hno i Hi.
  - by apply elem_of_nil in Hi.
  - cbn in Hq. apply andb_true_iff in Hq as [Hj Hq].
    apply not_elem_of_cons in Hno as [Hne Hno].
    apply elem_of_cons in Hi as [->|Hi].
    + by destruct (is_send j).
    + apply IH; [|done..]. by destruct j.
Qed.

(** [quiet], spelled out: nothing is sent between an [onEgressPaused] and
    the next [onEgressResumed]. *)
Lemma quiet_spec p h l1 l2 l3 :
  quiet p h = true →
  h = l1 ++ HTTPTransaction.EgressPaused :: l2 ++ l3 →
  HTTPTransaction.EgressResumed ∉ l2 →
  ∀ i, i ∈ l2 → is_send i = false.
Proof.
  intros Hq -> Hno. revert p Hq.
  induction l1 as [|j l1 IH]; intros p Hq.
  - cbn in Hq. by apply (quiet_paused l2 l3).
  - cbn in Hq. apply andb_true_iff in Hq as [_ Hq]. eauto.
Qed.

End Histories.

(** ** The feeder keeps [Feeding] *)

Section FeedingSteps.

Import HTTPTransaction.

Lemma take_length_take {A} (k : nat) (l : list A) :
  take (length (take k l)) l = take k l.
Proof.
  rewrite length_take. destruct (decide (k ≤ length l)).
  - by rewrite Nat.min_l.
  - rewrite Nat.min_r by lia. rewrite !take_ge; [done|lia..].
Qed.

Lemma chunked_snoc data h i :
  chunked data h →
  (∀ b, i = SendBody b →
     IOBuf.data b = take kReadSize (drop (length (sent_bytes h)) data)) →
  chunked data (h ++ [i]).
Proof.
  intros Hc Hi l1 b l2 Heq.
  apply snoc_split in Heq as [(-> & -> & <-)|(l2' & -> & ->)].
  - by apply Hi.
  - by eapply Hc.
Qed.

Lemma eom_after_body_snoc h i :
  eom_after_body h →
  (i = SendEOM → ∃ b, SendBody b ∈ h) →
  eom_after_body (h ++ [i]).
Proof.
  intros He Hi l1 l2 Heq.
  apply snoc_split in Heq as [(-> & -> & <-)|(l2' & -> & ->)].
  - by apply Hi.
  - by eapply He.
Qed.

Lemma Feeding_start data msg p :
  Feeding data (Ifstream.mk data 0 false false false 0) [SendHeaders msg] p.
Proof.
  split.
  - done.
  - done.
  - cbn. lia.
  - done.
  - done.
  - intros [|? l1] b l2 Heq; [done|].
    injection Heq as _ Heq. by destruct l1.
  - done.
  - done.
  - intros H. apply list_elem_of_singleton in H. done.
  - intros _ [|? l1] l2 Heq; [done|].
    injection Heq as _ Heq. by destruct l1.
Qed.

Lemma Feeding_body data f h :
  Feeding data f h false →
  Ifstream.good f = true →
  Feeding data (read_chunk f).2 (h ++ [SendBody (read_chunk f).1]) false.
Proof.
  intros [Hc Hb Hp Hd Hs Hch Hf Hq He H1] Hg.
  destruct (read_chunk_good f Hg) as (Hdat & Hcon & Hpos & Hbad & Hgood).
  assert (Hlen : length (sent_bytes h) = Ifstream.gpos f).
  { rewrite Hs, length_take. lia. }
  assert (Hun : length (Ifstream.unread f) = length data - Ifstream.gpos f).
  { unfold Ifstream.unread. rewrite Hc, length_drop. done. }
  split.
  - congruence.
  - done.
  - rewrite Hpos, length_take, Hun. lia.
  - rewrite Hgood, Hpos. intros Hshort.
    apply negb_false_iff, bool_decide_eq_true in Hshort.
    rewrite length_take in Hshort |- *. lia.
  - rewrite sent_bytes_snoc, Hs, Hdat, Hpos.
    unfold Ifstream.unread. rewrite Hc.
    rewrite <- (take_length_take kReadSize (drop (Ifstream.gpos f) data)) at 1.
    by rewrite take_take_drop.
  - apply chunked_snoc; [done|]. intros b [= <-].
    rewrite Hdat, Hlen. unfold Ifstream.unread. by rewrite Hc.
  - rewrite paused_after_snoc. cbn. done.
  - rewrite quiet_snoc, Hq. cbn.
    destruct (paused_after false h); [|done]. by specialize (Hf eq_refl).
  - intros Hin. apply elem_of_app in Hin as [Hin|Hin].
    + rewrite He in Hg; done.
    + by apply list_elem_of_singleton in Hin.
  - intros Hne. apply eom_after_body_snoc; [by apply H1|done].
Qed.

Lemma Feeding_eom data f h :
  Feeding data f h false →
  Ifstream.good f = false →
  Feeding data f (h ++ [SendEOM]) false.
Proof.
  intros [Hc Hb Hp Hd Hs Hch Hf Hq He H1] Hg.
  split; [done|done|done|done|..].
  - by rewrite sent_bytes_snoc, app_nil_r.
  - by apply chunked_snoc.
  - by rewrite paused_after_snoc.
  - rewrite quiet_snoc, Hq. cbn.
    destruct (paused_after false h); [|done]. by specialize (Hf eq_refl).
  - done.
  - intros Hne. apply eom_after_body_snoc; [by apply H1|]. intros _.
    apply sent_bytes_body. rewrite Hs, (Hd Hg), firstn_all. done.
Qed.

Lemma Feeding_flow data f h p (i : item) :
  i = HTTPTransaction.EgressPaused ∨ i = HTTPTransaction.EgressResumed →
  Feeding data f h p →
  Feeding data f (h ++ [i]) (flow_step p i).
Proof.
  intros Hi [Hc Hb Hp Hd Hs Hch Hf Hq He H1].
  split; [done|done|done|done|..].
  - rewrite sent_bytes_snoc. destruct Hi as [-> | ->]; by rewrite app_nil_r.
  - apply chunked_snoc; [done|]. by destruct Hi as [-> | ->].
  - rewrite paused_after_snoc. by destruct Hi as [-> | ->].
  - rewrite quiet_snoc, Hq. by destruct Hi as [-> | ->].
  - intros Hin. apply elem_of_app in Hin as [Hin|Hin]; [by apply He|].
    apply list_elem_of_singleton in Hin. by destruct Hi as [-> | ->].
  - intros Hne. apply eom_after_body_snoc; [by apply H1|].
    by destruct Hi as [-> | ->].
Qed.

End FeedingSteps.

(** ** The loop of [sendBodyFromFile] *)

Lemma feeder_frame_refl c : feeder_frame c c.
Proof. by destruct c. Qed.

Lemma feeder_frame_trans c1 c2 c3 :
  feeder_frame c1 c2 → feeder_frame c2 c3 → feeder_frame c1 c3.
Proof.
  unfold feeder_frame. intros H12 H23. rewrite H23 at 1. rewrite H12 at 1.
  by destruct c1.
Qed.

Lemma txn_sendBody_spec buf w txn :
  txn_ (client w) = Some txn →
  ∃ w' txn',
    txn_sendBody buf w = Some w' ∧
    txn_ (client w') = Some txn' ∧
    HTTPTransaction.egress_full txn' = HTTPTransaction.egress_full txn ∧
    inputFile_ (client w') = inputFile_ (client w) ∧
    feeder_frame (client w) (client w') ∧
    let h := HTTPTransaction.history txn ++ [HTTPTransaction.SendBody buf] in
    if HTTPTransaction.egress_full txn h
    then HTTPTransaction.history txn' = h ++ [HTTPTransaction.EgressPaused] ∧
         egressPaused_ (client w') = true
    else HTTPTransaction.history txn' = h ∧
         egressPaused_ (client w') = egressPaused_ (client w).
Proof.
  intros Ht. unfold txn_sendBody. rewrite Ht. cbn.
  unfold HTTPTransaction.sendBody. cbn.
  destruct w as [c out]. cbn in *.
  destruct (HTTPTransaction.egress_full txn _) eqn:E.
  - eexists _, _. split; [done|]. unfold onEgressPaused, LOG_IF_logging.
    cbn. destruct (loggingEnabled_ c) eqn:El; cbn;
      (split; [done|]); (split; [done|]); (split; [done|]);
      (split; [by destruct c|]); done.
  - eexists _, _. split; [done|]. cbn.
    (split; [done|]); (split; [done|]); (split; [done|]);
      (split; [by destruct c|]); done.
Qed.

Lemma kReadSize_pos : 0 < kReadSize.
Proof. unfold kReadSize. lia. Qed.

Lemma sendBodyFromFile_loop_unfold fuel w :
  sendBodyFromFile_loop fuel w =
  match inputFile_ (client w) with
  | None => None
  | Some f =>
      if Ifstream.good f && negb (egressPaused_ (client w)) then
        match fuel with
        | 0 => None
        | S fuel =>
            match txn_sendBody (read_chunk f).1
                    (on_client (set_inputFile (Some (read_chunk f).2)) w) with
            | Some w => sendBodyFromFile_loop fuel w
            | None => None
            end
        end
      else Some w
  end.
Proof.
  destruct fuel; unfold sendBodyFromFile_loop; fold sendBodyFromFile_loop;
    destruct (inputFile_ (client w)) as [f|]; try reflexivity;
    unfold mbind, option_bind; cbv beta iota;
    destruct (read_chunk f); reflexivity.
Qed.

(** Enough fuel: the loop returns. *)
Lemma sendBodyFromFile_loop_total fuel w f txn :
  inputFile_ (client w) = Some f →
  txn_ (client w) = Some txn →
  (Ifstream.good f = true → length (Ifstream.unread f) < fuel) →
  is_Some (sendBodyFromFile_loop fuel w).
Proof.
  revert w f txn. induction fuel as [|fuel IH]; intros w f txn Hf Ht Hfuel;
    rewrite sendBodyFromFile_loop_unfold, Hf.
  - destruct (Ifstream.good f) eqn:Hg; [specialize (Hfuel eq_refl); lia|].
    by eexists.
  - destruct (Ifstream.good f && negb (egressPaused_ (client w))) eqn:Hc;
      [|by eexists].
    apply andb_true_iff in Hc as [Hg _]. specialize (Hfuel Hg).
    destruct (read_chunk_good f Hg) as (_ & Hcon & Hpos & _ & Hgood).
    destruct (read_chunk f) as [buf f'] eqn:Hrc. cbn [fst snd] in *.
    destruct (txn_sendBody_spec buf
                (on_client (set_inputFile (Some f')) w) txn)
      as (w' & txn' & -> & Ht' & _ & Hf' & _); [by destruct w|].
    eapply (IH w' f' txn'); [by rewrite Hf'; destruct w|done|].
    intros Hg'. rewrite Hg' in Hgood. symmetry in Hgood.
    apply negb_true_iff, bool_decide_eq_false in Hgood.
    rewrite length_take in Hgood.
    unfold Ifstream.unread in *. rewrite Hcon, Hpos.
    rewrite length_drop, length_take, length_drop in *.
    pose proof kReadSize_pos. lia.
Qed.

(** What the loop keeps, and how it ends. *)
Lemma sendBodyFromFile_loop_keeps data fuel w w' :
  FeedingWorld data w →
  sendBodyFromFile_loop fuel w = Some w' →
  FeedingWorld data w' ∧
  feeder_frame (client w) (client w') ∧
  (egressPaused_ (client w') = false →
     ∃ f, inputFile_ (client w') = Some f ∧ Ifstream.good f = false).
Proof.
  revert w. induction fuel as [|fuel IH]; intros w HF Hrun;
    rewrite sendBodyFromFile_loop_unfold in Hrun;
    pose proof HF as (f & txn & Hf & Ht & HFd); rewrite Hf in Hrun;
    destruct (Ifstream.good f && negb (egressPaused_ (client w))) eqn:Hc;
    try discriminate.
  1, 3: injection Hrun as <-; split; [done|]; split;
    [apply feeder_frame_refl|]; intros Hp; exists f; split; [done|];
    rewrite Hp in Hc; cbn in Hc; by rewrite andb_true_r in Hc.
  apply andb_true_iff in Hc as [Hg Hp]. apply negb_true_iff in Hp.
  rewrite Hp in HFd. pose proof (Feeding_body data f _ HFd Hg) as HFb.
  destruct (read_chunk f) as [buf f'] eqn:Hrc. cbn [fst snd] in *.
  destruct (txn_sendBody_spec buf (on_client (set_inputFile (Some f')) w) txn)
    as (w1 & txn1 & Hsb & Ht1 & _ & Hf1 & Hfr1 & Hh1); [by destruct w|].
  rewrite Hsb in Hrun.
  assert (HF1 : FeedingWorld data w1).
  { exists f', txn1. split; [by rewrite Hf1; destruct w|]. split; [done|].
    cbv zeta in Hh1.
    destruct (HTTPTransaction.egress_full txn _); destruct Hh1 as [-> Hp1].
    - rewrite Hp1.
      by apply (Feeding_flow data f' _ false HTTPTransaction.EgressPaused);
        [left|].
    - rewrite Hp1. destruct w as [c out]. cbn in *. by rewrite Hp. }
  destruct (IH w1 HF1 Hrun) as (HF' & Hfr' & Hend).
  split; [done|]. split; [|done].
  eapply feeder_frame_trans; [|exact Hfr'].
  eapply feeder_frame_trans; [|exact Hfr1].
  destruct w as [c out]. by destruct c.
Qed.

(** Whatever the state of the source, the loop only extends the history of
    the transaction it was given. *)
Lemma sendBodyFromFile_loop_extends fuel w w' txn :
  txn_ (client w) = Some txn →
  sendBodyFromFile_loop fuel w = Some w' →
  ∃ txn' ext,
    txn_ (client w') = Some txn' ∧
    HTTPTransaction.history txn' = HTTPTransaction.history txn ++ ext ∧
    HTTPTransaction.egress_full txn' = HTTPTransaction.egress_full txn ∧
    is_Some (inputFile_ (client w')) ∧
    feeder_frame (client w) (client w').
Proof.
  revert w txn. induction fuel as [|fuel IH]; intros w txn Ht Hrun;
    rewrite sendBodyFromFile_loop_unfold in Hrun;
    destruct (inputFile_ (client w)) as [f|] eqn:Hf; try discriminate;
    destruct (Ifstream.good f && negb (egressPaused_ (client w))) eqn:Hc;
    try discriminate.
  1, 3: injection Hrun as <-; exists txn, []; rewrite app_nil_r, Hf;
    repeat split; [done|by eexists|apply feeder_frame_refl].
  destruct (txn_sendBody_spec (read_chunk f).1
              (on_client (set_inputFile (Some (read_chunk f).2)) w) txn)
    as (w1 & txn1 & Hsb & Ht1 & Hpol & Hf1 & Hfr1 & Hh1); [by destruct w|].
  rewrite Hsb in Hrun.
  destruct (IH w1 txn1 Ht1 Hrun) as (txn' & ext & Ht' & Hh' & Hpol' & Hf' & Hfr').
  cbv zeta in Hh1.
  assert (∃ e1, HTTPTransaction.history txn1
                = HTTPTransaction.history txn ++ e1) as [e1 He1].
  { destruct (HTTPTransaction.egress_full txn _); destruct Hh1 as [-> _];
      rewrite <- ?app_assoc; by eexists. }
  exists txn', (e1 ++ ext). split; [done|].
  split; [by rewrite Hh', He1, app_assoc|].
  split; [congruence|]. split; [done|].
  eapply feeder_frame_trans; [|exact Hfr'].
  eapply feeder_frame_trans; [|exact Hfr1].
  destruct w as [c out]. by destruct c.
Qed.

(** [sendBodyFromFile] returns whenever [inputFile_] and [txn_] are set. *)
Lemma sendBodyFromFile_extends w f txn :
  inputFile_ (client w) = Some f →
  txn_ (client w) = Some txn →
  ∃ w' txn' ext,
    sendBodyFromFile w = Some w' ∧
    txn_ (client w') = Some txn' ∧
    HTTPTransaction.history txn' = HTTPTransaction.history txn ++ ext ∧
    is_Some (inputFile_ (client w')) ∧
    feeder_frame (client w) (client w').
Proof.
  intros Hf Ht. unfold sendBodyFromFile. rewrite Hf. cbn [mbind option_bind].
  destruct (sendBodyFromFile_loop_total (S (length (Ifstream.unread f))) w f txn)
    as [w1 Hrun]; [done|done|lia|].
  rewrite Hrun. cbn [mbind option_bind].
  destruct (sendBodyFromFile_loop_extends _ _ _ _ Ht Hrun)
    as (txn1 & ext & Ht1 & Hh1 & _ & Hf1 & Hfr1).
  destruct (egressPaused_ (client w1)) eqn:Hp; cbn [negb].
  - exists w1, txn1, ext. done.
  - unfold txn_sendEOM. rewrite Ht1. cbn [mbind option_bind].
    eexists _, _, (ext ++ [HTTPTransaction.SendEOM]).
    split; [done|]. destruct w1 as [c1 out1]. cbn [client on_client] in *.
    split; [by destruct c1|]. split; [by cbn; rewrite Hh1, app_assoc|].
    split; [by destruct c1|].
    eapply feeder_frame_trans; [exact Hfr1|]. by destruct c1.
Qed.

(** Fed an opened source, [sendBodyFromFile] returns with the feeder
    settled: paused, or done. *)
Lemma sendBodyFromFile_settles data w :
  FeedingWorld data w →
  ∃ w', sendBodyFromFile w = Some w' ∧ Settled data w' ∧
        feeder_frame (client w) (client w').
Proof.
  intros HF. pose proof HF as (f & txn & Hf & Ht & _).
  unfold sendBodyFromFile. rewrite Hf. cbn [mbind option_bind].
  destruct (sendBodyFromFile_loop_total (S (length (Ifstream.unread f))) w f txn)
    as [w1 Hrun]; [done|done|lia|].
  rewrite Hrun. cbn [mbind option_bind].
  destruct (sendBodyFromFile_loop_keeps data _ _ _ HF Hrun)
    as (HF1 & Hfr1 & Hend).
  destruct (egressPaused_ (client w1)) eqn:Hp; cbn [negb].
  - exists w1. split; [done|]. split; [|done]. split; [done|].
    rewrite Hp. done.
  - destruct (Hend eq_refl) as (f1 & Hf1 & Hg1).
    destruct HF1 as (f1' & txn1 & Hf1' & Ht1 & HFd).
    assert (f1' = f1) as -> by congruence.
    unfold txn_sendEOM. rewrite Ht1. cbn [mbind option_bind].
    eexists. split; [done|]. destruct w1 as [c1 out1].
    cbn [client on_client] in *. rewrite Hp in HFd.
    split; [split|].
    + exists f1, (HTTPTransaction.sendEOM txn1).
      split; [by destruct c1|]. split; [by destruct c1|].
      replace (egressPaused_ _) with false by (by destruct c1).
      by apply Feeding_eom.
    + intros _. unfold txn_history.
      replace (txn_ _) with (Some (HTTPTransaction.sendEOM txn1))
        by (by destruct c1).
      apply elem_of_app. right. by apply list_elem_of_singleton.
    + eapply feeder_frame_trans; [exact Hfr1|]. by destruct c1.
Qed.

(** ** [sendRequest] *)

(** [sendRequest] sends the request it has built on the transaction it was
    given, then feeds the body or ends the message. *)
Lemma sendRequest_unfold fs txn w :
  ∃ out1,
    sendRequest fs txn w =
    let c1 := set_txn (Some (HTTPTransaction.sendHeaders
                               (sent_request (client w)) txn))
                (set_request (sent_request (client w)) (client w)) in
    if HTTPMethod_eqb (httpMethod_ (client w)) POST
    then sendBodyFromFile
           (mkWorld
              (set_inputFile
                 (Some (Ifstream.open fs (inputFilename_ (client w)))) c1)
              out1)
    else txn_sendEOM (mkWorld c1 out1).
Proof.
  destruct w as [c out]. unfold sendRequest, sent_request. cbn [client output].
  destruct c as [? ? ? ? ? ? ? ? lg ? ? ? ? ? pr ? ?].
  destruct lg, pr; cbn -[build_request sendBodyFromFile]; eexists; reflexivity.
Qed.

Lemma sendRequest_settles data fs policy w :
  httpMethod_ (client w) = POST →
  fs (inputFilename_ (client w)) = Some data →
  ∃ w', sendRequest fs (HTTPTransaction.new policy) w = Some w' ∧
        Settled data w'.
Proof.
  intros Hm Hfs. destruct (sendRequest_unfold fs (HTTPTransaction.new policy) w)
    as [out1 ->]. cbv zeta. rewrite Hm. cbn [HTTPMethod_eqb].
  unfold Ifstream.open. rewrite Hfs.
  match goal with |- ∃ w', sendBodyFromFile ?w1 = _ ∧ _ =>
    destruct (sendBodyFromFile_settles data w1) as (w' & Hs & Hset & _)
  end; [|by exists w'].
  eexists _, _. split; [reflexivity|]. split; [reflexivity|].
  apply Feeding_start.
Qed.

(** ** Callbacks *)

Lemma Settled_core data w w' :
  feeder_core w' = feeder_core w → Settled data w → Settled data w'.
Proof.
  unfold feeder_core, Settled, FeedingWorld, txn_history.
  intros [= -> -> ->]. done.
Qed.

Ltac crush_handler :=
  repeat match goal with
  | H : Some _ = Some _ |- _ => injection H as <-
  | H : None = Some _ |- _ => discriminate H
  | H : context [LOG_IF_logging] |- _ => unfold LOG_IF_logging in H
  | |- context [LOG_IF_logging] => unfold LOG_IF_logging
  | H : context [if ?b then _ else _] |- _ => destruct b eqn:?
  | |- context [if ?b then _ else _] => destruct b eqn:?
  | H : context [match ?o with Some _ => _ | None => _ end] |- _ =>
      destruct o eqn:?
  | H : context [mbind _ ?o] |- _ => destruct o eqn:?; cbn [mbind option_bind] in H
  end.

(** No callback but [onEgressPaused] and [onEgressResumed] touches the
    transaction, the source or the paused flag; none touches the members
    set at construction. *)
Lemma deliver_other e w w' :
  e ≠ EgressPaused → e ≠ EgressResumed →
  deliver e w = Some w' →
  feeder_core w' = feeder_core w.
Proof.
  intros Hp Hr H. destruct w as [c out].
  destruct e as [| | | | | | | | | | |i []]; try done;
    cbn [deliver] in H;
    unfold setTransaction, detachTransaction, onHeadersComplete, onBody,
      onTrailers, onEOM, onUpgrade, onError, onPushedTransaction,
      printMessageImpl, CurlPushHandler.setTransaction,
      CurlPushHandler.detachTransaction, CurlPushHandler.onHeadersComplete,
      CurlPushHandler.onBody, CurlPushHandler.onEOM, CurlPushHandler.onError,
      CurlPushHandler.update, onBody, onError, printMessageImpl in H;
    cbn [client output on_client emit negb] in H;
    crush_handler; by destruct c.
Qed.

Lemma deliver_flow data (e : Event) (i : HTTPTransaction.item) w :
  (e = EgressPaused ∧ i = HTTPTransaction.EgressPaused) ∨
  (e = EgressResumed ∧ i = HTTPTransaction.EgressResumed) →
  Settled data w →
  ∃ w', deliver e w = Some w' ∧ Settled data w' ∧
        feeder_frame (client w) (client w').
Proof.
  intros He [(f & txn & Hf & Ht & HFd) _]. destruct w as [c out].
  cbn [client] in *.
  destruct He as [[-> ->]|[-> ->]]; cbn [deliver]; unfold txn_record;
    cbn [client]; rewrite Ht.
  - eexists. split; [done|]. unfold onEgressPaused, LOG_IF_logging.
    cbn [client on_client]. split.
    + split.
      * exists f, (HTTPTransaction.record HTTPTransaction.EgressPaused txn).
        split; [by destruct c as [? ? ? ? ? ? ? ? []]|].
        split; [by destruct c as [? ? ? ? ? ? ? ? []]|].
        replace (egressPaused_ _) with true
          by (by destruct c as [? ? ? ? ? ? ? ? []]).
        by apply (Feeding_flow data f _ (egressPaused_ c)
                    HTTPTransaction.EgressPaused); [left|].
      * intros Hp. by destruct c as [? ? ? ? ? ? ? ? []].
    + by destruct c as [? ? ? ? ? ? ? ? []].
  - unfold onEgressResumed.
    match goal with |- context [on_client (set_egressPaused false) ?w0] =>
      set (w1 := on_client (set_egressPaused false) w0) end.
    assert (HF1 : FeedingWorld data w1).
    { exists f, (HTTPTransaction.record HTTPTransaction.EgressResumed txn).
      subst w1. unfold LOG_IF_logging. cbn [client on_client].
      split; [by destruct c as [? ? ? ? ? ? ? ? []]|].
      split; [by destruct c as [? ? ? ? ? ? ? ? []]|].
      replace (egressPaused_ _) with false
        by (by destruct c as [? ? ? ? ? ? ? ? []]).
      by apply (Feeding_flow data f _ (egressPaused_ c)
                  HTTPTransaction.EgressResumed); [right|]. }
    destruct (sendBodyFromFile_settles data w1 HF1) as (w' & Hs & Hset & Hfr).
    destruct HF1 as (f1 & _ & -> & _). exists w'. split; [done|].
    split; [done|]. eapply feeder_frame_trans; [|exact Hfr].
    subst w1. unfold LOG_IF_logging. cbn [client on_client].
    by destruct c as [? ? ? ? ? ? ? ? []].
Qed.

Lemma deliver_settles data e w :
  Settled data w →
  (∀ w', deliver e w = Some w' → Settled data w') ∧
  (always_returns e = true → is_Some (deliver e w)).
Proof.
  intros HS.
  assert (Hflow : ∀ i,
    (e = EgressPaused ∧ i = HTTPTransaction.EgressPaused) ∨
    (e = EgressResumed ∧ i = HTTPTransaction.EgressResumed) →
    (∀ w', deliver e w = Some w' → Settled data w') ∧ is_Some (deliver e w)).
  { intros i Hi. destruct (deliver_flow data e i w Hi HS) as (w1 & H1 & HS1 & _).
    split; [intros w' H; congruence|by eexists]. }
  assert (Hother : e ≠ EgressPaused → e ≠ EgressResumed →
    ∀ w', deliver e w = Some w' → Settled data w').
  { intros Hp Hr w' H. eapply Settled_core; [|exact HS].
    by eapply deliver_other. }
  destruct e;
    try (split; [by apply Hother|]; intros Ha; try done; by eexists).
  - destruct (Hflow HTTPTransaction.EgressPaused) as [H1 H2]; [by left|done].
  - destruct (Hflow HTTPTransaction.EgressResumed) as [H1 H2]; [by right|done].
Qed.

Lemma run_settles data events w :
  Settled data w →
  (∀ w', run events w = Some w' → Settled data w') ∧
  (forallb always_returns events = true → is_Some (run events w)).
Proof.
  revert w. induction events as [|e events IH]; intros w HS.
  - split; [by intros w' [= <-]|by eexists].
  - destruct (deliver_settles data e w HS) as [Hk Ht]. cbn [run forallb]. split.
    + intros w' H. destruct (deliver e w) as [w1|]; [|done].
      cbn [mbind option_bind] in H. by eapply (IH w1); [apply Hk|].
    + intros Ha. apply andb_true_iff in Ha as [Ha1 Ha2].
      destruct (Ht Ha1) as [w1 H1]. rewrite H1. cbn [mbind option_bind].
      by eapply (IH w1); [apply Hk|].
Qed.

Lemma exchange_settles data fs policy events w :
  httpMethod_ (client w) = POST →
  fs (inputFilename_ (client w)) = Some data →
  (∀ w', exchange fs policy events w = Some w' → Settled data w') ∧
  (forallb always_returns events = true →
     is_Some (exchange fs policy events w)).
Proof.
  intros Hm Hfs. unfold exchange.
  destruct (sendRequest_settles data fs policy w Hm Hfs) as (w1 & -> & HS1).
  cbn [mbind option_bind]. by apply run_settles.
Qed.

(** ** The feeder answers every resume *)

Lemma paused_after_app p h1 h2 :
  paused_after p (h1 ++ h2) = paused_after (paused_after p h1) h2.
Proof. unfold paused_after. by rewrite foldl_app. Qed.

Lemma split_at_item {A} (x : A) (l1 l2 h ext : list A) :
  l1 ++ x :: l2 = h ++ ext → x ∉ ext →
  ∃ l2', h = l1 ++ x :: l2' ∧ l2 = l2' ++ ext.
Proof.
  intros Heq Hno. apply app_eq_inv in Heq as [(k & -> & Hk)|(k & -> & Hk)].
  - exfalso. apply Hno. rewrite Hk. apply elem_of_app. right. by left.
  - destruct k as [|y k].
    + exfalso. apply Hno. cbn in Hk. rewrite <- Hk. by left.
    + injection Hk as <- ->. by exists k.
Qed.

Lemma resumed_sends_app data h ext :
  resumed_sends data h → HTTPTransaction.EgressResumed ∉ ext →
  resumed_sends data (h ++ ext).
Proof.
  intros Hh Hno l1 l2 Heq. symmetry in Heq.
  destruct (split_at_item _ _ _ _ _ Heq Hno) as (l2' & -> & ->).
  destruct (Hh l1 l2' eq_refl) as (i & l3 & -> & Hi & Hb).
  by exists i, (l3 ++ ext).
Qed.

Lemma resumed_sends_resume data h i ext :
  resumed_sends data h →
  HTTPTransaction.EgressResumed ∉ i :: ext →
  is_send i = true →
  (length (sent_bytes h) < length data →
   ∃ b, i = HTTPTransaction.SendBody b ∧
        IOBuf.data b = take kReadSize (drop (length (sent_bytes h)) data) ∧
        IOBuf.data b ≠ []) →
  resumed_sends data (h ++ HTTPTransaction.EgressResumed :: i :: ext).
Proof.
  intros Hh Hno Hi Hb l1 l2 Heq. symmetry in Heq.
  change (l1 ++ HTTPTransaction.EgressResumed :: l2
          = h ++ [HTTPTransaction.EgressResumed] ++ i :: ext) in Heq.
  rewrite app_assoc in Heq.
  destruct (split_at_item _ _ _ _ _ Heq Hno) as (l2' & Hsplit & ->).
  destruct l2' as [|y l2'] using rev_ind.
  - apply app_inj_tail in Hsplit as [-> _]. by exists i, ext.
  - clear IHl2'.
    change (h ++ [HTTPTransaction.EgressResumed]
            = l1 ++ [HTTPTransaction.EgressResumed] ++ l2' ++ [y]) in Hsplit.
    rewrite !app_assoc in Hsplit. apply app_inj_tail in Hsplit as [-> <-].
    rewrite <- app_assoc in Hh.
    destruct (Hh l1 l2' eq_refl) as (j & l3 & -> & Hj & Hbj).
    by exists j, ((l3 ++ [HTTPTransaction.EgressResumed]) ++ i :: ext).
Qed.

Lemma sendBodyFromFile_loop_trace fuel w w' f txn :
  inputFile_ (client w) = Some f →
  txn_ (client w) = Some txn →
  sendBodyFromFile_loop fuel w = Some w' →
  ∃ txn' ext,
    txn_ (client w') = Some txn' ∧
    HTTPTransaction.history txn' = HTTPTransaction.history txn ++ ext ∧
    (HTTPTransaction.EgressResumed ∉ ext) ∧
    (HTTPTransaction.SendEOM ∉ ext) ∧
    egressPaused_ (client w') = paused_after (egressPaused_ (client w)) ext ∧
    if Ifstream.good f && negb (egressPaused_ (client w))
    then ∃ ext', ext = HTTPTransaction.SendBody (read_chunk f).1 :: ext'
    else ext = [].
Proof.
  revert w f txn. induction fuel as [|fuel IH]; intros w f txn Hf Ht Hrun;
    rewrite sendBodyFromFile_loop_unfold, Hf in Hrun;
    destruct (Ifstream.good f && negb (egressPaused_ (client w))) eqn:Hc;
    try discriminate.
  1, 3: injection Hrun as <-; exists txn, []; rewrite app_nil_r;
    repeat split; try done; by apply not_elem_of_nil.
  apply andb_true_iff in Hc as [Hg Hp]. apply negb_true_iff in Hp.
  destruct (txn_sendBody_spec (read_chunk f).1
              (on_client (set_inputFile (Some (read_chunk f).2)) w) txn)
    as (w1 & txn1 & Hsb & Ht1 & Hpol & Hf1 & Hfr1 & Hh1); [by destruct w|].
  rewrite Hsb in Hrun.
  assert (Hf1' : inputFile_ (client w1) = Some (read_chunk f).2).
  { rewrite Hf1. by destruct w as [[] ?]. }
  destruct (IH w1 _ txn1 Hf1' Ht1 Hrun)
    as (txn' & ext & Ht' & Hh' & Hno & Hnoe & Hfl & _).
  cbv zeta in Hh1.
  assert (Hp0 : egressPaused_
                  (client (on_client (set_inputFile (Some (read_chunk f).2)) w))
                = false).
  { destruct w as [[] ?]. exact Hp. }
  destruct (HTTPTransaction.egress_full txn _).
  - destruct Hh1 as [Hh1 Hp1].
    exists txn', (HTTPTransaction.SendBody (read_chunk f).1
                  :: HTTPTransaction.EgressPaused :: ext).
    split; [done|]. split; [by rewrite Hh', Hh1, <- !app_assoc|].
    split; [by rewrite !not_elem_of_cons|].
    split; [by rewrite !not_elem_of_cons|].
    split; [|by eexists]. rewrite Hfl, Hp1, Hp. done.
  - destruct Hh1 as [Hh1 Hp1].
    exists txn', (HTTPTransaction.SendBody (read_chunk f).1 :: ext).
    split; [done|]. split; [by rewrite Hh', Hh1, <- !app_assoc|].
    split; [by rewrite !not_elem_of_cons|].
    split; [by rewrite !not_elem_of_cons|].
    split; [|by eexists]. rewrite Hfl, Hp1, Hp0, Hp. done.
Qed.

(** What one call of [sendBodyFromFile] adds to the history: nothing when
    egress is paused; otherwise it starts with a buffer read from the
    stream, or is the one [sendEOM] when the stream is no longer good. *)
Lemma sendBodyFromFile_trace w f txn :
  inputFile_ (client w) = Some f →
  txn_ (client w) = Some txn →
  ∃ w' txn' ext,
    sendBodyFromFile w = Some w' ∧
    txn_ (client w') = Some txn' ∧
    HTTPTransaction.history txn' = HTTPTransaction.history txn ++ ext ∧
    (HTTPTransaction.EgressResumed ∉ ext) ∧
    egressPaused_ (client w') = paused_after (egressPaused_ (client w)) ext ∧
    (egressPaused_ (client w) = false →
     ∃ ext',
       ext = (if Ifstream.good f
              then HTTPTransaction.SendBody (read_chunk f).1
              else HTTPTransaction.SendEOM) :: ext').
Proof.
  intros Hf Ht. unfold sendBodyFromFile. rewrite Hf. cbn [mbind option_bind].
  destruct (sendBodyFromFile_loop_total (S (length (Ifstream.unread f))) w f txn)
    as [w1 Hrun]; [done|done|lia|].
  rewrite Hrun. cbn [mbind option_bind].
  destruct (sendBodyFromFile_loop_trace _ _ _ _ _ Hf Ht Hrun)
    as (txn1 & ext & Ht1 & Hh1 & Hno & _ & Hfl & Hfirst).
  destruct (egressPaused_ (client w1)) eqn:Hp1; cbn [negb].
  - exists w1, txn1, ext. split; [done|]. split; [done|]. split; [done|].
    split; [done|]. split; [by rewrite Hp1|].
    intros Hp. rewrite Hp, andb_true_r in Hfirst.
    destruct (Ifstream.good f); [done|].
    subst ext. cbn in Hfl. congruence.
  - unfold txn_sendEOM. rewrite Ht1. cbn [mbind option_bind].
    eexists _, _, (ext ++ [HTTPTransaction.SendEOM]).
    split; [done|]. destruct w1 as [c1 out1]. cbn [client on_client] in *.
    split; [by destruct c1|].
    split; [by cbn; rewrite Hh1, app_assoc|].
    split.
    { intros Hin. apply elem_of_app in Hin as [Hin|Hin]; [done|].
      by apply list_elem_of_singleton in Hin. }
    split.
    { rewrite paused_after_snoc, <- Hfl. cbn.
      replace (egressPaused_ _) with (egressPaused_ c1) by (by destruct c1).
      by rewrite Hp1. }
    intros Hp. rewrite Hp, andb_true_r in Hfirst.
    destruct (Ifstream.good f).
    + destruct Hfirst as [ext' ->]. by eexists.
    + subst ext. by eexists.
Qed.

Lemma sendRequest_tracked data fs policy w :
  httpMethod_ (client w) = POST →
  ∃ w', sendRequest fs (HTTPTransaction.new policy) w = Some w' ∧
        Tracked data (egressPaused_ (client w)) w'.
Proof.
  intros Hm. destruct (sendRequest_unfold fs (HTTPTransaction.new policy) w)
    as [out1 ->]. cbv zeta. rewrite Hm. cbn [HTTPMethod_eqb].
  match goal with |- ∃ w', sendBodyFromFile ?w1 = _ ∧ _ =>
    destruct (sendBodyFromFile_trace w1
                (Ifstream.open fs (inputFilename_ (client w)))
                (HTTPTransaction.sendHeaders (sent_request (client w))
                   (HTTPTransaction.new policy)))
      as (w' & txn' & ext & Hs & Ht' & Hh & Hno & Hfl & _)
  end; [done|done|].
  exists w'. split; [done|]. unfold Tracked, txn_history. rewrite Ht', Hh.
  split.
  - rewrite Hfl. cbn [client]. by destruct (client w).
  - intros l1 l2 Heq. exfalso.
    assert (Hin : HTTPTransaction.EgressResumed
                  ∈ HTTPTransaction.history
                      (HTTPTransaction.sendHeaders (sent_request (client w))
                         (HTTPTransaction.new policy)) ++ ext).
    { rewrite Heq. apply elem_of_app. right. by left. }
    apply elem_of_app in Hin as [Hin|Hin]; [|done].
    cbn in Hin. by apply list_elem_of_singleton in Hin.
Qed.

Lemma deliver_tracked data p0 e w w' :
  Settled data w → Tracked data p0 w →
  deliver e w = Some w' →
  Tracked data p0 w'.
Proof.
  intros [(f & txn & Hf & Ht & HFd) _] [Hfl Hres] H.
  assert (Hh : txn_history w = HTTPTransaction.history txn).
  { unfold txn_history. by rewrite Ht. }
  rewrite Hh in Hfl, Hres.
  assert (Hother : e ≠ EgressPaused → e ≠ EgressResumed → Tracked data p0 w').
  { intros Hp Hr. pose proof (deliver_other e w w' Hp Hr H) as Hcore.
    unfold feeder_core in Hcore. injection Hcore as Ht' _ Hp'.
    unfold Tracked, txn_history. by rewrite Ht', Hp', Ht. }
  destruct e; try (by apply Hother).
  - clear Hother. cbn [deliver] in H. injection H as <-.
    unfold Tracked, txn_history, txn_record, onEgressPaused, LOG_IF_logging.
    rewrite Ht. destruct w as [c out]. cbn [client on_client] in *.
    replace (txn_ _)
      with (Some (HTTPTransaction.record HTTPTransaction.EgressPaused txn))
      by (by destruct c as [? ? ? ? ? ? ? ? []]).
    replace (egressPaused_ _) with true
      by (by destruct c as [? ? ? ? ? ? ? ? []]).
    cbn [HTTPTransaction.history HTTPTransaction.record]. split.
    + by rewrite paused_after_snoc.
    + apply resumed_sends_app; [done|].
      intros Hin. by apply list_elem_of_singleton in Hin.
  - clear Hother. cbn [deliver] in H. unfold onEgressResumed, txn_record in H.
    rewrite Ht in H.
    match type of H with context [on_client (set_egressPaused false) ?x] =>
      set (w1 := on_client (set_egressPaused false) x) in H end.
    assert (Hf1 : inputFile_ (client w1) = Some f).
    { subst w1. unfold LOG_IF_logging. destruct w as [c out].
      cbn [client on_client] in *. by destruct c as [? ? ? ? ? ? ? ? []]. }
    assert (Ht1 : txn_ (client w1)
                  = Some (HTTPTransaction.record
                            HTTPTransaction.EgressResumed txn)).
    { subst w1. unfold LOG_IF_logging. destruct w as [c out].
      cbn [client on_client] in *. by destruct c as [? ? ? ? ? ? ? ? []]. }
    assert (Hp1 : egressPaused_ (client w1) = false).
    { subst w1. unfold LOG_IF_logging. destruct w as [c out].
      cbn [client on_client] in *. by destruct c as [? ? ? ? ? ? ? ? []]. }
    rewrite Hf1 in H.
    destruct (sendBodyFromFile_trace w1 f _ Hf1 Ht1)
      as (w2 & txn' & ext & Hs & Ht' & Hh' & Hno & Hfl' & Hfirst).
    assert (w2 = w') as -> by congruence.
    destruct (Hfirst Hp1) as [ext' Hext].
    unfold Tracked, txn_history. rewrite Ht', Hh'.
    cbn [HTTPTransaction.history HTTPTransaction.record].
    rewrite <- app_assoc. cbn [app]. split.
    + rewrite Hfl', Hp1.
      change (HTTPTransaction.EgressResumed :: ext)
        with ([HTTPTransaction.EgressResumed] ++ ext).
      by rewrite app_assoc, paused_after_app, paused_after_snoc.
    + rewrite Hext. apply resumed_sends_resume; [done|by rewrite <- Hext|..].
      * by destruct (Ifstream.good f).
      * destruct HFd as [Hc Hb Hpos Hd Hsent _ _ _ _ _].
        rewrite Hsent, length_take, Nat.min_l by done. intros Hlt.
        destruct (Ifstream.good f) eqn:Hg; [|specialize (Hd eq_refl); lia].
        destruct (read_chunk_good f Hg) as (Hdat & _).
        eexists. split; [done|]. unfold Ifstream.unread in Hdat.
        rewrite Hc in Hdat. split; [done|]. rewrite Hdat.
        intros Hnil. apply (f_equal length) in Hnil.
        rewrite length_take, length_drop in Hnil.
        pose proof kReadSize_pos. cbn [length] in Hnil. lia.
Qed.

Lemma run_tracked data p0 events w w' :
  Settled data w → Tracked data p0 w →
  run events w = Some w' →
  Tracked data p0 w'.
Proof.
  revert w. induction events as [|e events IH]; intros w HS HT H.
  - by injection H as <-.
  - cbn [run] in H. destruct (deliver e w) as [w1|] eqn:Hd; [|done].
    cbn [mbind option_bind] in H.
    eapply (IH w1); [|by eapply deliver_tracked|done].
    by eapply deliver_settles.
Qed.

Lemma exchange_tracked data fs policy events w w' :
  httpMethod_ (client w) = POST →
  fs (inputFilename_ (client w)) = Some data →
  exchange fs policy events w = Some w' →
  Tracked data (egressPaused_ (client w)) w'.
Proof.
  intros Hm Hfs. unfold exchange.
  destruct (sendRequest_settles data fs policy w Hm Hfs) as (w1 & Hs & HS1).
  destruct (sendRequest_tracked data fs policy w Hm) as (w1' & Hs' & HT1).
  assert (w1' = w1) as -> by congruence.
  rewrite Hs. cbn [mbind option_bind]. by apply run_tracked.
Qed.

(** ** Pausing and resuming the feeder *)

(** C1.  In every POST exchange whose body source could be opened, whatever
    the transport's flow-control policy and whatever callbacks it delivers:
    the exchange runs through (the feeder never aborts); the driver makes no
    [sendBody] and no [sendEOM] call between an [onEgressPaused] and the
    next [onEgressResumed]; every buffer sent holds the bytes of the source
    at the offset where the buffers sent before it end; the bytes sent so
    far are the source up to the read cursor of the stream; and once the end
    of the message has been sent, which it has whenever the driver is left
    unpaused, the bytes sent are the source, none duplicated, skipped or
    reordered.  The paused flag is the one the flow-control callbacks leave:
    set after an [onEgressPaused], cleared after an [onEgressResumed].  And
    the feeder resumes: every [onEgressResumed] is answered at once by a
    send, which, while bytes of the source are unsent, is a [sendBody] of
    the bytes, at least one, found at the offset where it stopped. *)
Theorem pause_resume_feeds_source_in_order
    (data : list byte) (fs : Ifstream.filesystem)
    (policy : list HTTPTransaction.item → bool) (events : list Event)
    (w : World) :
  httpMethod_ (client w) = POST →
  fs (inputFilename_ (client w)) = Some data →
  (forallb always_returns events = true →
     is_Some (exchange fs policy events w)) ∧
  ∀ w', exchange fs policy events w = Some w' →
    (∀ l1 l2 l3,
       txn_history w' = l1 ++ HTTPTransaction.EgressPaused :: l2 ++ l3 →
       HTTPTransaction.EgressResumed ∉ l2 →
       ∀ i, i ∈ l2 → is_send i = false) ∧
    (∀ l1 b l2,
       txn_history w' = l1 ++ HTTPTransaction.SendBody b :: l2 →
       IOBuf.data b = take kReadSize (drop (length (sent_bytes l1)) data)) ∧
    (∃ f, inputFile_ (client w') = Some f ∧
          sent_bytes (txn_history w') = take (Ifstream.gpos f) data) ∧
    (HTTPTransaction.SendEOM ∈ txn_history w' →
       sent_bytes (txn_history w') = data) ∧
    (egressPaused_ (client w') = false →
       HTTPTransaction.SendEOM ∈ txn_history w') ∧
    egressPaused_ (client w')
    = paused_after (egressPaused_ (client w)) (txn_history w') ∧
    (∀ l1 l2,
       txn_history w' = l1 ++ HTTPTransaction.EgressResumed :: l2 →
       ∃ i l3,
         l2 = i :: l3 ∧ is_send i = true ∧
         (length (sent_bytes l1) < length data →
          ∃ b, i = HTTPTransaction.SendBody b ∧
               IOBuf.data b
               = take kReadSize (drop (length (sent_bytes l1)) data) ∧
               IOBuf.data b ≠ [])).
Proof.
  intros Hm Hfs.
  destruct (exchange_settles data fs policy events w Hm Hfs) as [Hkeep Htot].
  split; [exact Htot|]. intros w' Hrun.
  destruct (exchange_tracked data fs policy events w w' Hm Hfs Hrun)
    as [Hflag Hres].
  destruct (Hkeep w' Hrun) as [(f & txn & Hf & Ht & HFd) Hlive].
  assert (Hh : txn_history w' = HTTPTransaction.history txn).
  { unfold txn_history. by rewrite Ht. }
  rewrite Hh in *.
  destruct HFd as [Hc Hb Hpos Hd Hsent Hch Hfg Hq He H1].
  split; [|split; [|split; [|split; [|split; [|split]]]]].
  - intros l1 l2 l3 Heq Hno. by eapply quiet_spec.
  - done.
  - by exists f.
  - intros Heom. rewrite Hsent, Hd by auto. by apply firstn_all.
  - done.
  - done.
  - exact Hres.
Qed.

Lemma pause_resume_feeds_source_in_order_witness :
  (forallb always_returns [EgressResumed; Trailers; EOM] = true →
     is_Some (exchange (Sample.disk (Sample.body 5000)) Sample.full_once
                [EgressResumed; Trailers; EOM] (Sample.poster false []))) ∧
  ∀ w', exchange (Sample.disk (Sample.body 5000)) Sample.full_once
          [EgressResumed; Trailers; EOM] (Sample.poster false []) = Some w' →
    (∀ l1 l2 l3,
       txn_history w' = l1 ++ HTTPTransaction.EgressPaused :: l2 ++ l3 →
       HTTPTransaction.EgressResumed ∉ l2 →
       ∀ i, i ∈ l2 → is_send i = false) ∧
    (∀ l1 b l2,
       txn_history w' = l1 ++ HTTPTransaction.SendBody b :: l2 →
       IOBuf.data b
       = take kReadSize (drop (length (sent_bytes l1)) (Sample.body 5000))) ∧
    (∃ f, inputFile_ (client w') = Some f ∧
          sent_bytes (txn_history w')
          = take (Ifstream.gpos f) (Sample.body 5000)) ∧
    (HTTPTransaction.SendEOM ∈ txn_history w' →
       sent_bytes (txn_history w') = Sample.body 5000) ∧
    (egressPaused_ (client w') = false →
       HTTPTransaction.SendEOM ∈ txn_history w') ∧
    egressPaused_ (client w')
    = paused_after (egressPaused_ (client (Sample.poster false [])))
        (txn_history w') ∧
    (∀ l1 l2,
       txn_history w' = l1 ++ HTTPTransaction.EgressResumed :: l2 →
       ∃ i l3,
         l2 = i :: l3 ∧ is_send i = true ∧
         (length (sent_bytes l1) < length (Sample.body 5000) →
          ∃ b, i = HTTPTransaction.SendBody b ∧
               IOBuf.data b
               = take kReadSize
                   (drop (length (sent_bytes l1)) (Sample.body 5000)) ∧
               IOBuf.data b ≠ [])).
Proof.
  apply (pause_resume_feeds_source_in_order (Sample.body 5000)
           (Sample.disk (Sample.body 5000)) Sample.full_once
           [EgressResumed; Trailers; EOM] (Sample.poster false []));
    reflexivity.
Defined.

(** ** Running the feeder when egress is never paused *)

(** One pass of the loop that sends a buffer without filling the egress
    buffer. *)
Lemma sendBodyFromFile_loop_pass fuel w f txn :
  inputFile_ (client w) = Some f →
  txn_ (client w) = Some txn →
  Ifstream.good f = true →
  egressPaused_ (client w) = false →
  HTTPTransaction.egress_full txn
    (HTTPTransaction.history txn ++ [HTTPTransaction.SendBody (read_chunk f).1])
    = false →
  ∃ w1,
    sendBodyFromFile_loop (S fuel) w = sendBodyFromFile_loop fuel w1 ∧
    inputFile_ (client w1) = Some (read_chunk f).2 ∧
    txn_ (client w1)
      = Some (HTTPTransaction.record
                (HTTPTransaction.SendBody (read_chunk f).1) txn) ∧
    egressPaused_ (client w1) = false.
Proof.
  intros Hf Ht Hg Hp Hpol.
  rewrite sendBodyFromFile_loop_unfold, Hf, Hg, Hp. cbn [andb negb].
  destruct (txn_sendBody_spec (read_chunk f).1
              (on_client (set_inputFile (Some (read_chunk f).2)) w) txn)
    as (w1 & txn1 & -> & Ht1 & Hpol1 & Hf1 & _ & Hh1); [by destruct w|].
  cbv zeta in Hh1. rewrite Hpol in Hh1. destruct Hh1 as [Hh1 Hp1].
  exists w1. split; [done|]. split; [by rewrite Hf1; destruct w|].
  split.
  - rewrite Ht1. f_equal. destruct txn1 as [h1 p1], txn as [h0 p0].
    cbn in *. by subst.
  - rewrite Hp1. by destruct w.
Qed.

(** The loop stops, whatever fuel is left, once the stream is not good. *)
Lemma sendBodyFromFile_loop_stop fuel w f :
  inputFile_ (client w) = Some f →
  Ifstream.good f = false →
  sendBodyFromFile_loop fuel w = Some w.
Proof.
  intros Hf Hg. by rewrite sendBodyFromFile_loop_unfold, Hf, Hg.
Qed.

Lemma sendBodyFromFile_unfold w f :
  inputFile_ (client w) = Some f →
  sendBodyFromFile w =
  match sendBodyFromFile_loop (S (length (Ifstream.unread f))) w with
  | Some w => if negb (egressPaused_ (client w)) then txn_sendEOM w else Some w
  | None => None
  end.
Proof. intros Hf. unfold sendBodyFromFile. by rewrite Hf. Qed.

Lemma txn_sendEOM_history w txn :
  txn_ (client w) = Some txn →
  ∃ w', txn_sendEOM w = Some w' ∧
        txn_history w'
        = HTTPTransaction.history txn ++ [HTTPTransaction.SendEOM] ∧
        feeder_frame (client w) (client w').
Proof.
  intros Ht. unfold txn_sendEOM. rewrite Ht. eexists. split; [done|].
  unfold txn_history. destruct w as [c out]. split; [done|]. by destruct c.
Qed.

(** A short read: the stream is left at the end of the file, not good. *)
Lemma read_chunk_short f :
  Ifstream.good f = true →
  length (Ifstream.unread f) < kReadSize →
  IOBuf.data (read_chunk f).1 = Ifstream.unread f ∧
  Ifstream.good (read_chunk f).2 = false.
Proof.
  intros Hg Hlt. destruct (read_chunk_good f Hg) as (Hd & _ & _ & _ & Hgood).
  rewrite Hd, Hgood. rewrite take_ge by lia. split; [done|].
  apply negb_false_iff, bool_decide_eq_true. done.
Qed.

(** A full read: [kReadSize] bytes, and the stream stays good. *)
Lemma read_chunk_full f :
  Ifstream.good f = true →
  kReadSize ≤ length (Ifstream.unread f) →
  IOBuf.data (read_chunk f).1 = take kReadSize (Ifstream.unread f) ∧
  length (IOBuf.data (read_chunk f).1) = kReadSize ∧
  Ifstream.good (read_chunk f).2 = true ∧
  Ifstream.unread (read_chunk f).2 = drop kReadSize (Ifstream.unread f).
Proof.
  intros Hg Hle.
  destruct (read_chunk_good f Hg) as (Hd & Hcon & Hpos & _ & Hgood).
  rewrite Hd, Hgood. rewrite length_take.
  split; [done|]. split; [lia|]. split.
  - apply negb_true_iff, bool_decide_eq_false. lia.
  - unfold Ifstream.unread in *. rewrite Hcon, Hpos, length_take.
    rewrite Nat.min_l by done. by rewrite drop_drop.
Qed.

Lemma read_length n f : length (Ifstream.read n f).1 ≤ n.
Proof.
  unfold Ifstream.read. destruct (Ifstream.good f); cbn [fst].
  - rewrite length_take. lia.
  - cbn. lia.
Qed.

(** The buffer keeps the capacity it was created with. *)
Lemma read_chunk_storage f :
  length (IOBuf.storage (read_chunk f).1) = kReadSize.
Proof.
  unfold read_chunk. pose proof (read_length kReadSize f) as Hle.
  destruct (Ifstream.read kReadSize f) as [stored f']. cbn [fst] in *.
  cbn [fst IOBuf.append IOBuf.write_at_tail IOBuf.createCombined
       IOBuf.storage IOBuf.len].
  rewrite take_0. cbn [app].
  rewrite length_app, length_drop, length_replicate. lia.
Qed.

(** C3.  A POST of a body source of exactly 10000 bytes, with egress never
    paused: [sendRequest] returns, and after [sendHeaders] the feeder makes
    exactly three [sendBody] calls, with buffers of 4096, 4096 and 1808
    bytes that are the source cut in that order, then one [sendEOM].  A
    buffer always holds the bytes the read stored, as many as [gcount]
    reports: the third one holds 1808 bytes in a storage of 4096. *)
Theorem post_10000_bytes_in_three_buffers
    (data : list byte) (fs : Ifstream.filesystem)
    (policy : list HTTPTransaction.item → bool) (w : World) :
  httpMethod_ (client w) = POST →
  fs (inputFilename_ (client w)) = Some data →
  Z.of_nat (length data) = 10000%Z →
  egressPaused_ (client w) = false →
  (∀ h, policy h = false) →
  ∃ w' msg b1 b2 b3,
    sendRequest fs (HTTPTransaction.new policy) w = Some w' ∧
    txn_history w'
    = [HTTPTransaction.SendHeaders msg; HTTPTransaction.SendBody b1;
       HTTPTransaction.SendBody b2; HTTPTransaction.SendBody b3;
       HTTPTransaction.SendEOM] ∧
    Z.of_nat ∘ IOBuf.length <$> [b1; b2; b3] = [4096; 4096; 1808]%Z ∧
    IOBuf.data b1 = take kReadSize data ∧
    IOBuf.data b2 = take kReadSize (drop kReadSize data) ∧
    IOBuf.data b3 = drop kReadSize (drop kReadSize data) ∧
    length (IOBuf.storage b3) = kReadSize ∧
    ∀ f, IOBuf.data (read_chunk f).1 = (Ifstream.read kReadSize f).1 ∧
         IOBuf.length (read_chunk f).1
         = Ifstream.gcount (Ifstream.read kReadSize f).2.
Proof.
  intros Hm Hfs Hlen Hp Hpol.
  destruct (sendRequest_unfold fs (HTTPTransaction.new policy) w) as [out1 ->].
  cbv zeta. rewrite Hm. cbn [HTTPMethod_eqb].
  unfold Ifstream.open. rewrite Hfs.
  set (f0 := Ifstream.mk data 0 false false false 0).
  set (msg := sent_request (client w)).
  set (txn0 := HTTPTransaction.sendHeaders msg (HTTPTransaction.new policy)).
  match goal with |- context [sendBodyFromFile ?x] => set (w0 := x) end.
  assert (Hf0 : inputFile_ (client w0) = Some f0) by reflexivity.
  assert (Ht0 : txn_ (client w0) = Some txn0) by reflexivity.
  assert (Hp0 : egressPaused_ (client w0) = false)
    by (rewrite <- Hp; reflexivity).
  assert (Hu0 : Ifstream.unread f0 = data) by reflexivity.
  rewrite (sendBodyFromFile_unfold w0 f0 Hf0). rewrite Hu0.
  destruct (length data) as [|[|n]] eqn:Hn; [lia|lia|].
  (* first pass: 4096 bytes *)
  destruct (sendBodyFromFile_loop_pass (S (S n)) w0 f0 txn0 Hf0 Ht0 eq_refl Hp0
              (Hpol _)) as (w1 & -> & Hf1 & Ht1 & Hp1).
  destruct (read_chunk_full f0 eq_refl) as (Hd1 & Hl1 & Hg1 & Hu1);
    [rewrite Hu0, Hn; unfold kReadSize; lia|].
  (* second pass: 4096 bytes *)
  destruct (sendBodyFromFile_loop_pass (S n) w1 _ _ Hf1 Ht1 Hg1 Hp1 (Hpol _))
    as (w2 & -> & Hf2 & Ht2 & Hp2).
  destruct (read_chunk_full _ Hg1) as (Hd2 & Hl2 & Hg2 & Hu2);
    [rewrite Hu1, Hu0, length_drop, Hn; unfold kReadSize; lia|].
  (* third pass: the 1808 bytes left *)
  destruct (sendBodyFromFile_loop_pass n w2 _ _ Hf2 Ht2 Hg2 Hp2 (Hpol _))
    as (w3 & -> & Hf3 & Ht3 & Hp3).
  destruct (read_chunk_short _ Hg2) as (Hd3 & Hg3);
    [rewrite Hu2, Hu1, Hu0, !length_drop, Hn; unfold kReadSize; lia|].
  rewrite (sendBodyFromFile_loop_stop n w3 _ Hf3 Hg3), Hp3. cbn [negb].
  destruct (txn_sendEOM_history w3 _ Ht3) as (w' & -> & Hh & _).
  rewrite Hu1, Hu0 in Hd2. rewrite Hu2, Hu1, Hu0 in Hd3.
  rewrite Hu0 in Hd1.
  eexists w', msg, _, _, _. split; [done|]. split; [exact Hh|].
  split.
  { unfold IOBuf.length. cbn [fmap list_fmap compose]. rewrite Hl1, Hl2, Hd3.
    rewrite !length_drop, Hn. unfold kReadSize.
    repeat (f_equal; try lia). }
  split; [exact Hd1|]. split; [exact Hd2|]. split; [exact Hd3|].
  split.
  { apply read_chunk_storage. }
  intros f. destruct (read_chunk_data f) as (Hd & Hl & Hf). rewrite <- Hf. done.
Qed.

Lemma post_10000_bytes_in_three_buffers_witness :
  ∃ w' msg b1 b2 b3,
    sendRequest (Sample.disk (Sample.body 10000))
      (HTTPTransaction.new Sample.never_full) (Sample.poster false [])
    = Some w' ∧
    txn_history w'
    = [HTTPTransaction.SendHeaders msg; HTTPTransaction.SendBody b1;
       HTTPTransaction.SendBody b2; HTTPTransaction.SendBody b3;
       HTTPTransaction.SendEOM] ∧
    Z.of_nat ∘ IOBuf.length <$> [b1; b2; b3] = [4096; 4096; 1808]%Z ∧
    IOBuf.data b1 = take kReadSize (Sample.body 10000) ∧
    IOBuf.data b2 = take kReadSize (drop kReadSize (Sample.body 10000)) ∧
    IOBuf.data b3 = drop kReadSize (drop kReadSize (Sample.body 10000)) ∧
    length (IOBuf.storage b3) = kReadSize ∧
    ∀ f, IOBuf.data (read_chunk f).1 = (Ifstream.read kReadSize f).1 ∧
         IOBuf.length (read_chunk f).1
         = Ifstream.gcount (Ifstream.read kReadSize f).2.
Proof.
  apply (post_10000_bytes_in_three_buffers (Sample.body 10000)
           (Sample.disk (Sample.body 10000)) Sample.never_full
           (Sample.poster false [])).
  - reflexivity.
  - reflexivity.
  - vm_compute. reflexivity.
  - reflexivity.
  - intros h. reflexivity.
Defined.

(** ** Body before the end of the message *)

(** C2, as the code has it.  In a POST exchange whose body source is not
    empty, every [sendEOM] comes after at least one [sendBody], and the end
    of the message has been sent whenever the driver is left unpaused.  For
    an empty (zero-length) source that could be opened, with egress not
    paused, the feeder makes exactly one [sendBody] call, whose buffer is
    empty, and then [sendEOM]; [sendEOM] comes with no [sendBody] at all only
    when the source could not be opened. *)
Theorem post_body_before_eom
    (policy : list HTTPTransaction.item → bool) (w : World) :
  httpMethod_ (client w) = POST →
  (∀ fs data events w',
     fs (inputFilename_ (client w)) = Some data → data ≠ [] →
     exchange fs policy events w = Some w' →
     (∀ l1 l2, txn_history w' = l1 ++ HTTPTransaction.SendEOM :: l2 →
               ∃ b, HTTPTransaction.SendBody b ∈ l1) ∧
     (egressPaused_ (client w') = false →
        HTTPTransaction.SendEOM ∈ txn_history w')) ∧
  (∀ fs,
     fs (inputFilename_ (client w)) = Some [] →
     egressPaused_ (client w) = false → (∀ h, policy h = false) →
     ∃ w' msg b,
       sendRequest fs (HTTPTransaction.new policy) w = Some w' ∧
       txn_history w'
       = [HTTPTransaction.SendHeaders msg; HTTPTransaction.SendBody b;
          HTTPTransaction.SendEOM] ∧
       IOBuf.data b = []) ∧
  (∀ fs,
     fs (inputFilename_ (client w)) = None →
     egressPaused_ (client w) = false →
     ∃ w' msg,
       sendRequest fs (HTTPTransaction.new policy) w = Some w' ∧
       txn_history w'
       = [HTTPTransaction.SendHeaders msg; HTTPTransaction.SendEOM]).
Proof.
  intros Hm. split; [|split].
  - intros fs data events w' Hfs Hne Hrun.
    destruct (exchange_settles data fs policy events w Hm Hfs) as [Hkeep _].
    destruct (Hkeep w' Hrun) as [(f & txn & Hf & Ht & HFd) Hlive].
    split; [|done]. unfold txn_history. rewrite Ht.
    by apply (fd_first _ _ _ _ HFd).
  - intros fs Hfs Hp Hpol.
    destruct (sendRequest_unfold fs (HTTPTransaction.new policy) w) as [out1 ->].
    cbv zeta. rewrite Hm. cbn [HTTPMethod_eqb].
    unfold Ifstream.open. rewrite Hfs.
    set (f0 := Ifstream.mk [] 0 false false false 0).
    match goal with |- context [sendBodyFromFile ?x] => set (w0 := x) end.
    assert (Hf0 : inputFile_ (client w0) = Some f0) by reflexivity.
    assert (Hp0 : egressPaused_ (client w0) = false)
      by (rewrite <- Hp; reflexivity).
    rewrite (sendBodyFromFile_unfold w0 f0 Hf0).
    destruct (sendBodyFromFile_loop_pass (length (Ifstream.unread f0)) w0 f0 _
                Hf0 eq_refl eq_refl Hp0 (Hpol _)) as (w1 & -> & Hf1 & Ht1 & Hp1).
    destruct (read_chunk_short f0 eq_refl) as (Hd1 & Hg1);
      [apply kReadSize_pos|].
    rewrite (sendBodyFromFile_loop_stop _ w1 _ Hf1 Hg1), Hp1. cbn [negb].
    destruct (txn_sendEOM_history w1 _ Ht1) as (w' & -> & Hh & _).
    eexists w', _, _. split; [done|]. split; [exact Hh|]. exact Hd1.
  - intros fs Hfs Hp.
    destruct (sendRequest_unfold fs (HTTPTransaction.new policy) w) as [out1 ->].
    cbv zeta. rewrite Hm. cbn [HTTPMethod_eqb].
    unfold Ifstream.open. rewrite Hfs.
    set (f0 := Ifstream.mk [] 0 false true false 0).
    match goal with |- context [sendBodyFromFile ?x] => set (w0 := x) end.
    assert (Hf0 : inputFile_ (client w0) = Some f0) by reflexivity.
    assert (Hp0 : egressPaused_ (client w0) = false)
      by (rewrite <- Hp; reflexivity).
    rewrite (sendBodyFromFile_unfold w0 f0 Hf0).
    rewrite (sendBodyFromFile_loop_stop _ w0 f0 Hf0 eq_refl), Hp0. cbn [negb].
    destruct (txn_sendEOM_history w0 _ eq_refl) as (w' & -> & Hh & _).
    eexists w', _. split; [done|]. exact Hh.
Qed.

Lemma post_body_before_eom_witness :
  (∀ fs data events w',
     fs (inputFilename_ (client (Sample.poster false []))) = Some data →
     data ≠ [] →
     exchange fs Sample.never_full events (Sample.poster false [])
       = Some w' →
     (∀ l1 l2, txn_history w' = l1 ++ HTTPTransaction.SendEOM :: l2 →
               ∃ b, HTTPTransaction.SendBody b ∈ l1) ∧
     (egressPaused_ (client w') = false →
        HTTPTransaction.SendEOM ∈ txn_history w')) ∧
  (∀ fs,
     fs (inputFilename_ (client (Sample.poster false []))) = Some [] →
     egressPaused_ (client (Sample.poster false [])) = false →
     (∀ h, Sample.never_full h = false) →
     ∃ w' msg b,
       sendRequest fs (HTTPTransaction.new Sample.never_full)
         (Sample.poster false []) = Some w' ∧
       txn_history w'
       = [HTTPTransaction.SendHeaders msg; HTTPTransaction.SendBody b;
          HTTPTransaction.SendEOM] ∧
       IOBuf.data b = []) ∧
  (∀ fs,
     fs (inputFilename_ (client (Sample.poster false []))) = None →
     egressPaused_ (client (Sample.poster false [])) = false →
     ∃ w' msg,
       sendRequest fs (HTTPTransaction.new Sample.never_full)
         (Sample.poster false []) = Some w' ∧
       txn_history w'
       = [HTTPTransaction.SendHeaders msg; HTTPTransaction.SendEOM]).
Proof.
  apply (post_body_before_eom Sample.never_full (Sample.poster false [])).
  reflexivity.
Defined.

(** C2 fails as stated: a POST of an empty file makes one [sendBody] call,
    not none, before [sendEOM]. *)
Lemma post_empty_source_sends_one_buffer :
  ∃ w' msg b,
    sendRequest (Sample.disk []) (HTTPTransaction.new Sample.never_full)
      (Sample.poster false []) = Some w' ∧
    txn_history w'
    = [HTTPTransaction.SendHeaders msg; HTTPTransaction.SendBody b;
       HTTPTransaction.SendEOM] ∧
    sent_buffers (txn_history w') ≠ [].
Proof.
  eexists _, _, _. split; [vm_compute; reflexivity|].
  split; [reflexivity|]. discriminate.
Qed.

(** ** What [sendRequest] leaves behind *)

Lemma feeder_frame_fields c c' :
  feeder_frame c c' →
  request_ c' = request_ c ∧ h2c_ c' = h2c_ c ∧
  httpMethod_ c' = httpMethod_ c ∧ loggingEnabled_ c' = loggingEnabled_ c ∧
  sslContext_ c' = sslContext_ c.
Proof. intros ->. by destruct c. Qed.

(** [sendRequest] always returns.  The first thing it does to the
    transaction is [sendHeaders], with the request it has built, which is
    the request it leaves in [request_]; it leaves [h2c_] as it was. *)
Lemma sendRequest_returns fs txn w :
  ∃ w' rest,
    sendRequest fs txn w = Some w' ∧
    txn_history w'
    = HTTPTransaction.history txn
        ++ HTTPTransaction.SendHeaders (sent_request (client w)) :: rest ∧
    request_ (client w') = sent_request (client w) ∧
    h2c_ (client w') = h2c_ (client w) ∧
    (httpMethod_ (client w) ≠ POST → rest = [HTTPTransaction.SendEOM]).
Proof.
  destruct (sendRequest_unfold fs txn w) as [out1 ->]. cbv zeta.
  set (msg := sent_request (client w)).
  destruct (HTTPMethod_eqb (httpMethod_ (client w)) POST) eqn:Hm.
  - match goal with |- context [sendBodyFromFile ?x] => set (w0 := x) end.
    destruct (sendBodyFromFile_extends w0 _ (HTTPTransaction.sendHeaders msg txn)
                eq_refl eq_refl) as (w' & txn' & ext & -> & Ht' & Hh & _ & Hfr).
    apply feeder_frame_fields in Hfr as (Hr & Hh2c & _).
    exists w', ext. split; [done|]. unfold txn_history. rewrite Ht', Hh.
    split; [by unfold HTTPTransaction.sendHeaders, HTTPTransaction.record;
              cbn [HTTPTransaction.history]; rewrite <- app_assoc|].
    rewrite Hr, Hh2c.
    split; [reflexivity|]. split; [reflexivity|].
    intros Hne. by destruct (httpMethod_ (client w)).
  - match goal with |- context [txn_sendEOM ?x] => set (w0 := x) end.
    destruct (txn_sendEOM_history w0 (HTTPTransaction.sendHeaders msg txn)
                eq_refl) as (w' & -> & Hh & Hfr).
    apply feeder_frame_fields in Hfr as (Hr & Hh2c & _).
    exists w', [HTTPTransaction.SendEOM]. split; [done|]. rewrite Hh.
    split; [by unfold HTTPTransaction.sendHeaders, HTTPTransaction.record;
              cbn [HTTPTransaction.history]; rewrite <- app_assoc|].
    rewrite Hr, Hh2c. split; [reflexivity|]. split; [reflexivity|]. done.
Qed.

(** ** Resuming after the end of the message *)

(** C10.  When [onEgressResumed] is delivered while a body source is open,
    the source is exhausted and the end of the message has been sent, the
    driver runs the feeder again: it makes no [sendBody] call and calls
    [sendEOM] once more, so the transaction gets a second end of message. *)
Theorem resume_after_eom_sends_eom_again (w : World) (f : Ifstream.t) :
  inputFile_ (client w) = Some f →
  Ifstream.good f = false →
  HTTPTransaction.SendEOM ∈ txn_history w →
  ∃ w',
    onEgressResumed w = Some w' ∧
    txn_history w' = txn_history w ++ [HTTPTransaction.SendEOM] ∧
    sent_buffers (txn_history w') = sent_buffers (txn_history w) ∧
    eom_count (txn_history w') = S (eom_count (txn_history w)) ∧
    2 ≤ eom_count (txn_history w').
Proof.
  intros Hf Hg Heom. unfold txn_history in Heom |- * at 2 4 6.
  destruct (txn_ (client w)) as [txn|] eqn:Ht;
    [|by apply elem_of_nil in Heom].
  unfold onEgressResumed.
  match goal with |- context [on_client (set_egressPaused false) ?x] =>
    set (w0 := on_client (set_egressPaused false) x) end.
  assert (Hf0 : inputFile_ (client w0) = Some f).
  { subst w0. unfold LOG_IF_logging. rewrite <- Hf.
    by destruct w as [[? ? ? ? ? ? ? ? []] ?]. }
  assert (Ht0 : txn_ (client w0) = Some txn).
  { subst w0. unfold LOG_IF_logging. rewrite <- Ht.
    by destruct w as [[? ? ? ? ? ? ? ? []] ?]. }
  assert (Hp0 : egressPaused_ (client w0) = false).
  { subst w0. unfold LOG_IF_logging.
    by destruct w as [[? ? ? ? ? ? ? ? []] ?]. }
  rewrite Hf0, (sendBodyFromFile_unfold w0 f Hf0).
  rewrite (sendBodyFromFile_loop_stop _ w0 f Hf0 Hg), Hp0. cbn [negb].
  destruct (txn_sendEOM_history w0 txn Ht0) as (w' & -> & Hh & _).
  exists w'. split; [done|]. split; [done|]. rewrite Hh.
  split; [by rewrite sent_buffers_snoc, app_nil_r|].
  assert (Hc : eom_count (HTTPTransaction.history txn ++ [HTTPTransaction.SendEOM])
               = S (eom_count (HTTPTransaction.history txn))).
  { unfold eom_count. rewrite omap_app, length_app. cbn. lia. }
  split; [done|]. rewrite Hc.
  apply list_elem_of_split in Heom as (l1 & l2 & ->).
  unfold eom_count. rewrite omap_app, length_app. cbn. lia.
Qed.

Lemma resume_after_eom_sends_eom_again_witness :
  ∃ w',
    onEgressResumed Sample.posted = Some w' ∧
    txn_history w' = txn_history Sample.posted ++ [HTTPTransaction.SendEOM] ∧
    sent_buffers (txn_history w') = sent_buffers (txn_history Sample.posted) ∧
    eom_count (txn_history w') = S (eom_count (txn_history Sample.posted)) ∧
    2 ≤ eom_count (txn_history w').
Proof.
  eapply (resume_after_eom_sends_eom_again Sample.posted).
  - vm_compute. reflexivity.
  - reflexivity.
  - apply list_elem_of_In. vm_compute. tauto.
Defined.

(** ** The cleartext-upgrade flag *)

Lemma sent_request_upgradeMarker c :
  HTTPMessage.upgradeMarker (sent_request c)
  = h2c_ c || HTTPMessage.upgradeMarker (request_ c).
Proof.
  unfold sent_request, build_request.
  destruct (partiallyReliable_ c), (proxy_ c), (h2c_ c); reflexivity.
Qed.

Lemma sendBodyFromFile_loop_frame fuel w w' :
  sendBodyFromFile_loop fuel w = Some w' →
  feeder_frame (client w) (client w').
Proof.
  revert w. induction fuel as [|fuel IH]; intros w Hrun;
    rewrite sendBodyFromFile_loop_unfold in Hrun;
    destruct (inputFile_ (client w)) as [f|] eqn:Hf; try discriminate;
    destruct (Ifstream.good f && negb (egressPaused_ (client w))) eqn:Hc;
    try discriminate.
  1, 3: injection Hrun as <-; apply feeder_frame_refl.
  destruct (txn_ (client w)) as [txn|] eqn:Ht.
  - assert (Ht0 : txn_ (client (on_client
                       (set_inputFile (Some (read_chunk f).2)) w)) = Some txn)
      by (by destruct w).
    destruct (txn_sendBody_spec (read_chunk f).1 _ txn Ht0)
      as (w1 & txn1 & Hsb & _ & _ & _ & Hfr1 & _).
    rewrite Hsb in Hrun.
    eapply feeder_frame_trans; [|exact (IH w1 Hrun)].
    eapply feeder_frame_trans; [|exact Hfr1].
    destruct w as [c out]. by destruct c.
  - assert (Hn : txn_ (client (on_client
                      (set_inputFile (Some (read_chunk f).2)) w)) = None)
      by (rewrite <- Ht; by destruct w).
    unfold txn_sendBody in Hrun. by rewrite Hn in Hrun.
Qed.

Lemma sendBodyFromFile_frame w w' :
  sendBodyFromFile w = Some w' → feeder_frame (client w) (client w').
Proof.
  unfold sendBodyFromFile. intros H.
  destruct (inputFile_ (client w)) as [f|]; [|done].
  cbn [mbind option_bind] in H.
  destruct (sendBodyFromFile_loop _ w) as [w1|] eqn:Hrun; [|done].
  cbn [mbind option_bind] in H. apply sendBodyFromFile_loop_frame in Hrun.
  destruct (negb (egressPaused_ (client w1))).
  - unfold txn_sendEOM in H. destruct (txn_ (client w1)) as [txn|]; [|done].
    injection H as <-. eapply feeder_frame_trans; [exact Hrun|].
    destruct w1 as [c1 out1]. by destruct c1.
  - by injection H as <-.
Qed.

(** No callback changes [h2c_] or [request_]. *)
Lemma deliver_keeps_request e w w' :
  deliver e w = Some w' →
  h2c_ (client w') = h2c_ (client w) ∧
  request_ (client w') = request_ (client w).
Proof.
  intros H. destruct w as [c out].
  destruct e as [| | | | | | | | | | |i []];
    cbn [deliver] in H;
    unfold setTransaction, detachTransaction, onHeadersComplete, onBody,
      onTrailers, onEOM, onUpgrade, onError, onPushedTransaction,
      printMessageImpl, CurlPushHandler.setTransaction,
      CurlPushHandler.detachTransaction, CurlPushHandler.onHeadersComplete,
      CurlPushHandler.onBody, CurlPushHandler.onEOM, CurlPushHandler.onError,
      CurlPushHandler.update, onBody, onError, printMessageImpl,
      onEgressPaused, txn_record in H;
    cbn [client output on_client emit negb] in H.
  10: { unfold onEgressResumed in H.
       match type of H with context [on_client (set_egressPaused false) ?x] =>
         set (w0 := on_client (set_egressPaused false) x) in H end.
       assert (Hw0 : h2c_ (client w0) = h2c_ c ∧ request_ (client w0) = request_ c).
       { subst w0. unfold LOG_IF_logging. cbn [client].
         destruct (txn_ c); by destruct c as [? ? ? ? ? ? ? ? []]. }
       destruct (inputFile_ (client w0)).
       - apply sendBodyFromFile_frame, feeder_frame_fields in H as (-> & -> & _).
         by destruct Hw0.
       - by injection H as <-. }
  all: crush_handler; by destruct c.
Qed.

Lemma run_keeps_request events w w' :
  run events w = Some w' →
  h2c_ (client w') = h2c_ (client w) ∧
  request_ (client w') = request_ (client w).
Proof.
  revert w. induction events as [|e events IH]; intros w H.
  - by injection H as <-.
  - cbn [run] in H. destruct (deliver e w) as [w1|] eqn:He; [|done].
    cbn [mbind option_bind] in H.
    destruct (deliver_keeps_request e w w1 He) as [<- <-]. by apply IH.
Qed.

(** The constructor copies the caller's headers, in order, into a request
    that is not tagged for upgrade. *)
Lemma CurlClient_new_request lg rw ep m url proxy headers name h2c maj min pr :
  request_ (CurlClient_new lg rw ep m url proxy headers name h2c maj min pr)
  = HTTPMessage.setHeaders headers HTTPMessage.new.
Proof.
  unfold CurlClient_new. cbn [request_]. unfold HTTPHeaders.forEach.
  change (HTTPMessage.setHeaders headers HTTPMessage.new)
    with (HTTPMessage.setHeaders
            (HTTPMessage.headers HTTPMessage.new ++ headers) HTTPMessage.new).
  generalize HTTPMessage.new as r.
  induction headers as [|[n v] hs IH]; intros r; cbn [fold_left fst snd].
  - rewrite app_nil_r. by destruct r.
  - rewrite IH. destruct r. cbn. unfold HTTPHeaders.add.
    by rewrite <- app_assoc.
Qed.

(** C8, as the code has it.  When [h2c_] is set as [sendRequest] runs, the
    request handed to [sendHeaders] is tagged for the protocol upgrade; and
    [sendRequest] leaves [h2c_] set, as does every callback, so that a later
    [sendRequest] on the same driver tags its request again. *)
Theorem h2c_request_tagged_and_flag_kept
    (fs : Ifstream.filesystem) (txn : HTTPTransaction.t) (w : World) :
  h2c_ (client w) = true →
  ∃ w' msg rest,
    sendRequest fs txn w = Some w' ∧
    txn_history w'
    = HTTPTransaction.history txn ++ HTTPTransaction.SendHeaders msg :: rest ∧
    HTTPMessage.upgradeMarker msg = true ∧
    h2c_ (client w') = true ∧
    ∀ events w1 fs2 txn2,
      run events w' = Some w1 →
      h2c_ (client w1) = true ∧
      ∃ w2 msg2 rest2,
        sendRequest fs2 txn2 w1 = Some w2 ∧
        txn_history w2
        = HTTPTransaction.history txn2
            ++ HTTPTransaction.SendHeaders msg2 :: rest2 ∧
        HTTPMessage.upgradeMarker msg2 = true.
Proof.
  intros Hh. destruct (sendRequest_returns fs txn w)
    as (w' & rest & Hs & Hhist & Hr & Hh' & _).
  exists w', (sent_request (client w)), rest.
  split; [done|]. split; [done|].
  split; [by rewrite sent_request_upgradeMarker, Hh|].
  split; [congruence|].
  intros events w1 fs2 txn2 Hrun.
  destruct (run_keeps_request events w' w1 Hrun) as [Hh1 _].
  rewrite Hh', Hh in Hh1. split; [done|].
  destruct (sendRequest_returns fs2 txn2 w1)
    as (w2 & rest2 & Hs2 & Hhist2 & _).
  exists w2, (sent_request (client w1)), rest2.
  split; [done|]. split; [done|].
  by rewrite sent_request_upgradeMarker, Hh1.
Qed.

Lemma h2c_request_tagged_and_flag_kept_witness :
  ∃ w' msg rest,
    sendRequest (Sample.disk []) (HTTPTransaction.new Sample.never_full)
      (Sample.getter true true) = Some w' ∧
    txn_history w'
    = HTTPTransaction.history (HTTPTransaction.new Sample.never_full)
        ++ HTTPTransaction.SendHeaders msg :: rest ∧
    HTTPMessage.upgradeMarker msg = true ∧
    h2c_ (client w') = true ∧
    ∀ events w1 fs2 txn2,
      run events w' = Some w1 →
      h2c_ (client w1) = true ∧
      ∃ w2 msg2 rest2,
        sendRequest fs2 txn2 w1 = Some w2 ∧
        txn_history w2
        = HTTPTransaction.history txn2
            ++ HTTPTransaction.SendHeaders msg2 :: rest2 ∧
        HTTPMessage.upgradeMarker msg2 = true.
Proof.
  apply (h2c_request_tagged_and_flag_kept (Sample.disk [])
           (HTTPTransaction.new Sample.never_full) (Sample.getter true true)).
  reflexivity.
Defined.

(** C8 fails as stated: after [sendRequest] has tagged the request, the
    upgrade flag is still set. *)
Lemma sendRequest_leaves_h2c_set :
  ∃ w',
    sendRequest (Sample.disk []) (HTTPTransaction.new Sample.never_full)
      (Sample.getter true true) = Some w' ∧
    h2c_ (client w') = true.
Proof. eexists. split; [vm_compute; reflexivity|reflexivity]. Qed.

(** C9.  [initializeSsl] leaves [h2c_] cleared, whatever it was and whatever
    the paths given; no callback sets it again; so a [sendRequest] that
    follows does not tag the request: the marker of the request sent is the
    one the request had.  For a driver constructed with the upgrade
    requested, the request sent after [initializeSsl] is not tagged. *)
Theorem initializeSsl_disables_upgrade
    (caPath nextProtos certPath keyPath : string) (c : CurlClient) :
  h2c_ (initializeSsl caPath nextProtos certPath keyPath c) = false ∧
  (∀ out events w1 fs txn,
     run events
       (mkWorld (initializeSsl caPath nextProtos certPath keyPath c) out)
     = Some w1 →
     h2c_ (client w1) = false ∧
     ∃ w' msg rest,
       sendRequest fs txn w1 = Some w' ∧
       txn_history w'
       = HTTPTransaction.history txn
           ++ HTTPTransaction.SendHeaders msg :: rest ∧
       HTTPMessage.upgradeMarker msg = HTTPMessage.upgradeMarker (request_ c) ∧
       HTTPMessage.upgradeMarker (request_ (client w'))
       = HTTPMessage.upgradeMarker (request_ c)) ∧
  (∀ lg rw ep m url proxy headers name maj min pr out fs txn,
     ∃ w' msg rest,
       sendRequest fs txn
         (mkWorld
            (initializeSsl caPath nextProtos certPath keyPath
               (CurlClient_new lg rw ep m url proxy headers name true
                  maj min pr))
            out)
       = Some w' ∧
       txn_history w'
       = HTTPTransaction.history txn
           ++ HTTPTransaction.SendHeaders msg :: rest ∧
       HTTPMessage.upgradeMarker msg = false).
Proof.
  assert (Hinit : ∀ c0,
    h2c_ (initializeSsl caPath nextProtos certPath keyPath c0) = false ∧
    request_ (initializeSsl caPath nextProtos certPath keyPath c0)
    = request_ c0).
  { intros c0. unfold initializeSsl. by destruct c0. }
  split; [apply Hinit|]. split.
  - intros out events w1 fs txn Hrun.
    destruct (run_keeps_request events _ w1 Hrun) as [Hh Hr].
    cbn [client] in Hh, Hr. destruct (Hinit c) as [Hh0 Hr0].
    rewrite Hh0 in Hh. rewrite Hr0 in Hr. split; [done|].
    destruct (sendRequest_returns fs txn w1)
      as (w' & rest & Hs & Hhist & Hr' & _).
    exists w', (sent_request (client w1)), rest.
    split; [done|]. split; [done|].
    rewrite Hr', sent_request_upgradeMarker, Hh, Hr. done.
  - intros lg rw ep m url proxy headers name maj min pr out fs txn.
    match goal with |- context [sendRequest fs txn ?x] => set (w1 := x) end.
    destruct (sendRequest_returns fs txn w1)
      as (w' & rest & Hs & Hhist & _).
    exists w', (sent_request (client w1)), rest.
    split; [done|]. split; [done|].
    rewrite sent_request_upgradeMarker. subst w1. cbn [client].
    destruct (Hinit (CurlClient_new lg rw ep m url proxy headers name true
                       maj min pr)) as [-> ->].
    by rewrite CurlClient_new_request.
Qed.

(** ** Default headers *)

Lemma getNumberOfValues_app name h1 h2 :
  HTTPHeaders.getNumberOfValues name (h1 ++ h2)
  = HTTPHeaders.getNumberOfValues name h1
    + HTTPHeaders.getNumberOfValues name h2.
Proof.
  unfold HTTPHeaders.getNumberOfValues. by rewrite filter_app, length_app.
Qed.

Lemma getNumberOfValues_singleton name n v :
  HTTPHeaders.getNumberOfValues name [(n, v)]
  = if HTTPHeaders.caseInsensitiveEqual n name then 1 else 0.
Proof.
  unfold HTTPHeaders.getNumberOfValues. cbn.
  by destruct (HTTPHeaders.caseInsensitiveEqual n name).
Qed.

Ltac compare_names :=
  repeat match goal with
  | |- context [HTTPHeaders.caseInsensitiveEqual ?a ?b] =>
      let r := eval vm_compute in (HTTPHeaders.caseInsensitiveEqual a b) in
      change (HTTPHeaders.caseInsensitiveEqual a b) with r
  end.

(** [build_request] keeps the headers of [request_] and appends the
    defaults that are missing. *)
Lemma build_request_headers c :
  HTTPMessage.headers (sent_request c)
  = HTTPMessage.headers (request_ c)
    ++ default_headers (URL.getHostAndPort (url_ c))
         (HTTPMessage.headers (request_ c)).
Proof.
  unfold sent_request, build_request, default_headers.
  set (hs := HTTPMessage.headers (request_ c)).
  set (host := URL.getHostAndPort (url_ c)).
  assert (Hhs : ∀ r', HTTPMessage.headers
             (if h2c_ c then HTTPMessage.requestUpgrade r' else r')
           = HTTPMessage.headers r') by (intros r'; by destruct (h2c_ c)).
  assert (Hset : ∀ h r', HTTPMessage.headers
             (if partiallyReliable_ c
              then HTTPMessage.setPartiallyReliable (HTTPMessage.setHeaders h r')
              else HTTPMessage.setHeaders h r') = h)
    by (intros h r'; by destruct (partiallyReliable_ c)).
  rewrite Hset, Hhs.
  replace (HTTPMessage.headers (HTTPMessage.setSecure _ _)) with hs
    by (by destruct (proxy_ c)).
  unfold HTTPHeaders.getNumberOfValues_code, HTTPHeaders.add_code,
    HTTPHeaders.add, HTTPHeaders.getHeaderName.
  destruct (decide (HTTPHeaders.getNumberOfValues "User-Agent" hs = 0)) as [Hu|Hu];
    [rewrite (bool_decide_eq_false_2 _ (λ H, H Hu)), (bool_decide_eq_true_2 _ Hu)
    |rewrite (bool_decide_eq_true_2 _ Hu), (bool_decide_eq_false_2 _ Hu)];
    cbn [negb];
    rewrite ?getNumberOfValues_app;
    change (HTTPHeaders.getNumberOfValues "Host" [("User-Agent", "proxygen_curl")])
      with 0; rewrite ?Nat.add_0_r;
    (destruct (decide (HTTPHeaders.getNumberOfValues "Host" hs = 0)) as [Hh|Hh];
     [rewrite (bool_decide_eq_false_2 _ (λ H, H Hh)), (bool_decide_eq_true_2 _ Hh)
     |rewrite (bool_decide_eq_true_2 _ Hh), (bool_decide_eq_false_2 _ Hh)]);
    cbn [negb];
    rewrite ?getNumberOfValues_app;
    change (HTTPHeaders.getNumberOfValues "Accept" [("User-Agent", "proxygen_curl")])
      with 0;
    change (HTTPHeaders.getNumberOfValues "Accept" [("Host", host)]) with 0;
    rewrite ?Nat.add_0_r;
    (destruct (decide (HTTPHeaders.getNumberOfValues "Accept" hs = 0)) as [Ha|Ha];
     [rewrite (bool_decide_eq_false_2 _ (λ H, H Ha)), (bool_decide_eq_true_2 _ Ha)
     |rewrite (bool_decide_eq_true_2 _ Ha), (bool_decide_eq_false_2 _ Ha)]);
    cbn [negb app]; rewrite <- ?app_assoc, ?app_nil_r; reflexivity.
Qed.

(** C7.  The request [sendRequest] sends, and leaves in [request_], has the
    headers the request had before the call, which are the caller's, all of
    them, unchanged and in order, followed by the defaults: each of
    User-Agent, Host and Accept is added if and only if the caller supplied
    no header of that name, names compared without regard to case.  After
    the call each of the three names has one value if the caller gave none,
    and the caller's values otherwise. *)
Theorem default_headers_added_iff_absent
    (fs : Ifstream.filesystem) (txn : HTTPTransaction.t) (w : World) :
  ∃ w' msg rest,
    sendRequest fs txn w = Some w' ∧
    txn_history w'
    = HTTPTransaction.history txn ++ HTTPTransaction.SendHeaders msg :: rest ∧
    request_ (client w') = msg ∧
    HTTPMessage.headers msg
    = HTTPMessage.headers (request_ (client w))
      ++ default_headers (URL.getHostAndPort (url_ (client w)))
           (HTTPMessage.headers (request_ (client w))) ∧
    (∀ nv,
       nv ∈ default_headers (URL.getHostAndPort (url_ (client w)))
              (HTTPMessage.headers (request_ (client w)))
       ↔ (nv = ("User-Agent", "proxygen_curl") ∧
          HTTPHeaders.getNumberOfValues "User-Agent"
            (HTTPMessage.headers (request_ (client w))) = 0)
         ∨ (nv = ("Host", URL.getHostAndPort (url_ (client w))) ∧
            HTTPHeaders.getNumberOfValues "Host"
              (HTTPMessage.headers (request_ (client w))) = 0)
         ∨ (nv = ("Accept", "*/*") ∧
            HTTPHeaders.getNumberOfValues "Accept"
              (HTTPMessage.headers (request_ (client w))) = 0)) ∧
    (∀ code,
       HTTPHeaders.getNumberOfValues_code code (HTTPMessage.headers msg)
       = if bool_decide
              (HTTPHeaders.getNumberOfValues_code code
                 (HTTPMessage.headers (request_ (client w))) = 0)
         then 1
         else HTTPHeaders.getNumberOfValues_code code
                (HTTPMessage.headers (request_ (client w)))) ∧
    (∀ lg rw ep m url proxy headers name h2c maj min pr,
       HTTPMessage.headers
         (request_
            (CurlClient_new lg rw ep m url proxy headers name h2c maj min pr))
       = headers).
Proof.
  destruct (sendRequest_returns fs txn w) as (w' & rest & Hs & Hh & Hr & _).
  exists w', (sent_request (client w)), rest.
  split; [done|]. split; [done|]. split; [done|].
  split; [apply build_request_headers|].
  set (hs := HTTPMessage.headers (request_ (client w))).
  set (host := URL.getHostAndPort (url_ (client w))).
  split; [|split].
  - intros nv. unfold default_headers.
    rewrite !elem_of_app.
    destruct (decide (HTTPHeaders.getNumberOfValues "User-Agent" hs = 0)) as [Hu|Hu];
      [rewrite (bool_decide_eq_true_2 _ Hu)|rewrite (bool_decide_eq_false_2 _ Hu)];
    (destruct (decide (HTTPHeaders.getNumberOfValues "Host" hs = 0)) as [Hh'|Hh'];
      [rewrite (bool_decide_eq_true_2 _ Hh')|rewrite (bool_decide_eq_false_2 _ Hh')]);
    (destruct (decide (HTTPHeaders.getNumberOfValues "Accept" hs = 0)) as [Ha|Ha];
      [rewrite (bool_decide_eq_true_2 _ Ha)|rewrite (bool_decide_eq_false_2 _ Ha)]);
    rewrite ?list_elem_of_singleton, ?elem_of_nil; tauto.
  - intros code. rewrite build_request_headers. fold hs host.
    unfold HTTPHeaders.getNumberOfValues_code.
    rewrite getNumberOfValues_app. unfold default_headers.
    rewrite !getNumberOfValues_app.
    destruct (decide (HTTPHeaders.getNumberOfValues "User-Agent" hs = 0)) as [Hu|Hu];
      [rewrite (bool_decide_eq_true_2 _ Hu)|rewrite (bool_decide_eq_false_2 _ Hu)];
    (destruct (decide (HTTPHeaders.getNumberOfValues "Host" hs = 0)) as [Hh'|Hh'];
      [rewrite (bool_decide_eq_true_2 _ Hh')|rewrite (bool_decide_eq_false_2 _ Hh')]);
    (destruct (decide (HTTPHeaders.getNumberOfValues "Accept" hs = 0)) as [Ha|Ha];
      [rewrite (bool_decide_eq_true_2 _ Ha)|rewrite (bool_decide_eq_false_2 _ Ha)]);
    destruct code; cbn [HTTPHeaders.getHeaderName];
    rewrite ?Hu, ?Hh', ?Ha;
    rewrite ?(bool_decide_eq_false_2 _ Hu), ?(bool_decide_eq_false_2 _ Hh'),
      ?(bool_decide_eq_false_2 _ Ha);
    rewrite ?getNumberOfValues_singleton; compare_names;
    cbn; first [reflexivity | lia].
  - intros. by rewrite CurlClient_new_request.
Qed.

(** ** Push streams: promise, then response *)

Lemma push_onHeadersComplete_spec i msg w h :
  pushTxnHandlers_ (client w) !! i = Some h →
  ∃ w',
    CurlPushHandler.onHeadersComplete i msg w = Some w' ∧
    pushTxnHandlers_ (client w') !! i
    = Some (if CurlPushHandlerState.seenOnHeadersComplete_ h
            then CurlPushHandlerState.mk
                   (CurlPushHandlerState.pushedTxn_ h) true
                   (CurlPushHandlerState.promise_ h) (Some msg)
            else CurlPushHandlerState.mk
                   (CurlPushHandlerState.pushedTxn_ h) true (Some msg)
                   (CurlPushHandlerState.response_ h)) ∧
    (∀ j, j ≠ i →
       pushTxnHandlers_ (client w') !! j = pushTxnHandlers_ (client w) !! j) ∧
    loggingEnabled_ (client w') = loggingEnabled_ (client w) ∧
    output w'
    = output w
      ++ (if loggingEnabled_ (client w)
          then [CoutStr (if CurlPushHandlerState.seenOnHeadersComplete_ h
                         then "[PR] " else "[PP] ");
                DumpMessage msg 10]
          else []).
Proof.
  intros Hl. unfold CurlPushHandler.onHeadersComplete. rewrite Hl.
  cbn [mbind option_bind]. pose proof (lookup_lt_Some _ _ _ Hl) as Hlt.
  destruct w as [c out]. cbn [client] in *.
  destruct h as [ptxn seen prom resp]. cbn.
  destruct seen; cbn; eexists; (split; [reflexivity|]);
    unfold printMessageImpl, CurlPushHandler.update; cbn [client on_client];
    destruct c as [? ? ? ? ? ? ? ? lg ? ? ? ? ? ? ? hl]; cbn in *;
    destruct lg; cbn; rewrite ?app_nil_r;
    (split; [by apply list_lookup_insert_eq|]);
    (split; [by intros j Hj; apply list_lookup_insert_ne|]); done.
Qed.

(** C5, as the code has it.  On a push handler that has seen no
    headers-complete event, the first such event is stored as the promise
    and the second as the pushed response, whatever the two messages are;
    each is logged under its tag, "[PP] " for the promise and "[PR] " for
    the response, when the parent's logging is enabled, and nothing is
    written when it is not.  Which of the two a message is taken for depends
    on [seenOnHeadersComplete_] alone.  A handler made by
    [onPushedTransaction] has seen none. *)
Theorem push_first_is_promise_second_is_response
    (w : World) (i : nat) (h : CurlPushHandlerState.t)
    (m1 m2 : HTTPMessage.t) :
  pushTxnHandlers_ (client w) !! i = Some h →
  CurlPushHandlerState.seenOnHeadersComplete_ h = false →
  (∃ w1 w2,
     CurlPushHandler.onHeadersComplete i m1 w = Some w1 ∧
     pushTxnHandlers_ (client w1) !! i
     = Some (CurlPushHandlerState.mk (CurlPushHandlerState.pushedTxn_ h) true
               (Some m1) (CurlPushHandlerState.response_ h)) ∧
     output w1
     = output w ++ (if loggingEnabled_ (client w)
                    then [CoutStr "[PP] "; DumpMessage m1 10] else []) ∧
     CurlPushHandler.onHeadersComplete i m2 w1 = Some w2 ∧
     pushTxnHandlers_ (client w2) !! i
     = Some (CurlPushHandlerState.mk (CurlPushHandlerState.pushedTxn_ h) true
               (Some m1) (Some m2)) ∧
     output w2
     = output w1 ++ (if loggingEnabled_ (client w)
                     then [CoutStr "[PR] "; DumpMessage m2 10] else [])) ∧
  (∀ w0 j h0 msg,
     pushTxnHandlers_ (client w0) !! j = Some h0 →
     ∃ w0',
       CurlPushHandler.onHeadersComplete j msg w0 = Some w0' ∧
       pushTxnHandlers_ (client w0') !! j
       = Some (if CurlPushHandlerState.seenOnHeadersComplete_ h0
               then CurlPushHandlerState.mk
                      (CurlPushHandlerState.pushedTxn_ h0) true
                      (CurlPushHandlerState.promise_ h0) (Some msg)
               else CurlPushHandlerState.mk
                      (CurlPushHandlerState.pushedTxn_ h0) true (Some msg)
                      (CurlPushHandlerState.response_ h0)) ∧
       output w0'
       = output w0
         ++ (if loggingEnabled_ (client w0)
             then [CoutStr (if CurlPushHandlerState.seenOnHeadersComplete_ h0
                            then "[PR] " else "[PP] ");
                   DumpMessage msg 10]
             else [])) ∧
  (∀ w0 pushedTxn,
     pushTxnHandlers_ (client (onPushedTransaction pushedTxn w0))
       !! length (pushTxnHandlers_ (client w0))
     = Some CurlPushHandlerState.new ∧
     CurlPushHandlerState.seenOnHeadersComplete_ CurlPushHandlerState.new
     = false).
Proof.
  intros Hl Hseen. split; [|split].
  - destruct (push_onHeadersComplete_spec i m1 w h Hl)
      as (w1 & H1 & Hl1 & _ & Hlg1 & Ho1).
    rewrite Hseen in Hl1, Ho1.
    destruct (push_onHeadersComplete_spec i m2 w1 _ Hl1)
      as (w2 & H2 & Hl2 & _ & _ & Ho2).
    cbn [CurlPushHandlerState.seenOnHeadersComplete_
         CurlPushHandlerState.pushedTxn_ CurlPushHandlerState.promise_] in *.
    rewrite Hlg1 in Ho2. by exists w1, w2.
  - intros w0 j h0 msg Hl0.
    destruct (push_onHeadersComplete_spec j msg w0 h0 Hl0)
      as (w0' & H0 & Hl0' & _ & _ & Ho0).
    by exists w0'.
  - intros w0 pushedTxn. split; [|done]. unfold onPushedTransaction.
    destruct w0 as [c out]. cbn [client on_client].
    replace (pushTxnHandlers_ (set_pushTxnHandlers _ c))
      with (pushTxnHandlers_ c ++ [CurlPushHandlerState.new])
      by (by destruct c).
    by rewrite lookup_app_r, Nat.sub_diag.
Qed.

Lemma push_first_is_promise_second_is_response_witness :
  (∃ w1 w2,
     CurlPushHandler.onHeadersComplete 0 HTTPMessage.new
       (onPushedTransaction 3 (Sample.getter true false)) = Some w1 ∧
     pushTxnHandlers_ (client w1) !! 0
     = Some (CurlPushHandlerState.mk
               (CurlPushHandlerState.pushedTxn_ CurlPushHandlerState.new) true
               (Some HTTPMessage.new)
               (CurlPushHandlerState.response_ CurlPushHandlerState.new)) ∧
     output w1
     = output (onPushedTransaction 3 (Sample.getter true false))
       ++ (if loggingEnabled_
                (client (onPushedTransaction 3 (Sample.getter true false)))
           then [CoutStr "[PP] "; DumpMessage HTTPMessage.new 10] else []) ∧
     CurlPushHandler.onHeadersComplete 0
       (HTTPMessage.setURL "/pushed.css" HTTPMessage.new) w1 = Some w2 ∧
     pushTxnHandlers_ (client w2) !! 0
     = Some (CurlPushHandlerState.mk
               (CurlPushHandlerState.pushedTxn_ CurlPushHandlerState.new) true
               (Some HTTPMessage.new)
               (Some (HTTPMessage.setURL "/pushed.css" HTTPMessage.new))) ∧
     output w2
     = output w1
       ++ (if loggingEnabled_
                (client (onPushedTransaction 3 (Sample.getter true false)))
           then [CoutStr "[PR] ";
                 DumpMessage (HTTPMessage.setURL "/pushed.css" HTTPMessage.new)
                   10]
           else [])) ∧
  (∀ w0 j h0 msg,
     pushTxnHandlers_ (client w0) !! j = Some h0 →
     ∃ w0',
       CurlPushHandler.onHeadersComplete j msg w0 = Some w0' ∧
       pushTxnHandlers_ (client w0') !! j
       = Some (if CurlPushHandlerState.seenOnHeadersComplete_ h0
               then CurlPushHandlerState.mk
                      (CurlPushHandlerState.pushedTxn_ h0) true
                      (CurlPushHandlerState.promise_ h0) (Some msg)
               else CurlPushHandlerState.mk
                      (CurlPushHandlerState.pushedTxn_ h0) true (Some msg)
                      (CurlPushHandlerState.response_ h0)) ∧
       output w0'
       = output w0
         ++ (if loggingEnabled_ (client w0)
             then [CoutStr (if CurlPushHandlerState.seenOnHeadersComplete_ h0
                            then "[PR] " else "[PP] ");
                   DumpMessage msg 10]
             else [])) ∧
  (∀ w0 pushedTxn,
     pushTxnHandlers_ (client (onPushedTransaction pushedTxn w0))
       !! length (pushTxnHandlers_ (client w0))
     = Some CurlPushHandlerState.new ∧
     CurlPushHandlerState.seenOnHeadersComplete_ CurlPushHandlerState.new
     = false).
Proof.
  apply (push_first_is_promise_second_is_response
           (onPushedTransaction 3 (Sample.getter true false)) 0
           CurlPushHandlerState.new HTTPMessage.new
           (HTTPMessage.setURL "/pushed.css" HTTPMessage.new));
    reflexivity.
Defined.

(** C5 fails as stated: with the parent's logging disabled, the first
    headers-complete event is stored as the promise but nothing is logged. *)
Lemma push_promise_not_logged_without_logging :
  ∃ w1,
    CurlPushHandler.onHeadersComplete 0 HTTPMessage.new
      (onPushedTransaction 3 (Sample.getter false false)) = Some w1 ∧
    CurlPushHandlerState.promise_
      <$> pushTxnHandlers_ (client w1) !! 0 = Some (Some HTTPMessage.new) ∧
    output w1 = [].
Proof. eexists. split; [vm_compute; reflexivity|]. split; reflexivity. Qed.

(** ** Parsing a header specification *)

Lemma split_unfold d s :
  split d s = before d s :: match after d s with
                            | Some rest => split d rest
                            | None => []
                            end.
Proof.
  induction s as [|c s IH]; [done|]. cbn [split before after].
  destruct (Ascii.eqb c d); [done|]. by rewrite IH.
Qed.

Lemma split_app d s1 s2 :
  split d (s1 +:+ String d s2) = split d s1 ++ split d s2.
Proof.
  induction s1 as [|c s1 IH].
  - change ("" +:+ String d s2) with (String d s2). cbn [split app].
    by rewrite Ascii.eqb_refl.
  - change (String c s1 +:+ String d s2) with (String c (s1 +:+ String d s2)).
    cbn [split]. destruct (Ascii.eqb c d); [by rewrite IH|].
    rewrite IH. rewrite (split_unfold d s1). done.
Qed.

Lemma before_after_absent d s :
  occurs d s = false → before d s = s ∧ after d s = None.
Proof.
  induction s as [|c s IH]; [done|]. cbn [occurs before after].
  destruct (Ascii.eqb c d); [done|]. cbn [orb]. intros H.
  destruct (IH H) as [-> ->]. done.
Qed.

Lemma before_after_first d s rest :
  occurs d s = false →
  before d (s +:+ String d rest) = s ∧
  after d (s +:+ String d rest) = Some rest.
Proof.
  induction s as [|c s IH].
  - change ("" +:+ String d rest) with (String d rest). cbn [before after].
    by rewrite Ascii.eqb_refl.
  - change (String c s +:+ String d rest) with (String c (s +:+ String d rest)).
    cbn [occurs before after].
    destruct (Ascii.eqb c d); [done|]. cbn [orb]. intros H.
    destruct (IH H) as [-> ->]. done.
Qed.

(** One pass of the loop of [parseHeaders] adds the entry of the token, if
    it has one. *)
Lemma parseHeaders_loop tokens headers :
  foldl
    (λ acc headerPair,
       headers ← acc;
       let nv := split "=" headerPair in
       if bool_decide (0 < length nv) then
         nv0 ← nv !! 0;
         if empty nv0 then Some headers
         else
           value ← (if bool_decide (1 < length nv) then nv !! 1
                    else Some EmptyString);
           Some (HTTPHeaders.add nv0 value headers)
       else Some headers)
    (Some headers) tokens
  = Some (headers ++ omap token_entry tokens).
Proof.
  revert headers. induction tokens as [|tok tokens IH]; intros headers.
  - cbn. by rewrite app_nil_r.
  - cbn [foldl omap list_omap]. cbn [mbind option_bind].
    rewrite (split_unfold "=" tok). unfold token_entry.
    cbn [length lookup list_lookup]. rewrite bool_decide_eq_true_2 by lia.
    cbn [mbind option_bind].
    destruct (empty (before "=" tok)); [by rewrite IH|].
    destruct (after "=" tok) as [fragments|].
    + rewrite (split_unfold "=" fragments). cbn [length lookup list_lookup].
      rewrite bool_decide_eq_true_2 by lia. cbn [mbind option_bind].
      rewrite IH. unfold HTTPHeaders.add. by rewrite <- app_assoc.
    + cbn [length]. rewrite bool_decide_eq_false_2 by lia.
      cbn [mbind option_bind].
      rewrite IH. unfold HTTPHeaders.add. by rewrite <- app_assoc.
Qed.

Lemma parseHeaders_entries s :
  parseHeaders s = Some (omap token_entry (split "," s)).
Proof. unfold parseHeaders. by rewrite parseHeaders_loop. Qed.

(** C6.  [parseHeaders] never fails: for every string it returns the
    entries of the comma-separated tokens, in the order of the tokens.  A
    token whose name, the part before the first [=], is empty has no entry;
    a token with a name and no [=] has the empty value; the value stops at
    the second [=] and what follows is dropped.  Parsing two specifications
    joined by a comma gives the entries of the first followed by those of
    the second, so that names given twice stay twice, in order.  The string
    "A=1,=2,B" gives A with value "1" and B with value "". *)
Theorem parseHeaders_total_and_ordered :
  (∀ s, parseHeaders s = Some (omap token_entry (split "," s))) ∧
  (∀ token, empty (before "=" token) = true → token_entry token = None) ∧
  (∀ token,
     occurs "=" token = false → empty token = false →
     token_entry token = Some (token, EmptyString)) ∧
  (∀ name value surplus,
     occurs "=" name = false → empty name = false →
     occurs "=" value = false →
     token_entry (name +:+ "=" +:+ value) = Some (name, value) ∧
     token_entry (name +:+ "=" +:+ value +:+ "=" +:+ surplus)
     = Some (name, value)) ∧
  (∀ s1 s2 h1 h2,
     parseHeaders s1 = Some h1 → parseHeaders s2 = Some h2 →
     parseHeaders (s1 +:+ "," +:+ s2) = Some (h1 ++ h2)) ∧
  parseHeaders "A=1,=2,B" = Some [("A", "1"); ("B", "")] ∧
  parseHeaders "a=1,b=2,a=3" = Some [("a", "1"); ("b", "2"); ("a", "3")].
Proof.
  split; [apply parseHeaders_entries|].
  split; [by intros token H; unfold token_entry; rewrite H|].
  split.
  { intros token Hno Hne. unfold token_entry.
    destruct (before_after_absent "=" token Hno) as [-> ->]. by rewrite Hne. }
  split.
  { intros name value surplus Hn Hne Hv. unfold token_entry. split.
    - destruct (before_after_first "=" name value Hn) as [Hb Ha].
      change ("=" +:+ value) with (String "=" value). rewrite Hb, Ha, Hne.
      by destruct (before_after_absent "=" value Hv) as [-> _].
    - destruct (before_after_first "=" name (value +:+ "=" +:+ surplus) Hn)
        as [Hb Ha].
      change ("=" +:+ value +:+ "=" +:+ surplus)
        with (String "=" (value +:+ "=" +:+ surplus)).
      rewrite Hb, Ha, Hne.
      change ("=" +:+ surplus) with (String "=" surplus).
      by destruct (before_after_first "=" value surplus Hv) as [-> _]. }
  split.
  { intros s1 s2 h1 h2. rewrite !parseHeaders_entries.
    intros [= <-] [= <-]. change ("," +:+ s2) with (String "," s2).
    by rewrite split_app, omap_app. }
  split; reflexivity.
Qed.

(** ** Forwarding a body chain *)

Lemma linked_nodes heap head addrs :
  linked heap head addrs = true → ∀ a, a ∈ addrs → is_Some (heap !! a).
Proof.
  induction addrs as [|a0 rest IH]; [done|]. cbn [linked].
  destruct (heap !! a0) as [n|] eqn:Hn; [|done]. intros Hl a Ha.
  apply elem_of_cons in Ha as [->|Ha]; [by rewrite Hn|].
  destruct rest as [|a' rest']; [by apply elem_of_nil in Ha|].
  apply andb_true_iff in Hl as [_ Hl]. by apply IH.
Qed.

Lemma segments_length heap head addrs :
  linked heap head addrs = true → length (segments heap addrs) = length addrs.
Proof.
  intros Hl. pose proof (linked_nodes heap head addrs Hl) as Hn. clear Hl.
  induction addrs as [|a rest IH]; [done|]. unfold segments in *.
  cbn [omap list_omap]. destruct (Hn a) as [n ->]; [by left|].
  cbn. f_equal. apply IH. intros a' Ha'. apply Hn. by right.
Qed.

(** A ring has no more nodes than the heap. *)
Lemma ring_size heap head addrs :
  ring heap head addrs → length addrs ≤ size heap.
Proof.
  intros (_ & Hnd & Hl).
  rewrite <- (size_list_to_set (C := gset nat) addrs Hnd), <- size_dom.
  apply subseteq_size. intros a Ha. apply elem_of_list_to_set in Ha.
  apply elem_of_dom. by eapply linked_nodes.
Qed.

(** From a node of a ring, the loop writes and flushes the buffers up to
    the last one and stops there; it makes as many passes as nodes are
    left. *)
Lemma onBody_loop_linked heap head rest p fuel out :
  linked heap head (p :: rest) = true →
  head ∉ rest →
  onBody_loop fuel heap head p out
  = if bool_decide (length (p :: rest) ≤ fuel)
    then Some (out ++ written (segments heap (p :: rest)))
    else None.
Proof.
  revert p fuel out. induction rest as [|a' rest IH]; intros p fuel out Hl Hh;
    cbn [linked] in Hl; destruct (heap !! p) as [n|] eqn:Hn; try done;
    (destruct fuel as [|fuel]; [by rewrite bool_decide_eq_false_2 by (cbn; lia)|]);
    cbn [onBody_loop]; rewrite Hn; cbn [mbind option_bind];
    unfold segments; cbn [omap list_omap]; rewrite Hn; cbn [fmap option_fmap option_map].
  - apply bool_decide_eq_true in Hl. rewrite Hl.
    rewrite (bool_decide_eq_false_2 (head ≠ head)) by (by intros ?).
    rewrite bool_decide_eq_true_2 by (cbn; lia).
    unfold written. cbn. by rewrite <- app_assoc.
  - apply andb_true_iff in Hl as [Hnext Hl].
    apply bool_decide_eq_true in Hnext. rewrite Hnext.
    apply not_elem_of_cons in Hh as [Hne Hh].
    rewrite (bool_decide_eq_true_2 (a' ≠ head)) by done.
    rewrite (IH a' fuel _ Hl Hh). unfold segments, written.
    cbn [length]. destruct (decide (S (length rest) ≤ fuel)) as [Hle|Hgt].
    + rewrite !bool_decide_eq_true_2 by lia. f_equal.
      cbn. by rewrite <- !app_assoc.
    + by rewrite !bool_decide_eq_false_2 by lia.
Qed.

(** C4.  With logging enabled, [onBody] on the head of a ring of buffers
    returns; it writes the bytes of every buffer of the ring once, as they
    are, in the order of the ring from the head, with a flush after each;
    it changes nothing else; and the loop makes one pass per buffer, no
    fewer and no more: it stops when [next] gives the head again. *)
Theorem onBody_forwards_ring_once_in_order
    (heap : IOBufChain.heap) (head : nat) (addrs : list nat) (w : World) :
  loggingEnabled_ (client w) = true →
  ring heap head addrs →
  (∃ w',
     onBody heap (Some head) w = Some w' ∧
     client w' = client w ∧
     output w' = output w ++ written (segments heap addrs)) ∧
  length (segments heap addrs) = length addrs ∧
  (∀ fuel out,
     onBody_loop fuel heap head head out
     = if bool_decide (length addrs ≤ fuel)
       then Some (out ++ written (segments heap addrs))
       else None) ∧
  (∀ n, heap !! head = Some n → IOBufChain.next n = head →
        addrs = [head]).
Proof.
  intros Hlog (Hhd & Hnd & Hl).
  destruct addrs as [|a rest]; [done|]. injection Hhd as ->.
  apply NoDup_cons in Hnd as [Hh Hnd'].
  assert (Hloop : ∀ fuel out,
    onBody_loop fuel heap head head out
    = if bool_decide (length (head :: rest) ≤ fuel)
      then Some (out ++ written (segments heap (head :: rest)))
      else None) by (intros; by apply onBody_loop_linked).
  split; [|split; [by eapply segments_length|split; [done|]]].
  - unfold onBody. rewrite Hlog. cbn [negb]. rewrite Hloop.
    rewrite bool_decide_eq_true_2.
    + by eexists.
    + apply (ring_size heap head). split; [done|]. split; [|done].
      by apply NoDup_cons.
  - intros n Hn Hnext. cbn [linked] in Hl. rewrite Hn in Hl.
    destruct rest as [|a' rest']; [done|].
    apply andb_true_iff in Hl as [Ha' _]. apply bool_decide_eq_true in Ha'.
    exfalso. apply Hh. rewrite <- Hnext, Ha'. by left.
Qed.

Lemma onBody_forwards_ring_once_in_order_witness :
  (∃ w',
     onBody Sample.chain (Some 10) (Sample.getter true false) = Some w' ∧
     client w' = client (Sample.getter true false) ∧
     output w'
     = output (Sample.getter true false)
       ++ written (segments Sample.chain [10; 20; 30])) ∧
  length (segments Sample.chain [10; 20; 30]) = length [10; 20; 30] ∧
  (∀ fuel out,
     onBody_loop fuel Sample.chain 10 10 out
     = if bool_decide (length [10; 20; 30] ≤ fuel)
       then Some (out ++ written (segments Sample.chain [10; 20; 30]))
       else None) ∧
  (∀ n, Sample.chain !! 10 = Some n → IOBufChain.next n = 10 →
        [10; 20; 30] = [10]).
Proof.
  apply (onBody_forwards_ring_once_in_order Sample.chain 10 [10; 20; 30]
           (Sample.getter true false)).
  - reflexivity.
  - split; [reflexivity|]. split; [|vm_compute; reflexivity].
    apply (bool_decide_unpack _). vm_compute. exact I.
Defined.

(** ** Sample runs *)

(** A POST of 5000 bytes on a transport that pauses egress during the first
    [sendBody]: the feeder stops after 4096 bytes and sends the other 904
    and the end of the message when resumed. *)
Example paused_after_first_buffer :
  outline ∘ txn_history
    <$> exchange (Sample.disk (Sample.body 5000)) Sample.full_once
          [EgressResumed] (Sample.poster false [])
  = Some [inl "headers"; inr 4096%Z; inl "paused"; inl "resumed";
          inr 904%Z; inl "EOM"].
Proof. vm_compute. reflexivity. Qed.

(** A source of exactly two chunks: the stream is still good after the
    second read, so a third, empty buffer is sent. *)
Example two_full_chunks_then_empty :
  outline ∘ txn_history
    <$> exchange (Sample.disk (Sample.body 8192)) Sample.never_full []
          (Sample.poster false [])
  = Some [inl "headers"; inr 4096%Z; inr 4096%Z; inr 0%Z; inl "EOM"].
Proof. vm_compute. reflexivity. Qed.

(** A GET with logging disabled: one [sendHeaders], one [sendEOM], nothing
    written. *)
Example get_without_logging :
  (λ w, (outline (txn_history w), output w))
    <$> exchange (Sample.disk []) Sample.never_full [EOM]
          (Sample.getter false false)
  = Some ([inl "headers"; inl "EOM"], []).
Proof. vm_compute. reflexivity. Qed.

(** A caller's "user-agent", in lower case, keeps the default User-Agent
    out; Host and Accept are added. *)
Example caller_user_agent_kept :
  HTTPMessage.headers
    (sent_request (client (Sample.poster false [("user-agent", "mine")])))
  = [("user-agent", "mine"); ("Host", "example.org:8080"); ("Accept", "*/*")].
Proof. vm_compute. reflexivity. Qed.

(** * More of the driver *)

(** ** What is written when logging is disabled *)

Lemma txn_sendBody_silent buf w w' :
  txn_sendBody buf w = Some w' →
  loggingEnabled_ (client w) = false →
  output w' = output w.
Proof.
  unfold txn_sendBody. destruct (txn_ (client w)) as [txn|]; [|done].
  cbn [mbind option_bind]. destruct (HTTPTransaction.sendBody buf txn) as [txn' []];
    intros [= <-] Hlog; [|done].
  unfold onEgressPaused, LOG_IF_logging. destruct w as [c out].
  cbn [client on_client output] in *.
  replace (loggingEnabled_ (set_txn (Some txn') c)) with (loggingEnabled_ c)
    by (by destruct c).
  by rewrite Hlog.
Qed.

Lemma sendBodyFromFile_loop_silent fuel w w' :
  sendBodyFromFile_loop fuel w = Some w' →
  loggingEnabled_ (client w) = false →
  output w' = output w.
Proof.
  revert w. induction fuel as [|fuel IH]; intros w Hrun Hlog;
    rewrite sendBodyFromFile_loop_unfold in Hrun;
    destruct (inputFile_ (client w)) as [f|] eqn:Hf; try discriminate;
    destruct (Ifstream.good f && negb (egressPaused_ (client w))) eqn:Hc;
    try discriminate.
  1, 3: by injection Hrun as <-.
  destruct (txn_sendBody _ _) as [w1|] eqn:Hsb; [|done].
  pose proof (txn_sendBody_silent _ _ _ Hsb) as Ho.
  assert (Hl1 : loggingEnabled_ (client w1) = false).
  { unfold txn_sendBody in Hsb.
    destruct (txn_ _) as [txn|] eqn:Ht; [|done]. cbn [mbind option_bind] in Hsb.
    destruct (HTTPTransaction.sendBody _ txn) as [txn' []];
      injection Hsb as <-; unfold onEgressPaused, LOG_IF_logging;
      destruct w as [c out]; cbn [client on_client] in *;
      destruct c as [? ? ? ? ? ? ? ? lg]; cbn in *; by subst lg. }
  rewrite (IH w1 Hrun Hl1). rewrite Ho; by destruct w.
Qed.

Lemma sendBodyFromFile_silent w w' :
  sendBodyFromFile w = Some w' →
  loggingEnabled_ (client w) = false →
  output w' = output w.
Proof.
  unfold sendBodyFromFile. intros H Hlog.
  destruct (inputFile_ (client w)) as [f|]; [|done].
  cbn [mbind option_bind] in H.
  destruct (sendBodyFromFile_loop _ w) as [w1|] eqn:Hrun; [|done].
  cbn [mbind option_bind] in H.
  rewrite <- (sendBodyFromFile_loop_silent _ _ _ Hrun Hlog).
  destruct (negb (egressPaused_ (client w1))); [|by injection H as <-].
  unfold txn_sendEOM in H. destruct (txn_ (client w1)); [|done].
  injection H as <-. by destruct w1.
Qed.

Lemma sendRequest_silent fs txn w w' :
  sendRequest fs txn w = Some w' →
  loggingEnabled_ (client w) = false →
  output w' = output w.
Proof.
  intros H Hlog. destruct w as [c out]. unfold sendRequest in H.
  cbn [client output] in *.
  replace (loggingEnabled_ (set_request _ _)) with (loggingEnabled_ c) in H
    by (by destruct c).
  rewrite Hlog in H.
  match type of H with
  | context [txn_sendHeaders ?m ?w0] =>
      destruct (txn_sendHeaders m w0) as [w1|] eqn:Hsh;
      [|done];
      assert (Hw1 : output w1 = out ∧ loggingEnabled_ (client w1) = false)
  end.
  { unfold txn_sendHeaders in Hsh.
    destruct (partiallyReliable_ _); cbn [client on_client] in Hsh;
      (destruct (txn_ _); [|done]); injection Hsh as <-;
      cbn [output client on_client]; split; try done;
      destruct c as [? ? ? ? ? ? ? ? lg]; cbn in *; by subst lg. }
  destruct Hw1 as [Ho Hl]. cbn [mbind option_bind] in H.
  destruct (HTTPMethod_eqb _ POST).
  - apply sendBodyFromFile_silent in H; [|by destruct w1].
    rewrite H. by destruct w1.
  - unfold txn_sendEOM in H. destruct (txn_ (client w1)); [|done].
    injection H as <-. by destruct w1.
Qed.

(** No callback changes [loggingEnabled_], and with logging disabled none
    writes anything. *)
Lemma deliver_silent e w w' :
  deliver e w = Some w' →
  loggingEnabled_ (client w') = loggingEnabled_ (client w) ∧
  (loggingEnabled_ (client w) = false → output w' = output w).
Proof.
  intros H. destruct w as [c out].
  destruct e as [| | | | | | | | | | |i []];
    cbn [deliver] in H;
    unfold setTransaction, detachTransaction, onHeadersComplete, onBody,
      onTrailers, onEOM, onUpgrade, onError, onPushedTransaction,
      printMessageImpl, CurlPushHandler.setTransaction,
      CurlPushHandler.detachTransaction, CurlPushHandler.onHeadersComplete,
      CurlPushHandler.onBody, CurlPushHandler.onEOM, CurlPushHandler.onError,
      CurlPushHandler.update, onBody, onError, printMessageImpl,
      onEgressPaused, txn_record in H;
    cbn [client output on_client emit] in H.
  10: { unfold onEgressResumed in H.
        match type of H with context [on_client (set_egressPaused false) ?x] =>
          set (w0 := on_client (set_egressPaused false) x) in H end.
        assert (Hw0 : loggingEnabled_ (client w0) = loggingEnabled_ c ∧
                      (loggingEnabled_ c = false → output w0 = out)).
        { subst w0. unfold LOG_IF_logging. cbn [client].
          destruct (txn_ c); by destruct c as [? ? ? ? ? ? ? ? []]. }
        destruct Hw0 as [Hl0 Ho0]. cbn [client output].
        destruct (inputFile_ (client w0)).
        - pose proof (sendBodyFromFile_frame _ _ H) as Hfr.
          apply feeder_frame_fields in Hfr as (_ & _ & _ & Hl & _).
          split; [congruence|]. intros Hoff.
          rewrite (sendBodyFromFile_silent _ _ H) by congruence. auto.
        - injection H as <-. auto. }
  all: crush_handler; cbn [client output on_client emit] in *;
    (split; [by destruct c|]); intros Hoff; try done;
    exfalso; destruct c as [? ? ? ? ? ? ? ? lg]; cbn in *; subst lg;
    cbn in *; congruence.
Qed.

Lemma run_silent events w w' :
  run events w = Some w' →
  loggingEnabled_ (client w') = loggingEnabled_ (client w) ∧
  (loggingEnabled_ (client w) = false → output w' = output w).
Proof.
  revert w. induction events as [|e events IH]; intros w H.
  - by injection H as <-.
  - cbn [run] in H. destruct (deliver e w) as [w1|] eqn:He; [|done].
    cbn [mbind option_bind] in H.
    destruct (deliver_silent e w w1 He) as [Hl Ho].
    destruct (IH w1 H) as [Hl' Ho']. split; [congruence|].
    intros Hoff. rewrite Ho' by congruence. auto.
Qed.

Lemma sendRequest_keeps_logging fs txn w w' :
  sendRequest fs txn w = Some w' →
  loggingEnabled_ (client w') = loggingEnabled_ (client w).
Proof.
  destruct (sendRequest_unfold fs txn w) as [out1 ->]. cbv zeta.
  destruct (HTTPMethod_eqb _ POST); intros H.
  - apply sendBodyFromFile_frame, feeder_frame_fields in H as (_ & _ & _ & -> & _).
    by destruct (client w).
  - unfold txn_sendEOM in H. cbn [client mbind option_bind] in H.
    replace (txn_ _) with
      (Some (HTTPTransaction.sendHeaders (sent_request (client w)) txn)) in H
      by (by destruct (client w)).
    cbn [mbind option_bind] in H. injection H as <-. by destruct (client w).
Qed.

(** X1.  With logging disabled, a whole exchange writes nothing: neither
    [sendRequest], nor the feeder, nor any callback of the driver or of its
    push handlers adds to the output, whatever the response carries; and
    the logging switch itself is never changed. *)
Theorem logging_disabled_writes_nothing
    (fs : Ifstream.filesystem) (policy : list HTTPTransaction.item → bool)
    (events : list Event) (w w' : World) :
  loggingEnabled_ (client w) = false →
  exchange fs policy events w = Some w' →
  output w' = output w ∧ loggingEnabled_ (client w') = false.
Proof.
  intros Hoff H. unfold exchange in H.
  destruct (sendRequest fs _ w) as [w1|] eqn:Hs; [|done].
  cbn [mbind option_bind] in H.
  pose proof (sendRequest_keeps_logging _ _ _ _ Hs) as Hl1.
  pose proof (sendRequest_silent _ _ _ _ Hs Hoff) as Ho1.
  destruct (run_silent events w1 w' H) as [Hl Ho].
  split; [|congruence]. rewrite Ho by congruence. done.
Qed.

Lemma logging_disabled_writes_nothing_witness :
  output (Sample.after
            (exchange (Sample.disk (Sample.body 5000)) Sample.full_once
               [HeadersComplete HTTPMessage.new; Body Sample.chain (Some 10);
                EgressResumed; Trailers; EOM]
               (Sample.silent_poster [])))
  = output (Sample.silent_poster []) ∧
  loggingEnabled_
    (client
       (Sample.after
          (exchange (Sample.disk (Sample.body 5000)) Sample.full_once
             [HeadersComplete HTTPMessage.new; Body Sample.chain (Some 10);
              EgressResumed; Trailers; EOM]
             (Sample.silent_poster []))))
  = false.
Proof.
  apply (logging_disabled_writes_nothing (Sample.disk (Sample.body 5000))
           Sample.full_once
           [HeadersComplete HTTPMessage.new; Body Sample.chain (Some 10);
            EgressResumed; Trailers; EOM]
           (Sample.silent_poster [])).
  - reflexivity.
  - vm_compute. reflexivity.
Defined.

(** ** Callbacks that carry the response *)

Lemma flow_event_false e :
  flow_event e = false → e ≠ EgressPaused ∧ e ≠ EgressResumed.
Proof. by destruct e. Qed.

(** X2.  The callbacks that carry the response (headers, body, trailers,
    end of message, upgrade, error, pushed transactions and everything
    delivered to push handlers) never make the driver send: whatever their
    number and order, the history of the transaction, the body source with
    its read cursor, the paused flag, the request and the upgrade flag are
    left as they were. *)
Theorem response_callbacks_send_nothing (events : list Event) (w w' : World) :
  forallb (λ e, negb (flow_event e)) events = true →
  run events w = Some w' →
  txn_ (client w') = txn_ (client w) ∧
  inputFile_ (client w') = inputFile_ (client w) ∧
  egressPaused_ (client w') = egressPaused_ (client w) ∧
  request_ (client w') = request_ (client w) ∧
  h2c_ (client w') = h2c_ (client w).
Proof.
  intros Hev Hrun.
  destruct (run_keeps_request events w w' Hrun) as [Hh Hr].
  assert (Hcore : feeder_core w' = feeder_core w).
  { clear Hh Hr. revert w Hrun.
    induction events as [|e events IH]; intros w H.
    - by injection H as <-.
    - cbn [forallb] in Hev. apply andb_true_iff in Hev as [He Hev].
      apply negb_true_iff, flow_event_false in He as [Hp Hr].
      cbn [run] in H. destruct (deliver e w) as [w1|] eqn:Hd; [|done].
      cbn [mbind option_bind] in H.
      rewrite (IH Hev w1 H). by eapply deliver_other. }
  unfold feeder_core in Hcore. injection Hcore as -> -> ->. done.
Qed.

Lemma response_callbacks_send_nothing_witness :
  txn_ (client (Sample.after
                  (run [HeadersComplete HTTPMessage.new;
                        Body Sample.chain (Some 10); PushedTransaction 3;
                        Pushed 0 (PushHeadersComplete HTTPMessage.new);
                        Trailers; EOM; Error "reset"] Sample.posted)))
  = txn_ (client Sample.posted) ∧
  inputFile_ (client (Sample.after
                  (run [HeadersComplete HTTPMessage.new;
                        Body Sample.chain (Some 10); PushedTransaction 3;
                        Pushed 0 (PushHeadersComplete HTTPMessage.new);
                        Trailers; EOM; Error "reset"] Sample.posted)))
  = inputFile_ (client Sample.posted) ∧
  egressPaused_ (client (Sample.after
                  (run [HeadersComplete HTTPMessage.new;
                        Body Sample.chain (Some 10); PushedTransaction 3;
                        Pushed 0 (PushHeadersComplete HTTPMessage.new);
                        Trailers; EOM; Error "reset"] Sample.posted)))
  = egressPaused_ (client Sample.posted) ∧
  request_ (client (Sample.after
                  (run [HeadersComplete HTTPMessage.new;
                        Body Sample.chain (Some 10); PushedTransaction 3;
                        Pushed 0 (PushHeadersComplete HTTPMessage.new);
                        Trailers; EOM; Error "reset"] Sample.posted)))
  = request_ (client Sample.posted) ∧
  h2c_ (client (Sample.after
                  (run [HeadersComplete HTTPMessage.new;
                        Body Sample.chain (Some 10); PushedTransaction 3;
                        Pushed 0 (PushHeadersComplete HTTPMessage.new);
                        Trailers; EOM; Error "reset"] Sample.posted)))
  = h2c_ (client Sample.posted).
Proof.
  apply (response_callbacks_send_nothing
           [HeadersComplete HTTPMessage.new;
            Body Sample.chain (Some 10); PushedTransaction 3;
            Pushed 0 (PushHeadersComplete HTTPMessage.new);
            Trailers; EOM; Error "reset"] Sample.posted).
  - reflexivity.
  - vm_compute. reflexivity.
Defined.

(** ** One [sendHeaders], and first *)

Lemma sendBodyFromFile_loop_adds fuel w w' txn :
  txn_ (client w) = Some txn →
  sendBodyFromFile_loop fuel w = Some w' →
  ∃ txn' ext,
    txn_ (client w') = Some txn' ∧
    HTTPTransaction.history txn' = HTTPTransaction.history txn ++ ext ∧
    forallb not_headers ext = true.
Proof.
  revert w txn. induction fuel as [|fuel IH]; intros w txn Ht Hrun;
    rewrite sendBodyFromFile_loop_unfold in Hrun;
    destruct (inputFile_ (client w)) as [f|] eqn:Hf; try discriminate;
    destruct (Ifstream.good f && negb (egressPaused_ (client w))) eqn:Hc;
    try discriminate.
  1, 3: injection Hrun as <-; exists txn, []; by rewrite app_nil_r.
  assert (Ht0 : txn_ (client (on_client
                     (set_inputFile (Some (read_chunk f).2)) w)) = Some txn)
    by (by destruct w).
  destruct (txn_sendBody_spec (read_chunk f).1 _ txn Ht0)
    as (w1 & txn1 & Hsb & Ht1 & _ & _ & _ & Hh1).
  rewrite Hsb in Hrun.
  destruct (IH w1 txn1 Ht1 Hrun) as (txn' & ext & Ht' & Hh' & Hext).
  cbv zeta in Hh1.
  assert (∃ e1, HTTPTransaction.history txn1
                = HTTPTransaction.history txn ++ e1 ∧
                forallb not_headers e1 = true) as (e1 & He1 & Hn1).
  { destruct (HTTPTransaction.egress_full txn _); destruct Hh1 as [-> _];
      rewrite <- ?app_assoc; by eexists. }
  exists txn', (e1 ++ ext). split; [done|].
  split; [by rewrite Hh', He1, app_assoc|].
  rewrite forallb_app. by rewrite Hn1, Hext.
Qed.

Lemma sendBodyFromFile_adds w w' txn :
  txn_ (client w) = Some txn →
  sendBodyFromFile w = Some w' →
  ∃ txn' ext,
    txn_ (client w') = Some txn' ∧
    HTTPTransaction.history txn' = HTTPTransaction.history txn ++ ext ∧
    forallb not_headers ext = true.
Proof.
  intros Ht H. unfold sendBodyFromFile in H.
  destruct (inputFile_ (client w)) as [f|]; [|done].
  cbn [mbind option_bind] in H.
  destruct (sendBodyFromFile_loop _ w) as [w1|] eqn:Hrun; [|done].
  cbn [mbind option_bind] in H.
  destruct (sendBodyFromFile_loop_adds _ _ _ _ Ht Hrun)
    as (txn1 & ext & Ht1 & Hh1 & Hext).
  destruct (negb (egressPaused_ (client w1))).
  - unfold txn_sendEOM in H. rewrite Ht1 in H. injection H as <-.
    exists (HTTPTransaction.sendEOM txn1), (ext ++ [HTTPTransaction.SendEOM]).
    split; [by destruct w1 as [[] ?]|].
    split; [by cbn; rewrite Hh1, app_assoc|].
    rewrite forallb_app. by rewrite Hext.
  - injection H as <-. by exists txn1, ext.
Qed.

Lemma deliver_adds e w w' txn :
  txn_ (client w) = Some txn →
  deliver e w = Some w' →
  ∃ txn' ext,
    txn_ (client w') = Some txn' ∧
    HTTPTransaction.history txn' = HTTPTransaction.history txn ++ ext ∧
    forallb not_headers ext = true.
Proof.
  intros Ht H. destruct (flow_event e) eqn:Hfe.
  - destruct e; try done; cbn [deliver] in H; unfold txn_record in H;
      rewrite Ht in H.
    + injection H as <-.
      exists (HTTPTransaction.record HTTPTransaction.EgressPaused txn),
        [HTTPTransaction.EgressPaused].
      split; [|done]. unfold onEgressPaused, LOG_IF_logging.
      by destruct w as [[? ? ? ? ? ? ? ? []] ?].
    + unfold onEgressResumed in H.
      match type of H with context [on_client (set_egressPaused false) ?x] =>
        set (w0 := on_client (set_egressPaused false) x) in H end.
      assert (Ht0 : txn_ (client w0)
                = Some (HTTPTransaction.record HTTPTransaction.EgressResumed txn)).
      { subst w0. unfold LOG_IF_logging.
        by destruct w as [[? ? ? ? ? ? ? ? []] ?]. }
      destruct (inputFile_ (client w0)).
      * destruct (sendBodyFromFile_adds _ _ _ Ht0 H)
          as (txn' & ext & Ht' & Hh' & Hext).
        exists txn', (HTTPTransaction.EgressResumed :: ext).
        split; [done|]. split; [|done].
        rewrite Hh'. cbn. by rewrite <- app_assoc.
      * injection H as <-.
        by exists (HTTPTransaction.record HTTPTransaction.EgressResumed txn),
             [HTTPTransaction.EgressResumed].
  - apply flow_event_false in Hfe as [Hp Hr].
    pose proof (deliver_other e w w' Hp Hr H) as Hcore.
    unfold feeder_core in Hcore. injection Hcore as Ht' _ _.
    exists txn, []. rewrite app_nil_r. split; [congruence|done].
Qed.

Lemma run_adds events w w' txn :
  txn_ (client w) = Some txn →
  run events w = Some w' →
  ∃ txn' ext,
    txn_ (client w') = Some txn' ∧
    HTTPTransaction.history txn' = HTTPTransaction.history txn ++ ext ∧
    forallb not_headers ext = true.
Proof.
  revert w txn. induction events as [|e events IH]; intros w txn Ht H.
  - injection H as <-. exists txn, []. by rewrite app_nil_r.
  - cbn [run] in H. destruct (deliver e w) as [w1|] eqn:Hd; [|done].
    cbn [mbind option_bind] in H.
    destruct (deliver_adds e w w1 txn Ht Hd) as (txn1 & e1 & Ht1 & Hh1 & Hn1).
    destruct (IH w1 txn1 Ht1 H) as (txn' & e2 & Ht' & Hh' & Hn2).
    exists txn', (e1 ++ e2). split; [done|].
    split; [by rewrite Hh', Hh1, app_assoc|].
    rewrite forallb_app. by rewrite Hn1, Hn2.
Qed.

Lemma headers_count_not_headers ext :
  forallb not_headers ext = true → headers_count ext = 0.
Proof.
  unfold headers_count. induction ext as [|i ext IH]; [done|].
  cbn [forallb]. intros H. apply andb_true_iff in H as [Hi H].
  destruct i; try done; cbn; by apply IH.
Qed.

(** X3.  In every exchange, whatever the method, the state the driver
    starts in, the flow-control policy and the callbacks delivered, the
    request headers are sent exactly once and before anything else: the
    history of the transaction starts with the one [sendHeaders], which
    carries the request [sendRequest] has built, and holds no other. *)
Theorem headers_sent_once_and_first
    (fs : Ifstream.filesystem) (policy : list HTTPTransaction.item → bool)
    (events : list Event) (w w' : World) :
  exchange fs policy events w = Some w' →
  ∃ rest,
    txn_history w'
    = HTTPTransaction.SendHeaders (sent_request (client w)) :: rest ∧
    forallb not_headers rest = true ∧
    headers_count (txn_history w') = 1.
Proof.
  intros H. unfold exchange in H.
  destruct (sendRequest_returns fs (HTTPTransaction.new policy) w)
    as (w1 & rest1 & Hs & Hh1 & _).
  rewrite Hs in H. cbn [mbind option_bind] in H.
  cbn [HTTPTransaction.new HTTPTransaction.history app] in Hh1.
  unfold txn_history in Hh1.
  destruct (txn_ (client w1)) as [txn1|] eqn:Ht1; [|discriminate Hh1].
  assert (Hn1 : forallb not_headers rest1 = true).
  { destruct (sendRequest_unfold fs (HTTPTransaction.new policy) w) as [out1 Hu].
    rewrite Hu in Hs. cbv zeta in Hs.
    destruct (HTTPMethod_eqb _ POST).
    - match type of Hs with sendBodyFromFile ?w0 = _ =>
        destruct (sendBodyFromFile_adds w0 w1
                    (HTTPTransaction.sendHeaders (sent_request (client w))
                       (HTTPTransaction.new policy)))
          as (txn' & ext & Ht' & Hh' & Hext); [reflexivity|done|] end.
      assert (txn' = txn1) as -> by congruence.
      rewrite Hh1 in Hh'. cbn in Hh'. by injection Hh' as <-.
    - unfold txn_sendEOM in Hs. cbn in Hs. injection Hs as <-.
      cbn in Ht1. injection Ht1 as <-. cbn in Hh1. by injection Hh1 as <-. }
  destruct (run_adds events w1 w' txn1 Ht1 H) as (txn' & ext & Ht' & Hh' & Hext).
  exists (rest1 ++ ext). unfold txn_history. rewrite Ht', Hh', Hh1.
  split; [done|]. split; [by rewrite forallb_app, Hn1, Hext|].
  rewrite <- app_comm_cons.
  assert (Hcons : ∀ m l, headers_count (HTTPTransaction.SendHeaders m :: l)
                         = S (headers_count l)) by done.
  rewrite Hcons, headers_count_not_headers; [done|].
  by rewrite forallb_app, Hn1, Hext.
Qed.

Lemma headers_sent_once_and_first_witness :
  ∃ rest,
    txn_history
      (Sample.after
         (exchange (Sample.disk (Sample.body 5000)) Sample.full_once
            [EgressResumed; EgressResumed; EOM] (Sample.poster true [])))
    = HTTPTransaction.SendHeaders
        (sent_request (client (Sample.poster true []))) :: rest ∧
    forallb not_headers rest = true ∧
    headers_count
      (txn_history
         (Sample.after
            (exchange (Sample.disk (Sample.body 5000)) Sample.full_once
               [EgressResumed; EgressResumed; EOM] (Sample.poster true []))))
    = 1.
Proof.
  apply (headers_sent_once_and_first (Sample.disk (Sample.body 5000))
           Sample.full_once [EgressResumed; EgressResumed; EOM]
           (Sample.poster true [])).
  vm_compute. reflexivity.
Defined.

(** ** Requests without a body *)

Lemma deliver_without_source e w w' txn :
  inputFile_ (client w) = None →
  txn_ (client w) = Some txn →
  deliver e w = Some w' →
  inputFile_ (client w') = None ∧
  ∃ txn' ext,
    txn_ (client w') = Some txn' ∧
    HTTPTransaction.history txn' = HTTPTransaction.history txn ++ ext ∧
    forallb flow_item ext = true.
Proof.
  intros Hf Ht H. destruct (flow_event e) eqn:Hfe.
  - destruct e; try done; cbn [deliver] in H; unfold txn_record in H;
      rewrite Ht in H.
    + injection H as <-. unfold onEgressPaused, LOG_IF_logging.
      split; [by destruct w as [[? ? ? ? ? ? ? ? []] ?]|].
      exists (HTTPTransaction.record HTTPTransaction.EgressPaused txn),
        [HTTPTransaction.EgressPaused].
      split; [|done]. by destruct w as [[? ? ? ? ? ? ? ? []] ?].
    + unfold onEgressResumed in H.
      match type of H with context [on_client (set_egressPaused false) ?x] =>
        set (w0 := on_client (set_egressPaused false) x) in H end.
      assert (Hf0 : inputFile_ (client w0) = None).
      { subst w0. unfold LOG_IF_logging. rewrite <- Hf.
        by destruct w as [[? ? ? ? ? ? ? ? []] ?]. }
      assert (Ht0 : txn_ (client w0)
                = Some (HTTPTransaction.record HTTPTransaction.EgressResumed txn)).
      { subst w0. unfold LOG_IF_logging.
        by destruct w as [[? ? ? ? ? ? ? ? []] ?]. }
      rewrite Hf0 in H. injection H as <-. split; [done|].
      by exists (HTTPTransaction.record HTTPTransaction.EgressResumed txn),
           [HTTPTransaction.EgressResumed].
  - apply flow_event_false in Hfe as [Hp Hr].
    pose proof (deliver_other e w w' Hp Hr H) as Hcore.
    unfold feeder_core in Hcore. injection Hcore as Ht' Hf' _.
    split; [congruence|]. exists txn, []. rewrite app_nil_r.
    split; [congruence|done].
Qed.

(** X4.  A request whose method is not POST never opens a body source: on a
    driver that holds none, [sendRequest] sends the headers and at once the
    end of the message, even when egress is paused at that time, and
    whatever callbacks follow, [onEgressResumed] included, the driver sends
    nothing more: the rest of the history is the flow-control callbacks
    themselves. *)
Theorem request_without_body_sends_headers_and_eom_only
    (fs : Ifstream.filesystem) (policy : list HTTPTransaction.item → bool)
    (events : list Event) (w w' : World) :
  httpMethod_ (client w) ≠ POST →
  inputFile_ (client w) = None →
  exchange fs policy events w = Some w' →
  ∃ flow,
    txn_history w'
    = HTTPTransaction.SendHeaders (sent_request (client w))
        :: HTTPTransaction.SendEOM :: flow ∧
    forallb flow_item flow = true ∧
    sent_buffers (txn_history w') = [] ∧
    eom_count (txn_history w') = 1 ∧
    inputFile_ (client w') = None.
Proof.
  intros Hm Hf H. unfold exchange in H.
  destruct (sendRequest_unfold fs (HTTPTransaction.new policy) w) as [out1 Hu].
  rewrite Hu in H. cbv zeta in H.
  replace (HTTPMethod_eqb (httpMethod_ (client w)) POST) with false in H
    by (by destruct (httpMethod_ (client w))).
  unfold txn_sendEOM in H. cbn [client mbind option_bind] in H.
  match type of H with
  | context [txn_ ?c1] =>
      replace (txn_ c1) with
        (Some (HTTPTransaction.sendHeaders (sent_request (client w))
                 (HTTPTransaction.new policy))) in H by reflexivity
  end.
  cbn [mbind option_bind] in H.
  match type of H with run events ?x = _ => set (w1 := x) in H end.
  assert (Hinv : ∀ evs wa wb txn,
    inputFile_ (client wa) = None → txn_ (client wa) = Some txn →
    run evs wa = Some wb →
    inputFile_ (client wb) = None ∧
    ∃ txn' ext, txn_ (client wb) = Some txn' ∧
      HTTPTransaction.history txn' = HTTPTransaction.history txn ++ ext ∧
      forallb flow_item ext = true).
  { induction evs as [|e evs IH]; intros wa wb txn Hfa Hta Hr.
    - injection Hr as <-. split; [done|]. exists txn, [].
      by rewrite app_nil_r.
    - cbn [run] in Hr. destruct (deliver e wa) as [wc|] eqn:Hd; [|done].
      cbn [mbind option_bind] in Hr.
      destruct (deliver_without_source e wa wc txn Hfa Hta Hd)
        as (Hfc & txnc & e1 & Htc & Hhc & Hn1).
      destruct (IH wc wb txnc Hfc Htc Hr) as (Hfb & txn' & e2 & Ht' & Hh' & Hn2).
      split; [done|]. exists txn', (e1 ++ e2). split; [done|].
      split; [by rewrite Hh', Hhc, app_assoc|].
      by rewrite forallb_app, Hn1, Hn2. }
  destruct (Hinv events w1 w'
              (HTTPTransaction.sendEOM
                 (HTTPTransaction.sendHeaders (sent_request (client w))
                    (HTTPTransaction.new policy))))
    as (Hf' & txn' & flow & Ht' & Hh' & Hflow).
  { subst w1. cbn [client on_client]. rewrite <- Hf. by destruct (client w). }
  { subst w1. cbn [client on_client]. by destruct (client w). }
  { done. }
  exists flow. unfold txn_history. rewrite Ht', Hh'. cbn.
  split; [done|]. split; [done|].
  assert (Hb : ∀ l, forallb flow_item l = true →
             sent_buffers l = [] ∧ eom_count l = 0).
  { clear. induction l as [|i l IH]; [done|]. cbn [forallb]. intros H.
    apply andb_true_iff in H as [Hi H]. destruct (IH H) as [Hs He].
    destruct i; try done. }
  destruct (Hb flow Hflow) as [Hs He].
  unfold sent_buffers, eom_count in *. cbn. rewrite Hs, He. done.
Qed.

Lemma request_without_body_sends_headers_and_eom_only_witness :
  ∃ flow,
    txn_history
      (Sample.after
         (exchange (Sample.disk (Sample.body 5000)) Sample.never_full
            [EgressPaused; HeadersComplete HTTPMessage.new; EgressResumed;
             EOM; EgressResumed] (Sample.getter true false)))
    = HTTPTransaction.SendHeaders
        (sent_request (client (Sample.getter true false)))
        :: HTTPTransaction.SendEOM :: flow ∧
    forallb flow_item flow = true ∧
    sent_buffers
      (txn_history
         (Sample.after
            (exchange (Sample.disk (Sample.body 5000)) Sample.never_full
               [EgressPaused; HeadersComplete HTTPMessage.new; EgressResumed;
                EOM; EgressResumed] (Sample.getter true false)))) = [] ∧
    eom_count
      (txn_history
         (Sample.after
            (exchange (Sample.disk (Sample.body 5000)) Sample.never_full
               [EgressPaused; HeadersComplete HTTPMessage.new; EgressResumed;
                EOM; EgressResumed] (Sample.getter true false)))) = 1 ∧
    inputFile_
      (client
         (Sample.after
            (exchange (Sample.disk (Sample.body 5000)) Sample.never_full
               [EgressPaused; HeadersComplete HTTPMessage.new; EgressResumed;
                EOM; EgressResumed] (Sample.getter true false)))) = None.
Proof.
  apply (request_without_body_sends_headers_and_eom_only
           (Sample.disk (Sample.body 5000)) Sample.never_full
           [EgressPaused; HeadersComplete HTTPMessage.new; EgressResumed;
            EOM; EgressResumed] (Sample.getter true false)).
  - discriminate.
  - reflexivity.
  - vm_compute. reflexivity.
Defined.

(** ** The feeder on a source of any length *)

(** With egress never paused, the loop reads the source to its end: one
    buffer for every [kReadSize] bytes and one more for what is left, which
    may be nothing; the buffer of rank [i] holds the bytes from offset
    [i * kReadSize] on. *)
Lemma sendBodyFromFile_loop_never_full fuel w f txn :
  inputFile_ (client w) = Some f →
  txn_ (client w) = Some txn →
  Ifstream.good f = true →
  egressPaused_ (client w) = false →
  (∀ h, HTTPTransaction.egress_full txn h = false) →
  length (Ifstream.unread f) < fuel →
  ∃ w' txn' bufs,
    sendBodyFromFile_loop fuel w = Some w' ∧
    txn_ (client w') = Some txn' ∧
    HTTPTransaction.history txn'
    = HTTPTransaction.history txn ++ (HTTPTransaction.SendBody <$> bufs) ∧
    egressPaused_ (client w') = false ∧
    length bufs = length (Ifstream.unread f) / kReadSize + 1 ∧
    ∀ i b, bufs !! i = Some b →
           IOBuf.data b
           = take kReadSize (drop (i * kReadSize) (Ifstream.unread f)).
Proof.
  revert w f txn. induction fuel as [|fuel IH];
    intros w f txn Hf Ht Hg Hp Hpol Hfuel; [lia|].
  destruct (sendBodyFromFile_loop_pass fuel w f txn Hf Ht Hg Hp (Hpol _))
    as (w1 & -> & Hf1 & Ht1 & Hp1).
  pose proof kReadSize_pos as Hk.
  destruct (decide (length (Ifstream.unread f) < kReadSize)) as [Hshort|Hfull].
  - destruct (read_chunk_short f Hg Hshort) as (Hd & Hg1).
    rewrite (sendBodyFromFile_loop_stop fuel w1 _ Hf1 Hg1).
    eexists w1, _, [(read_chunk f).1]. split; [done|]. split; [exact Ht1|].
    split; [done|]. split; [done|].
    split; [by rewrite Nat.div_small|].
    intros [|i] b Hb; [|done]. injection Hb as <-.
    rewrite Hd. change (0 * kReadSize) with 0. rewrite drop_0.
    by rewrite take_ge by lia.
  - destruct (read_chunk_full f Hg) as (Hd & _ & Hg1 & Hu1); [lia|].
    destruct (IH w1 (read_chunk f).2 _ Hf1 Ht1 Hg1 Hp1)
      as (w' & txn' & bufs & Hrun & Ht' & Hh' & Hp' & Hlen & Hbufs).
    { intros h. apply Hpol. }
    { rewrite Hu1, length_drop. lia. }
    exists w', txn', ((read_chunk f).1 :: bufs).
    split; [done|]. split; [done|].
    split; [by rewrite Hh'; cbn; rewrite <- app_assoc|]. split; [done|].
    split.
    + cbn [length]. rewrite Hlen, Hu1, length_drop.
      replace (length (Ifstream.unread f))
        with ((length (Ifstream.unread f) - kReadSize) + 1 * kReadSize) at 2
        by lia.
      rewrite Nat.div_add by lia. lia.
    + intros [|i] b Hb.
      * injection Hb as <-. by rewrite Hd.
      * cbn in Hb. rewrite (Hbufs i b Hb), Hu1, drop_drop.
        first [done | do 2 f_equal; lia].
Qed.

(** X5.  A POST of a body source of any length [n], with egress never
    paused: [sendRequest] returns; after the headers the feeder makes
    [n / 4096 + 1] [sendBody] calls and then one [sendEOM]; the buffer of
    rank [i] holds the bytes of the source from offset [i * 4096], 4096 of
    them or what is left, so that the last buffer holds the [n mod 4096]
    bytes left over (none when [n] is a multiple of 4096, the empty source
    included), and the buffers joined are the source. *)
Theorem post_sends_source_in_chunks
    (data : list byte) (fs : Ifstream.filesystem)
    (policy : list HTTPTransaction.item → bool) (w : World) :
  httpMethod_ (client w) = POST →
  fs (inputFilename_ (client w)) = Some data →
  egressPaused_ (client w) = false →
  (∀ h, policy h = false) →
  ∃ w' bufs,
    sendRequest fs (HTTPTransaction.new policy) w = Some w' ∧
    txn_history w'
    = HTTPTransaction.SendHeaders (sent_request (client w))
        :: (HTTPTransaction.SendBody <$> bufs) ++ [HTTPTransaction.SendEOM] ∧
    length bufs = length data / kReadSize + 1 ∧
    (∀ i b, bufs !! i = Some b →
            IOBuf.data b = take kReadSize (drop (i * kReadSize) data)) ∧
    (∀ b, last bufs = Some b →
          length (IOBuf.data b) = length data mod kReadSize) ∧
    mjoin (IOBuf.data <$> bufs) = data.
Proof.
  intros Hm Hfs Hp Hpol.
  destruct (sendRequest_unfold fs (HTTPTransaction.new policy) w) as [out1 ->].
  cbv zeta. rewrite Hm. cbn [HTTPMethod_eqb].
  unfold Ifstream.open. rewrite Hfs.
  set (f0 := Ifstream.mk data 0 false false false 0).
  set (msg := sent_request (client w)).
  set (txn0 := HTTPTransaction.sendHeaders msg (HTTPTransaction.new policy)).
  match goal with |- context [sendBodyFromFile ?x] => set (w0 := x) end.
  assert (Hf0 : inputFile_ (client w0) = Some f0) by reflexivity.
  assert (Ht0 : txn_ (client w0) = Some txn0) by reflexivity.
  assert (Hp0 : egressPaused_ (client w0) = false)
    by (rewrite <- Hp; reflexivity).
  assert (Hu0 : Ifstream.unread f0 = data) by reflexivity.
  rewrite (sendBodyFromFile_unfold w0 f0 Hf0).
  destruct (sendBodyFromFile_loop_never_full (S (length (Ifstream.unread f0)))
              w0 f0 txn0 Hf0 Ht0 eq_refl Hp0)
    as (w1 & txn1 & bufs & -> & Ht1 & Hh1 & Hp1 & Hlen & Hbufs);
    [intros h; apply Hpol|lia|].
  rewrite Hu0 in Hlen, Hbufs. rewrite Hp1. cbn [negb].
  destruct (txn_sendEOM_history w1 txn1 Ht1) as (w' & -> & Hh & _).
  exists w', bufs. split; [done|].
  split; [by rewrite Hh, Hh1|]. split; [done|]. split; [done|].
  pose proof kReadSize_pos as Hk.
  assert (Hdata : ∀ i, i ≤ length data / kReadSize →
            mjoin (IOBuf.data <$> take i bufs) = take (i * kReadSize) data).
  { induction i as [|i IHi]; intros Hi; [by rewrite take_0|].
    destruct (lookup_lt_is_Some_2 bufs i) as [b Hb]; [lia|].
    rewrite (take_S_r _ _ _ Hb), fmap_app, join_app, IHi by lia.
    change (mjoin (IOBuf.data <$> [b])) with (IOBuf.data b ++ []).
    rewrite app_nil_r, (Hbufs i b Hb).
    rewrite take_take_drop. f_equal. lia. }
  split.
  - intros b Hb. rewrite last_lookup, Hlen in Hb.
    replace (Init.Nat.pred (length data / kReadSize + 1))
      with (length data / kReadSize) in Hb by lia.
    rewrite (Hbufs _ b Hb), length_take, length_drop.
    pose proof (Nat.div_mod_eq (length data) kReadSize).
    pose proof (Nat.mod_upper_bound (length data) kReadSize). nia.
  - destruct (lookup_lt_is_Some_2 bufs (length data / kReadSize)) as [b Hb];
      [lia|].
    rewrite <- (take_drop (length data / kReadSize) bufs) at 1.
    rewrite fmap_app, join_app, Hdata by done.
    rewrite (drop_S _ _ _ Hb), drop_ge by lia.
    change (mjoin (IOBuf.data <$> [b])) with (IOBuf.data b ++ []).
    rewrite app_nil_r, (Hbufs _ b Hb), take_take_drop.
    apply take_ge.
    pose proof (Nat.div_mod_eq (length data) kReadSize).
    pose proof (Nat.mod_upper_bound (length data) kReadSize). nia.
Qed.

Lemma post_sends_source_in_chunks_witness :
  ∃ w' bufs,
    sendRequest (Sample.disk (Sample.body 8192))
      (HTTPTransaction.new Sample.never_full) (Sample.poster false [])
    = Some w' ∧
    txn_history w'
    = HTTPTransaction.SendHeaders
        (sent_request (client (Sample.poster false [])))
        :: (HTTPTransaction.SendBody <$> bufs) ++ [HTTPTransaction.SendEOM] ∧
    length bufs = length (Sample.body 8192) / kReadSize + 1 ∧
    (∀ i b, bufs !! i = Some b →
            IOBuf.data b
            = take kReadSize (drop (i * kReadSize) (Sample.body 8192))) ∧
    (∀ b, last bufs = Some b →
          length (IOBuf.data b) = length (Sample.body 8192) mod kReadSize) ∧
    mjoin (IOBuf.data <$> bufs) = Sample.body 8192.
Proof.
  apply (post_sends_source_in_chunks (Sample.body 8192)
           (Sample.disk (Sample.body 8192)) Sample.never_full
           (Sample.poster false [])).
  - reflexivity.
  - reflexivity.
  - reflexivity.
  - intros h. reflexivity.
Defined.

(** X6.  When egress is already paused as [sendRequest] runs a POST, the
    driver sends the headers and nothing else: it opens the body source but
    reads nothing from it, sends no body and no end of message, and stays
    paused; the body is left for [onEgressResumed]. *)
Theorem post_while_paused_sends_headers_only
    (fs : Ifstream.filesystem) (txn : HTTPTransaction.t) (w : World) :
  httpMethod_ (client w) = POST →
  egressPaused_ (client w) = true →
  ∃ w',
    sendRequest fs txn w = Some w' ∧
    txn_history w'
    = HTTPTransaction.history txn
        ++ [HTTPTransaction.SendHeaders (sent_request (client w))] ∧
    inputFile_ (client w')
    = Some (Ifstream.open fs (inputFilename_ (client w))) ∧
    egressPaused_ (client w') = true.
Proof.
  intros Hm Hp.
  destruct (sendRequest_unfold fs txn w) as [out1 ->].
  cbv zeta. rewrite Hm. cbn [HTTPMethod_eqb].
  match goal with |- context [sendBodyFromFile ?x] => set (w0 := x) end.
  assert (Hf0 : inputFile_ (client w0)
                = Some (Ifstream.open fs (inputFilename_ (client w))))
    by reflexivity.
  assert (Hp0 : egressPaused_ (client w0) = true)
    by (rewrite <- Hp; reflexivity).
  rewrite (sendBodyFromFile_unfold w0 _ Hf0).
  rewrite sendBodyFromFile_loop_unfold, Hf0, Hp0, andb_false_r, Hp0.
  cbn [negb]. exists w0. split; [done|]. split; [reflexivity|]. done.
Qed.

Lemma post_while_paused_sends_headers_only_witness :
  ∃ w',
    sendRequest (Sample.disk (Sample.body 3))
      (HTTPTransaction.new Sample.never_full)
      (on_client (set_egressPaused true) (Sample.poster false []))
    = Some w' ∧
    txn_history w'
    = HTTPTransaction.history (HTTPTransaction.new Sample.never_full)
        ++ [HTTPTransaction.SendHeaders
              (sent_request
                 (client (on_client (set_egressPaused true)
                            (Sample.poster false []))))] ∧
    inputFile_ (client w')
    = Some (Ifstream.open (Sample.disk (Sample.body 3))
              (inputFilename_
                 (client (on_client (set_egressPaused true)
                            (Sample.poster false []))))) ∧
    egressPaused_ (client w') = true.
Proof.
  apply (post_while_paused_sends_headers_only (Sample.disk (Sample.body 3))
           (HTTPTransaction.new Sample.never_full)
           (on_client (set_egressPaused true) (Sample.poster false [])));
    reflexivity.
Defined.

(** ** Header specifications, there and back *)

Lemma occurs_app d a b : occurs d (a +:+ b) = occurs d a || occurs d b.
Proof.
  induction a as [|c a IH]; [done|].
  change (String c a +:+ b) with (String c (a +:+ b)). cbn [occurs].
  by rewrite IH, orb_assoc.
Qed.

Lemma split_absent d s : occurs d s = false → split d s = [s].
Proof.
  intros H. rewrite split_unfold.
  by destruct (before_after_absent d s H) as [-> ->].
Qed.

Lemma token_entry_render nv :
  plain_header nv → token_entry (render_token nv) = Some nv.
Proof.
  destruct nv as [n v]. intros (Hne & Hn & _ & Hv & _). cbn [fst snd] in *.
  unfold token_entry, render_token. cbn [fst snd].
  change ("=" +:+ v) with (String "=" v).
  destruct (before_after_first "=" n v Hn) as [-> ->]. rewrite Hne.
  by destruct (before_after_absent "=" v Hv) as [-> _].
Qed.

Lemma render_token_no_comma nv :
  plain_header nv → occurs "," (render_token nv) = false.
Proof.
  destruct nv as [n v]. intros (_ & _ & Hn & _ & Hv). cbn [fst snd] in *.
  unfold render_token. cbn [fst snd]. change ("=" +:+ v) with (String "=" v).
  rewrite occurs_app. cbn [occurs]. by rewrite Hn, Hv.
Qed.

Lemma render_cons nv rest :
  rest ≠ [] →
  render (nv :: rest) = render_token nv +:+ String "," (render rest).
Proof. by destruct rest. Qed.

Lemma entries_of_render headers :
  Forall plain_header headers →
  omap token_entry (split "," (render headers)) = headers.
Proof.
  induction 1 as [|nv rest Hnv Hrest IH]; [done|].
  assert (Hr : rest = [] ∨ rest ≠ []) by (destruct rest; auto).
  destruct Hr as [->|Hr].
  - cbn [render]. rewrite split_absent by by apply render_token_no_comma.
    cbn. by rewrite token_entry_render.
  - rewrite render_cons by done.
    rewrite split_app, split_absent by by apply render_token_no_comma.
    cbn [app omap list_omap]. rewrite token_entry_render by done.
    by rewrite IH.
Qed.

(** X7.  Round trip: headers written out as a specification, [name=value]
    tokens separated by commas, parse back to the same headers, in the same
    order and with names given twice kept twice, provided every name is not
    empty and no name or value holds [=] or [,]; the empty list goes through
    the empty string. *)
Theorem parseHeaders_of_render (headers : list (string * string)) :
  Forall plain_header headers →
  parseHeaders (render headers) = Some headers.
Proof.
  intros Hall. by rewrite parseHeaders_entries, entries_of_render.
Qed.

Lemma parseHeaders_of_render_witness :
  parseHeaders (render [("Accept", "text/html"); ("x", ""); ("Accept", "*")])
  = Some [("Accept", "text/html"); ("x", ""); ("Accept", "*")].
Proof.
  apply (parseHeaders_of_render
           [("Accept", "text/html"); ("x", ""); ("Accept", "*")]).
  repeat constructor.
Defined.

Lemma occurs_before c d s :
  occurs c s = false → occurs c (before d s) = false.
Proof.
  induction s as [|a s IH]; [done|]. cbn [occurs before].
  intros H. apply orb_false_iff in H as [Ha Hs].
  destruct (Ascii.eqb a d); [done|]. cbn [occurs]. by rewrite Ha, IH.
Qed.

Lemma occurs_before_self d s : occurs d (before d s) = false.
Proof.
  induction s as [|a s IH]; [done|]. cbn [before].
  destruct (Ascii.eqb a d) eqn:E; [done|]. cbn [occurs]. by rewrite E, IH.
Qed.

Lemma occurs_after c d s rest :
  occurs c s = false → after d s = Some rest → occurs c rest = false.
Proof.
  induction s as [|a s IH]; [done|]. cbn [occurs after].
  intros H. apply orb_false_iff in H as [Ha Hs].
  destruct (Ascii.eqb a d); [by intros [= <-]|]. by apply IH.
Qed.

Lemma split_pieces d s : Forall (λ p, occurs d p = false) (split d s).
Proof.
  induction s as [|a s IH]; [by repeat constructor|]. cbn [split].
  destruct (Ascii.eqb a d) eqn:E; [by constructor|].
  destruct (split d s) as [|p ps]; [by repeat constructor; cbn; rewrite E|].
  apply Forall_cons in IH as [Hp Hps]. constructor; [|done].
  cbn [occurs]. by rewrite E, Hp.
Qed.

(** X8.  Whatever the string, every header [parseHeaders] returns has a name
    that is not empty, and neither its name nor its value holds [=] or [,]:
    what is parsed can always be written out and parsed again to the same
    headers. *)
Theorem parseHeaders_gives_plain_headers (s : string) :
  ∃ headers,
    parseHeaders s = Some headers ∧
    Forall plain_header headers ∧
    parseHeaders (render headers) = Some headers.
Proof.
  exists (omap token_entry (split "," s)).
  split; [apply parseHeaders_entries|].
  assert (Hplain : Forall plain_header (omap token_entry (split "," s))).
  { pose proof (split_pieces "," s) as Hp.
    induction Hp as [|tok toks Htok _ IH]; [constructor|].
    cbn [omap list_omap]. unfold token_entry at 1.
    destruct (empty (before "=" tok)) eqn:Hne; [done|].
    constructor; [|done]. unfold plain_header. cbn [fst snd].
    split; [done|]. split; [apply occurs_before_self|].
    split; [by apply occurs_before|].
    destruct (after "=" tok) as [fragments|] eqn:Ha; [|done].
    split; [apply occurs_before_self|].
    apply occurs_before. by eapply occurs_after. }
  split; [done|].
  by rewrite parseHeaders_entries, entries_of_render.
Qed.

(** ** The TLS context *)

(** X9.  [initializeSsl] makes a new context, whatever the driver held:
    compression is switched off and the cipher list set first, the
    advertised protocols, the pieces of [nextProtos] between commas in
    order, set last; in between, the trusted certificates are loaded if and
    only if [caPath] is not empty, and the certificate and key if and only
    if neither [certPath] nor [keyPath] is empty, so that a certificate
    given without a key is passed over.  Nothing of the driver changes but
    the context and the upgrade flag, and a second call forgets the
    first. *)
Theorem initializeSsl_configures_context
    (caPath nextProtos certPath keyPath : string) (c : CurlClient) :
  ∃ loads,
    sslContext_ (initializeSsl caPath nextProtos certPath keyPath c)
    = Some ([SSLContext.setOptions SSLContext.SSL_OP_NO_COMPRESSION;
             SSLContext.setCipherList]
            ++ loads
            ++ [SSLContext.setAdvertisedNextProtocols (split "," nextProtos)]) ∧
    loads
    = (if empty caPath then []
       else [SSLContext.loadTrustedCertificates caPath])
      ++ (if empty certPath || empty keyPath then []
          else [SSLContext.loadCertKeyPairFromFiles certPath keyPath]) ∧
    initializeSsl caPath nextProtos certPath keyPath c
    = set_h2c false
        (set_sslContext
           (sslContext_ (initializeSsl caPath nextProtos certPath keyPath c))
           c) ∧
    (∀ caPath' nextProtos' certPath' keyPath',
       initializeSsl caPath nextProtos certPath keyPath
         (initializeSsl caPath' nextProtos' certPath' keyPath' c)
       = initializeSsl caPath nextProtos certPath keyPath c).
Proof.
  eexists. split; [|split; [reflexivity|split]].
  - unfold initializeSsl.
    destruct (empty caPath), (empty certPath), (empty keyPath);
      by destruct c.
  - unfold initializeSsl. by destruct c.
  - intros. unfold initializeSsl. by destruct c.
Qed.

(** ** The request line *)

(** X10.  The request [sendRequest] sends carries the driver's method and
    protocol version; its URL is the whole URL when a proxy is configured
    and the path relative to the origin when none is; its secure flag is
    that of the URL; it is marked partially reliable when that was asked at
    construction, and tagged for upgrade when [h2c_] is set. *)
Theorem sendRequest_request_line
    (fs : Ifstream.filesystem) (txn : HTTPTransaction.t) (w : World) :
  ∃ w' msg rest,
    sendRequest fs txn w = Some w' ∧
    txn_history w'
    = HTTPTransaction.history txn ++ HTTPTransaction.SendHeaders msg :: rest ∧
    request_ (client w') = msg ∧
    HTTPMessage.method msg = Some (httpMethod_ (client w)) ∧
    HTTPMessage.version msg
    = (httpMajor_ (client w), httpMinor_ (client w)) ∧
    HTTPMessage.url msg
    = match proxy_ (client w) with
      | Some _ => URL.getUrl (url_ (client w))
      | None => URL.makeRelativeURL (url_ (client w))
      end ∧
    HTTPMessage.secure msg = URL.isSecure (url_ (client w)) ∧
    HTTPMessage.partiallyReliable msg
    = partiallyReliable_ (client w)
      || HTTPMessage.partiallyReliable (request_ (client w)) ∧
    HTTPMessage.upgradeMarker msg
    = h2c_ (client w) || HTTPMessage.upgradeMarker (request_ (client w)).
Proof.
  destruct (sendRequest_returns fs txn w) as (w' & rest & Hs & Hh & Hr & _).
  exists w', (sent_request (client w)), rest.
  split; [done|]. split; [done|]. split; [done|].
  unfold sent_request, build_request.
  destruct (partiallyReliable_ (client w)), (proxy_ (client w)),
    (h2c_ (client w)); done.
Qed.

(** ** The server name *)

Lemma feeder_frame_more c c' :
  feeder_frame c c' →
  url_ c' = url_ c ∧ proxy_ c' = proxy_ c ∧
  pushTxnHandlers_ c' = pushTxnHandlers_ c ∧ response_ c' = response_ c ∧
  recvWindow_ c' = recvWindow_ c.
Proof. intros ->. by destruct c. Qed.

Lemma sendRequest_keeps_url fs txn w w' :
  sendRequest fs txn w = Some w' → url_ (client w') = url_ (client w).
Proof.
  destruct (sendRequest_unfold fs txn w) as [out1 ->]. cbv zeta.
  destruct (HTTPMethod_eqb _ POST); intros H.
  - apply sendBodyFromFile_frame, feeder_frame_more in H as (-> & _).
    by destruct (client w).
  - unfold txn_sendEOM in H. cbn [client mbind option_bind] in H.
    replace (txn_ _) with
      (Some (HTTPTransaction.sendHeaders (sent_request (client w)) txn)) in H
      by (by destruct (client w)).
    cbn [mbind option_bind] in H. injection H as <-. by destruct (client w).
Qed.

(** X11.  For a driver whose caller gave no Host header, [getServerName] is
    the host of the URL before the request is sent, and after [sendRequest]
    it is the host and port that the driver has put in the Host header (the
    host of the URL again, should that be empty). *)
Theorem getServerName_follows_host_header
    (fs : Ifstream.filesystem) (txn : HTTPTransaction.t) (w w' : World) :
  HTTPHeaders.getNumberOfValues "Host"
    (HTTPMessage.headers (request_ (client w))) = 0 →
  sendRequest fs txn w = Some w' →
  getServerName (client w) = URL.getHost (url_ (client w)) ∧
  getServerName (client w')
  = if empty (URL.getHostAndPort (url_ (client w)))
    then URL.getHost (url_ (client w))
    else URL.getHostAndPort (url_ (client w)).
Proof.
  intros Hnone Hs.
  assert (Hfilter : filter (λ nv, Is_true
                      (HTTPHeaders.caseInsensitiveEqual nv.1 "Host"))
                      (HTTPMessage.headers (request_ (client w))) = []).
  { apply nil_length_inv. exact Hnone. }
  split.
  - unfold getServerName, HTTPHeaders.getSingleOrEmpty.
    cbn [HTTPHeaders.getHeaderName]. by rewrite Hfilter.
  - pose proof (sendRequest_keeps_url _ _ _ _ Hs) as Hurl.
    destruct (sendRequest_returns fs txn w) as (w1 & rest & Hs1 & _ & Hr & _).
    assert (w1 = w') as -> by congruence.
    unfold getServerName, HTTPHeaders.getSingleOrEmpty.
    cbn [HTTPHeaders.getHeaderName].
    rewrite Hurl, Hr, build_request_headers, filter_app, Hfilter.
    unfold default_headers. rewrite (bool_decide_eq_true_2 _ Hnone).
    cbn [app].
    destruct (bool_decide (HTTPHeaders.getNumberOfValues "User-Agent" _ = 0)),
      (bool_decide (HTTPHeaders.getNumberOfValues "Accept" _ = 0));
      reflexivity.
Qed.

Lemma getServerName_follows_host_header_witness :
  getServerName (client (Sample.getter true false))
  = URL.getHost (url_ (client (Sample.getter true false))) ∧
  getServerName
    (client (Sample.after
               (sendRequest (Sample.disk [])
                  (HTTPTransaction.new Sample.never_full)
                  (Sample.getter true false))))
  = if empty (URL.getHostAndPort (url_ (client (Sample.getter true false))))
    then URL.getHost (url_ (client (Sample.getter true false)))
    else URL.getHostAndPort (url_ (client (Sample.getter true false))).
Proof.
  apply (getServerName_follows_host_header (Sample.disk [])
           (HTTPTransaction.new Sample.never_full)
           (Sample.getter true false)).
  - reflexivity.
  - vm_compute. reflexivity.
Defined.

(** ** Push streams with more than two headers-complete events *)

Lemma push_headers_seen i msgs w h :
  pushTxnHandlers_ (client w) !! i = Some h →
  CurlPushHandlerState.seenOnHeadersComplete_ h = true →
  ∃ w',
    run (push_headers i msgs) w = Some w' ∧
    pushTxnHandlers_ (client w') !! i
    = Some (CurlPushHandlerState.mk (CurlPushHandlerState.pushedTxn_ h) true
              (CurlPushHandlerState.promise_ h)
              (match last msgs with
               | Some m => Some m
               | None => CurlPushHandlerState.response_ h
               end)) ∧
    loggingEnabled_ (client w') = loggingEnabled_ (client w) ∧
    output w'
    = output w
      ++ (if loggingEnabled_ (client w)
          then msgs ≫= λ m, [CoutStr "[PR] "; DumpMessage m 10]
          else []).
Proof.
  revert w h. induction msgs as [|m msgs IH]; intros w h Hl Hseen.
  - exists w. split; [done|]. destruct h as [? seen ? ?].
    cbn in Hseen. subst seen. split; [done|]. split; [done|].
    by destruct (loggingEnabled_ (client w)); rewrite app_nil_r.
  - cbn [push_headers fmap list_fmap run deliver].
    destruct (push_onHeadersComplete_spec i m w h Hl)
      as (w1 & -> & Hl1 & _ & Hlg1 & Ho1).
    rewrite Hseen in Hl1, Ho1. cbn [mbind option_bind].
    destruct (IH w1 _ Hl1 eq_refl) as (w' & Hrun & Hl' & Hlg' & Ho').
    exists w'. split; [exact Hrun|].
    cbn [CurlPushHandlerState.pushedTxn_ CurlPushHandlerState.promise_
         CurlPushHandlerState.response_] in Hl'.
    split.
    + rewrite Hl', (last_cons m msgs). by destruct (last msgs).
    + split; [congruence|]. rewrite Ho', Ho1, Hlg1.
      destruct (loggingEnabled_ (client w)); [|by rewrite !app_nil_r].
      cbn. by rewrite <- app_assoc.
Qed.

(** X12.  On a push handler that has seen no headers-complete event, any
    number of such events leaves the first message as the promise and the
    last one as the response: every event after the first replaces the
    response and none touches the promise.  With the parent's logging
    enabled the first is logged under "[PP] " and each later one under
    "[PR] ", in order; with logging disabled nothing is written. *)
Theorem push_promise_is_first_response_is_last
    (w : World) (i : nat) (h : CurlPushHandlerState.t)
    (m : HTTPMessage.t) (later : list HTTPMessage.t) :
  pushTxnHandlers_ (client w) !! i = Some h →
  CurlPushHandlerState.seenOnHeadersComplete_ h = false →
  ∃ w',
    run (push_headers i (m :: later)) w = Some w' ∧
    pushTxnHandlers_ (client w') !! i
    = Some (CurlPushHandlerState.mk (CurlPushHandlerState.pushedTxn_ h) true
              (Some m)
              (match last later with
               | Some m' => Some m'
               | None => CurlPushHandlerState.response_ h
               end)) ∧
    output w'
    = output w
      ++ (if loggingEnabled_ (client w)
          then [CoutStr "[PP] "; DumpMessage m 10]
               ++ (later ≫= λ m', [CoutStr "[PR] "; DumpMessage m' 10])
          else []).
Proof.
  intros Hl Hseen. cbn [push_headers fmap list_fmap run deliver].
  destruct (push_onHeadersComplete_spec i m w h Hl)
    as (w1 & -> & Hl1 & _ & Hlg1 & Ho1).
  rewrite Hseen in Hl1, Ho1. cbn [mbind option_bind].
  destruct (push_headers_seen i later w1 _ Hl1 eq_refl)
    as (w' & Hrun & Hl' & _ & Ho').
  exists w'. split; [exact Hrun|]. split; [exact Hl'|].
  rewrite Ho', Ho1, Hlg1.
  destruct (loggingEnabled_ (client w)); [|by rewrite !app_nil_r].
  by rewrite <- app_assoc.
Qed.

Lemma push_promise_is_first_response_is_last_witness :
  ∃ w',
    run (push_headers 0
           (HTTPMessage.new
              :: [HTTPMessage.setURL "/a" HTTPMessage.new;
                  HTTPMessage.setURL "/b" HTTPMessage.new;
                  HTTPMessage.setURL "/c" HTTPMessage.new]))
      (onPushedTransaction 3 (Sample.getter true false)) = Some w' ∧
    pushTxnHandlers_ (client w') !! 0
    = Some (CurlPushHandlerState.mk
              (CurlPushHandlerState.pushedTxn_ CurlPushHandlerState.new) true
              (Some HTTPMessage.new)
              (match last [HTTPMessage.setURL "/a" HTTPMessage.new;
                           HTTPMessage.setURL "/b" HTTPMessage.new;
                           HTTPMessage.setURL "/c" HTTPMessage.new] with
               | Some m' => Some m'
               | None =>
                   CurlPushHandlerState.response_ CurlPushHandlerState.new
               end)) ∧
    output w'
    = output (onPushedTransaction 3 (Sample.getter true false))
      ++ (if loggingEnabled_
               (client (onPushedTransaction 3 (Sample.getter true false)))
          then [CoutStr "[PP] "; DumpMessage HTTPMessage.new 10]
               ++ ([HTTPMessage.setURL "/a" HTTPMessage.new;
                    HTTPMessage.setURL "/b" HTTPMessage.new;
                    HTTPMessage.setURL "/c" HTTPMessage.new]
                     ≫= λ m', [CoutStr "[PR] "; DumpMessage m' 10])
          else []).
Proof.
  apply (push_promise_is_first_response_is_last
           (onPushedTransaction 3 (Sample.getter true false)) 0
           CurlPushHandlerState.new HTTPMessage.new
           [HTTPMessage.setURL "/a" HTTPMessage.new;
            HTTPMessage.setURL "/b" HTTPMessage.new;
            HTTPMessage.setURL "/c" HTTPMessage.new]);
    reflexivity.
Defined.
(** ** The list of push handlers *)

Lemma deliver_handlers e w w' :
  deliver e w = Some w' →
  length (pushTxnHandlers_ (client w'))
  = length (pushTxnHandlers_ (client w))
    + pushed_count [e] ∧
  ∀ j, (∀ pe, e ≠ Pushed j pe) →
       j < length (pushTxnHandlers_ (client w)) →
       pushTxnHandlers_ (client w') !! j = pushTxnHandlers_ (client w) !! j.
Proof.
  intros H. destruct w as [c out].
  destruct e as [| | | | | | | | | | |i pe];
    cbn [deliver] in H.
  10: { unfold onEgressResumed, txn_record in H.
        match type of H with context [on_client (set_egressPaused false) ?x] =>
          set (w0 := on_client (set_egressPaused false) x) in H end.
        assert (Hw0 : pushTxnHandlers_ (client w0) = pushTxnHandlers_ c).
        { subst w0. unfold LOG_IF_logging. cbn [client].
          destruct (txn_ c); by destruct c as [? ? ? ? ? ? ? ? []]. }
        cbn [client]. rewrite <- Hw0.
        destruct (inputFile_ (client w0)).
        - apply sendBodyFromFile_frame, feeder_frame_more in H
            as (_ & _ & -> & _).
          split; [cbn; lia|done].
        - injection H as <-. split; [cbn; lia|done]. }
  11: { destruct pe; cbn [deliver] in H;
        unfold CurlPushHandler.setTransaction,
          CurlPushHandler.detachTransaction,
          CurlPushHandler.onHeadersComplete, CurlPushHandler.onBody,
          CurlPushHandler.onEOM, CurlPushHandler.onError,
          CurlPushHandler.update, onBody, onError, printMessageImpl in H;
        cbn [client output on_client emit] in H;
        crush_handler; cbn [client on_client emit];
        (split;
         [destruct c; cbn; rewrite ?length_insert; lia
         |intros j Hj Hlt; destruct c; cbn in *;
          try done;
          apply list_lookup_insert_ne; intros ->; by eapply Hj]). }
  all: unfold setTransaction, detachTransaction, onHeadersComplete, onBody,
      onTrailers, onEOM, onUpgrade, onError, onPushedTransaction,
      printMessageImpl, onEgressPaused, txn_record in H;
    cbn [client output on_client emit] in H;
    crush_handler; cbn [client on_client emit];
    (split;
     [destruct c; cbn; rewrite ?length_app; cbn; lia
     |intros j Hj Hlt; destruct c; cbn in *; try done;
      by rewrite lookup_app_l]).
Qed.

(** X13.  The driver keeps every push handler it has made: after any
    sequence of callbacks the list of handlers is longer by the number of
    pushed transactions announced, never shorter; and a handler is changed
    only by the callbacks delivered to it, not by those of the main
    transaction or of other push handlers. *)
Theorem push_handlers_are_kept (events : list Event) (w w' : World) :
  run events w = Some w' →
  length (pushTxnHandlers_ (client w'))
  = length (pushTxnHandlers_ (client w)) + pushed_count events ∧
  ∀ j, (∀ pe, Pushed j pe ∉ events) →
       j < length (pushTxnHandlers_ (client w)) →
       pushTxnHandlers_ (client w') !! j = pushTxnHandlers_ (client w) !! j.
Proof.
  revert w. induction events as [|e events IH]; intros w H.
  - injection H as <-. split; [cbn; lia|done].
  - cbn [run] in H. destruct (deliver e w) as [w1|] eqn:Hd; [|done].
    cbn [mbind option_bind] in H.
    destruct (deliver_handlers e w w1 Hd) as [Hlen1 Hsame1].
    destruct (IH w1 H) as [Hlen Hsame].
    split.
    + rewrite Hlen, Hlen1. unfold pushed_count. cbn [omap list_omap].
      destruct e; cbn; lia.
    + intros j Hj Hlt. rewrite Hsame, Hsame1; [done| |done| |lia].
      * intros pe ->. apply (Hj pe). by left.
      * intros pe Hin. apply (Hj pe). by right.
Qed.

Lemma push_handlers_are_kept_witness :
  length
    (pushTxnHandlers_
       (client
          (Sample.after
             (run [PushedTransaction 3; PushedTransaction 5;
                   Pushed 1 (PushHeadersComplete HTTPMessage.new);
                   HeadersComplete HTTPMessage.new; EgressResumed;
                   Pushed 1 PushDetachTransaction]
                Sample.posted))))
  = length (pushTxnHandlers_ (client Sample.posted))
    + pushed_count
        [PushedTransaction 3; PushedTransaction 5;
         Pushed 1 (PushHeadersComplete HTTPMessage.new);
         HeadersComplete HTTPMessage.new; EgressResumed;
         Pushed 1 PushDetachTransaction] ∧
  ∀ j, (∀ pe, Pushed j pe
              ∉ [PushedTransaction 3; PushedTransaction 5;
                 Pushed 1 (PushHeadersComplete HTTPMessage.new);
                 HeadersComplete HTTPMessage.new; EgressResumed;
                 Pushed 1 PushDetachTransaction]) →
       j < length (pushTxnHandlers_ (client Sample.posted)) →
       pushTxnHandlers_
         (client
            (Sample.after
               (run [PushedTransaction 3; PushedTransaction 5;
                     Pushed 1 (PushHeadersComplete HTTPMessage.new);
                     HeadersComplete HTTPMessage.new; EgressResumed;
                     Pushed 1 PushDetachTransaction]
                  Sample.posted))) !! j
       = pushTxnHandlers_ (client Sample.posted) !! j.
Proof.
  apply (push_handlers_are_kept
           [PushedTransaction 3; PushedTransaction 5;
            Pushed 1 (PushHeadersComplete HTTPMessage.new);
            HeadersComplete HTTPMessage.new; EgressResumed;
            Pushed 1 PushDetachTransaction]
           Sample.posted).
  vm_compute. reflexivity.
Defined.
(** ** A response body in several chunks *)

Lemma onBody_ring heap head addrs w :
  loggingEnabled_ (client w) = true →
  ring heap head addrs →
  onBody heap (Some head) w
  = Some (mkWorld (client w) (output w ++ written (segments heap addrs))).
Proof.
  intros Hlog Hring. pose proof (ring_size heap head addrs Hring) as Hsize.
  destruct Hring as (Hhd & Hnd & Hl).
  destruct addrs as [|a rest]; [done|]. injection Hhd as ->.
  apply NoDup_cons in Hnd as [Hh _].
  unfold onBody. rewrite Hlog. cbn [negb].
  rewrite (onBody_loop_linked heap head rest head _ _ Hl Hh).
  by rewrite bool_decide_eq_true_2.
Qed.

Lemma cout_bytes_app a b : cout_bytes (a ++ b) = cout_bytes a ++ cout_bytes b.
Proof. unfold cout_bytes. by rewrite omap_app, join_app. Qed.

Lemma flush_count_app a b : flush_count (a ++ b) = flush_count a + flush_count b.
Proof. unfold flush_count. by rewrite omap_app, length_app. Qed.

Lemma written_bytes segs :
  cout_bytes (written segs) = mjoin segs ∧
  flush_count (written segs) = length segs.
Proof.
  induction segs as [|s segs [IHb IHf]]; [done|].
  change (written (s :: segs))
    with ([CoutWrite s; CoutFlush] ++ written segs).
  rewrite cout_bytes_app, flush_count_app, IHb, IHf.
  split; [|done]. cbn. by rewrite app_nil_r.
Qed.

(** X14.  With logging enabled, a body that arrives as any number of
    chunks, each a ring of buffers, is forwarded whole and in order: every
    callback returns, the bytes written are the bytes of all the segments of
    all the chunks, joined in the order of arrival, with one flush for each
    segment, empty ones included; and the driver itself is left as it
    was. *)
Theorem body_chunks_forwarded_in_order (chunks : list Chunk) (w : World) :
  loggingEnabled_ (client w) = true →
  Forall (λ c, ring (chunk_heap c) (chunk_head c) (chunk_addrs c)) chunks →
  ∃ w',
    run (body_event <$> chunks) w = Some w' ∧
    client w' = client w ∧
    output w' = output w ++ (chunks ≫= λ c, written (chunk_segments c)) ∧
    cout_bytes (output w')
    = cout_bytes (output w) ++ mjoin (chunks ≫= chunk_segments) ∧
    flush_count (output w')
    = flush_count (output w) + length (chunks ≫= chunk_segments).
Proof.
  intros Hlog Hall. revert w Hlog.
  induction Hall as [|c chunks Hc _ IH]; intros w Hlog.
  - exists w. split; [done|]. split; [done|]. cbn.
    rewrite !app_nil_r. split; [done|]. split; [done|]. lia.
  - cbn [fmap list_fmap run body_event deliver].
    rewrite (onBody_ring _ _ _ w Hlog Hc). cbn [mbind option_bind].
    destruct (IH (mkWorld (client w)
                    (output w ++ written (segments (chunk_heap c) (chunk_addrs c)))))
      as (w' & Hrun & Hcl & Ho & Hb & Hf); [done|].
    exists w'. split; [exact Hrun|]. split; [done|].
    cbn [client output] in *.
    destruct (written_bytes (segments (chunk_heap c) (chunk_addrs c)))
      as [Hwb Hwf].
    split; [by rewrite Ho; cbn; rewrite <- app_assoc|].
    split.
    + rewrite Hb, cout_bytes_app, Hwb. cbn [mbind list_bind].
      rewrite join_app, <- app_assoc. done.
    + rewrite Hf, flush_count_app, Hwf. cbn [mbind list_bind].
      rewrite length_app. unfold chunk_segments. by rewrite Nat.add_assoc.
Qed.

Lemma body_chunks_forwarded_in_order_witness :
  ∃ w',
    run (body_event
           <$> [mkChunk Sample.chain 10 [10; 20; 30];
                mkChunk Sample.chain 30 [30; 10; 20]])
      (Sample.getter true false) = Some w' ∧
    client w' = client (Sample.getter true false) ∧
    output w'
    = output (Sample.getter true false)
      ++ ([mkChunk Sample.chain 10 [10; 20; 30];
           mkChunk Sample.chain 30 [30; 10; 20]]
            ≫= λ c, written (chunk_segments c)) ∧
    cout_bytes (output w')
    = cout_bytes (output (Sample.getter true false))
      ++ mjoin ([mkChunk Sample.chain 10 [10; 20; 30];
                 mkChunk Sample.chain 30 [30; 10; 20]] ≫= chunk_segments) ∧
    flush_count (output w')
    = flush_count (output (Sample.getter true false))
      + length ([mkChunk Sample.chain 10 [10; 20; 30];
                 mkChunk Sample.chain 30 [30; 10; 20]] ≫= chunk_segments).
Proof.
  apply (body_chunks_forwarded_in_order
           [mkChunk Sample.chain 10 [10; 20; 30];
            mkChunk Sample.chain 30 [30; 10; 20]]
           (Sample.getter true false)).
  - reflexivity.
  - repeat constructor; cbn [chunk_heap chunk_head chunk_addrs];
      try reflexivity;
      try (apply (bool_decide_unpack _); vm_compute; exact I).
Defined.

(** ** The response the driver keeps *)

Lemma deliver_response e w w' :
  deliver e w = Some w' →
  response_ (client w')
  = match e with
    | HeadersComplete msg => Some msg
    | _ => response_ (client w)
    end.
Proof.
  intros H. destruct w as [c out].
  destruct e as [| | | | | | | | | | |i pe];
    cbn [deliver] in H.
  10: { unfold onEgressResumed, txn_record in H.
        match type of H with context [on_client (set_egressPaused false) ?x] =>
          set (w0 := on_client (set_egressPaused false) x) in H end.
        assert (Hw0 : response_ (client w0) = response_ c).
        { subst w0. unfold LOG_IF_logging. cbn [client].
          destruct (txn_ c); by destruct c as [? ? ? ? ? ? ? ? []]. }
        cbn [client]. rewrite <- Hw0.
        destruct (inputFile_ (client w0)).
        - by apply sendBodyFromFile_frame, feeder_frame_more in H
            as (_ & _ & _ & -> & _).
        - by injection H as <-. }
  11: { destruct pe; cbn [deliver] in H;
        unfold CurlPushHandler.setTransaction,
          CurlPushHandler.detachTransaction,
          CurlPushHandler.onHeadersComplete, CurlPushHandler.onBody,
          CurlPushHandler.onEOM, CurlPushHandler.onError,
          CurlPushHandler.update, onBody, onError, printMessageImpl in H;
        cbn [client output on_client emit] in H;
        crush_handler; cbn [client on_client emit];
        by destruct c. }
  all: unfold setTransaction, detachTransaction, onHeadersComplete, onBody,
      onTrailers, onEOM, onUpgrade, onError, onPushedTransaction,
      printMessageImpl, onEgressPaused, txn_record in H;
    cbn [client output on_client emit] in H;
    crush_handler; cbn [client on_client emit];
    by destruct c.
Qed.

(** X18.  After any sequence of callbacks the driver holds the response head
    of the latest [onHeadersComplete] of the main transaction, or what it
    held before if there was none: no other callback, and no callback of a
    push handler, replaces or drops it. *)
Theorem response_is_latest_headers (events : list Event) (w w' : World) :
  run events w = Some w' →
  response_ (client w')
  = match last (responses events) with
    | Some msg => Some msg
    | None => response_ (client w)
    end.
Proof.
  revert w. induction events as [|e events IH]; intros w H.
  - by injection H as <-.
  - cbn [run] in H. destruct (deliver e w) as [w1|] eqn:Hd; [|done].
    cbn [mbind option_bind] in H.
    rewrite (IH w1 H), (deliver_response e w w1 Hd).
    unfold responses. cbn [omap list_omap].
    destruct e; try done.
    fold (responses events). rewrite last_cons.
    by destruct (last (responses events)).
Qed.

Lemma response_is_latest_headers_witness :
  response_
    (client
       (Sample.after
          (run [HeadersComplete HTTPMessage.new; EgressPaused;
                PushedTransaction 3;
                Pushed 0 (PushHeadersComplete HTTPMessage.new);
                HeadersComplete (HTTPMessage.setURL "/moved" HTTPMessage.new);
                EgressResumed; EOM]
             Sample.posted)))
  = match
      last (responses
              [HeadersComplete HTTPMessage.new; EgressPaused;
               PushedTransaction 3;
               Pushed 0 (PushHeadersComplete HTTPMessage.new);
               HeadersComplete (HTTPMessage.setURL "/moved" HTTPMessage.new);
               EgressResumed; EOM])
    with
    | Some msg => Some msg
    | None => response_ (client Sample.posted)
    end.
Proof.
  apply (response_is_latest_headers
           [HeadersComplete HTTPMessage.new; EgressPaused;
            PushedTransaction 3;
            Pushed 0 (PushHeadersComplete HTTPMessage.new);
            HeadersComplete (HTTPMessage.setURL "/moved" HTTPMessage.new);
            EgressResumed; EOM]
           Sample.posted).
  vm_compute. reflexivity.
Defined.

(** ** From the constructor to the wire *)

(** X19.  A driver as the constructor leaves it holds no transaction, no
    response and no push handler, and a proxy exactly when it was given
    one.  The request it sends carries the headers the constructor was
    given, all of them and in order, followed by the defaults the caller
    left out; the method of the constructor; and the whole URL when a proxy
    was given, the path relative to the origin otherwise. *)
Theorem constructed_driver_sends_caller_headers
    (fs : Ifstream.filesystem) (txn : HTTPTransaction.t)
    (loggingEnabled : bool) (recvWindow : Z) (egressPaused : bool)
    (httpMethod : HTTPMethod) (url : URL.t) (proxy : option URL.t)
    (headers : HTTPHeaders.t) (inputFilename : string) (h2c : bool)
    (httpMajor httpMinor : Z) (partiallyReliable : bool) :
  let c := CurlClient_new loggingEnabled recvWindow egressPaused httpMethod
             url proxy headers inputFilename h2c httpMajor httpMinor
             partiallyReliable in
  txn_ c = None ∧ response_ c = None ∧ pushTxnHandlers_ c = [] ∧
  proxy_ c = proxy ∧
  ∃ w' msg rest,
    sendRequest fs txn (mkWorld c []) = Some w' ∧
    txn_history w'
    = HTTPTransaction.history txn ++ HTTPTransaction.SendHeaders msg :: rest ∧
    HTTPMessage.headers msg
    = headers ++ default_headers (URL.getHostAndPort url) headers ∧
    HTTPMessage.method msg = Some httpMethod ∧
    HTTPMessage.url msg
    = match proxy with
      | Some _ => URL.getUrl url
      | None => URL.makeRelativeURL url
      end.
Proof.
  intros c.
  split; [done|]. split; [done|]. split; [done|].
  split; [by destruct proxy|].
  destruct (sendRequest_returns fs txn (mkWorld c []))
    as (w' & rest & Hs & Hh & _).
  exists w', (sent_request c), rest.
  split; [exact Hs|]. split; [exact Hh|].
  assert (Hreq : HTTPMessage.headers (request_ c) = headers).
  { subst c. by rewrite CurlClient_new_request. }
  split.
  - by rewrite build_request_headers, Hreq.
  - unfold sent_request, build_request. subst c. cbn.
    destruct partiallyReliable, proxy, h2c; done.
Qed.

(** ** Connecting *)

Ltac simpl_session :=
  cbn [mbind option_bind world session verbose HTTPUpstreamSession.record
       HTTPUpstreamSession.record_all
       HTTPUpstreamSession.new_txn HTTPUpstreamSession.ssl_transport
       HTTPUpstreamSession.calls fmap option_fmap option_map] in *.

Lemma connectSuccess_inv fs cn cn' :
  connectSuccess fs cn = Some cn' →
  ∃ policy,
    HTTPUpstreamSession.new_txn (session cn) = Some policy ∧
    sendRequest fs (HTTPTransaction.new policy) (world cn)
    = Some (world cn') ∧
    HTTPUpstreamSession.calls (session cn')
    = HTTPUpstreamSession.calls (session cn)
      ++ [HTTPUpstreamSession.setFlowControl
            (size_t (recvWindow_ (client (world cn))))
            (size_t (recvWindow_ (client (world cn))))
            (size_t (recvWindow_ (client (world cn))));
          HTTPUpstreamSession.newTransaction]
      ++ (HTTPUpstreamSession.onTransaction <$> txn_history (world cn'))
      ++ [HTTPUpstreamSession.closeWhenIdle] ∧
    length (verbose cn')
    = length (verbose cn)
      + (if URL.isSecure (url_ (client (world cn))) then 1 else 0).
Proof.
  intros H. unfold connectSuccess, sslHandshakeFollowup in H.
  destruct cn as [w [cs tr [policy|]] vl]; simpl_session.
  2: { destruct (URL.isSecure (url_ (client w)));
         [destruct tr as [[proto|]|]|]; by cbn in H. }
  exists policy. split; [done|].
  destruct (URL.isSecure (url_ (client w))).
  - destruct tr as [[proto|]|]; [| |done];
      simpl_session;
      (destruct (sendRequest fs (HTTPTransaction.new policy) w) as [w1|];
       [|done]);
      simpl_session; injection H as <-; simpl_session;
      (split; [done|]); (split; [by rewrite <- !app_assoc|]);
      rewrite length_app; cbn; lia.
  - simpl_session.
    destruct (sendRequest fs (HTTPTransaction.new policy) w) as [w1|];
      [|done].
    simpl_session. injection H as <-. simpl_session.
    split; [done|]. split; [by rewrite <- !app_assoc|]. lia.
Qed.

(** X15.  When [connectSuccess] returns, the session has made a
    transaction, and the driver is where [sendRequest] on that new
    transaction leaves it.  The record of the session has grown by, in this
    order and nothing else: the call of [setFlowControl] with the driver's
    receive window, converted to [size_t], for each of its three windows;
    the call of [newTransaction]; what [sendRequest] has done on the
    transaction, the request headers first; and only then the call of
    [closeWhenIdle].  One line has been written with [VLOG(1)] if the URL
    is secure, none otherwise. *)
Theorem connectSuccess_sends_request_on_new_transaction
    (fs : Ifstream.filesystem) (cn cn' : Connection) :
  connectSuccess fs cn = Some cn' →
  (∃ policy,
     HTTPUpstreamSession.new_txn (session cn) = Some policy ∧
     sendRequest fs (HTTPTransaction.new policy) (world cn)
     = Some (world cn')) ∧
  HTTPUpstreamSession.calls (session cn')
  = HTTPUpstreamSession.calls (session cn)
    ++ [HTTPUpstreamSession.setFlowControl
          (size_t (recvWindow_ (client (world cn))))
          (size_t (recvWindow_ (client (world cn))))
          (size_t (recvWindow_ (client (world cn))));
        HTTPUpstreamSession.newTransaction]
    ++ (HTTPUpstreamSession.onTransaction <$> txn_history (world cn'))
    ++ [HTTPUpstreamSession.closeWhenIdle] ∧
  (∃ rest,
     txn_history (world cn')
     = HTTPTransaction.SendHeaders (sent_request (client (world cn)))
       :: rest) ∧
  length (verbose cn')
  = length (verbose cn)
    + (if URL.isSecure (url_ (client (world cn))) then 1 else 0).
Proof.
  intros H.
  destruct (connectSuccess_inv _ _ _ H) as (policy & Hp & Hs & Hc & Hv).
  split; [by exists policy|]. split; [done|]. split; [|done].
  destruct (sendRequest_returns fs (HTTPTransaction.new policy) (world cn))
    as (w1 & rest & Hs1 & Hh & _).
  assert (w1 = world cn') as -> by congruence.
  exists rest. exact Hh.
Qed.

Lemma connectSuccess_sends_request_on_new_transaction_witness :
  (∃ policy,
     HTTPUpstreamSession.new_txn SampleSession.tls = Some policy ∧
     sendRequest (Sample.disk []) (HTTPTransaction.new policy)
       SampleSession.secure_getter
     = Some (world (SampleSession.after
                      (connectSuccess (Sample.disk [])
                         (mkConnection SampleSession.secure_getter
                            SampleSession.tls []))))) ∧
  HTTPUpstreamSession.calls
    (session (SampleSession.after
                (connectSuccess (Sample.disk [])
                   (mkConnection SampleSession.secure_getter
                      SampleSession.tls []))))
  = []
    ++ [HTTPUpstreamSession.setFlowControl (size_t 65536) (size_t 65536)
          (size_t 65536);
        HTTPUpstreamSession.newTransaction]
    ++ (HTTPUpstreamSession.onTransaction
          <$> txn_history
                (world (SampleSession.after
                          (connectSuccess (Sample.disk [])
                             (mkConnection SampleSession.secure_getter
                                SampleSession.tls [])))))
    ++ [HTTPUpstreamSession.closeWhenIdle] ∧
  (∃ rest,
     txn_history
       (world (SampleSession.after
                 (connectSuccess (Sample.disk [])
                    (mkConnection SampleSession.secure_getter
                       SampleSession.tls []))))
     = HTTPTransaction.SendHeaders
         (sent_request (client SampleSession.secure_getter))
       :: rest) ∧
  length (verbose (SampleSession.after
                     (connectSuccess (Sample.disk [])
                        (mkConnection SampleSession.secure_getter
                           SampleSession.tls []))))
  = 0 + 1.
Proof.
  apply (connectSuccess_sends_request_on_new_transaction (Sample.disk [])
           (mkConnection SampleSession.secure_getter SampleSession.tls [])).
  vm_compute. reflexivity.
Defined.

(** X16.  [connectSuccess] returns if and only if the session makes a
    transaction and, when the URL is secure, its transport is a TLS socket.
    Otherwise the driver calls through a null pointer: that of the failed
    cast in [sslHandshakeFollowup], or the null transaction in
    [sendRequest]. *)
Theorem connectSuccess_returns_iff_transport_and_transaction
    (fs : Ifstream.filesystem) (cn : Connection) :
  is_Some (connectSuccess fs cn)
  ↔ (URL.isSecure (url_ (client (world cn))) = false
     ∨ is_Some (HTTPUpstreamSession.ssl_transport (session cn)))
    ∧ is_Some (HTTPUpstreamSession.new_txn (session cn)).
Proof.
  unfold connectSuccess, sslHandshakeFollowup.
  destruct cn as [w [cs tr [policy|]] vl]; simpl_session.
  2: { split; [|by intros [_ [? ?]]].
       destruct (URL.isSecure (url_ (client w)));
         [destruct tr as [[proto|]|]|]; cbn; by intros [? ?]. }
  destruct (sendRequest_returns fs (HTTPTransaction.new policy) w)
    as (w1 & ? & Hs & _).
  destruct (URL.isSecure (url_ (client w))).
  - destruct tr as [[proto|]|]; simpl_session.
    + rewrite Hs. split; [|by eexists].
      intros _. split; [by right; eexists|by eexists].
    + rewrite Hs. split; [|by eexists].
      intros _. split; [by right; eexists|by eexists].
    + split; [by intros [? ?]|]. intros [[?|[? ?]] _]; done.
  - simpl_session.
    rewrite Hs. split; [|by eexists].
    intros _. split; [by left|by eexists].
Qed.

Lemma int32_t_in_range v :
  (- 2 ^ 31 ≤ v < 2 ^ 31)%Z → int32_t v = v.
Proof.
  intros Hv. unfold int32_t.
  change (2 ^ 31)%Z with 2147483648%Z in *.
  change (2 ^ 32)%Z with 4294967296%Z.
  rewrite Z.mod_small by lia. lia.
Qed.

Lemma size_t_negative v :
  (- 2 ^ 64 ≤ v < 0)%Z → size_t v = (2 ^ 64 + v)%Z.
Proof.
  intros Hv. unfold size_t.
  change (2 ^ 64)%Z with 18446744073709551616%Z in *.
  rewrite <- (Z_mod_plus_full v 1 18446744073709551616).
  rewrite Z.mod_small by lia. lia.
Qed.

(** X17.  [setFlowControlSettings] changes the receive window of the driver
    and nothing else; the window becomes the [int32_t] the argument converts
    to; and a following [connectSuccess] passes it, converted to [size_t],
    to the session for each of the three windows.  So a window from 0 to
    2^31 - 1 reaches the session as it is, and a negative one, [v], reaches
    it as 2^64 + [v]. *)
Theorem setFlowControlSettings_reaches_session
    (fs : Ifstream.filesystem) (v : Z) (w : World)
    (s : HTTPUpstreamSession.t) (vl : list string) (cn' : Connection) :
  connectSuccess fs
    (mkConnection (on_client (setFlowControlSettings v) w) s vl)
  = Some cn' →
  set_recvWindow (recvWindow_ (client w))
    (setFlowControlSettings v (client w)) = client w ∧
  recvWindow_ (setFlowControlSettings v (client w)) = int32_t v ∧
  (∃ rest,
     HTTPUpstreamSession.calls (session cn')
     = HTTPUpstreamSession.calls s
       ++ HTTPUpstreamSession.setFlowControl
            (size_t (int32_t v)) (size_t (int32_t v)) (size_t (int32_t v))
          :: HTTPUpstreamSession.newTransaction :: rest) ∧
  ((0 ≤ v < 2 ^ 31)%Z → size_t (int32_t v) = v) ∧
  ((- 2 ^ 31 ≤ v < 0)%Z → size_t (int32_t v) = (2 ^ 64 + v)%Z).
Proof.
  intros H. split; [by destruct w as [[] ?]|].
  split; [by destruct w as [[] ?]|]. split; [|split].
  - destruct (connectSuccess_inv _ _ _ H) as (_ & _ & _ & -> & _).
    cbn [world session client on_client].
    replace (recvWindow_ (setFlowControlSettings v (client w)))
      with (int32_t v) by (by destruct w as [[] ?]).
    by eexists.
  - intros Hv. rewrite int32_t_in_range.
    + unfold size_t. change (2 ^ 64)%Z with 18446744073709551616%Z.
      change (2 ^ 31)%Z with 2147483648%Z in Hv.
      rewrite Z.mod_small; lia.
    + change (2 ^ 31)%Z with 2147483648%Z in *. lia.
  - intros Hv. rewrite int32_t_in_range.
    + apply size_t_negative.
      change (2 ^ 31)%Z with 2147483648%Z in *.
      change (2 ^ 64)%Z with 18446744073709551616%Z. lia.
    + change (2 ^ 31)%Z with 2147483648%Z in *. lia.
Qed.

Lemma setFlowControlSettings_reaches_session_witness :
  set_recvWindow (recvWindow_ (client (Sample.getter false false)))
    (setFlowControlSettings (-1) (client (Sample.getter false false)))
  = client (Sample.getter false false) ∧
  recvWindow_
    (setFlowControlSettings (-1) (client (Sample.getter false false)))
  = int32_t (-1) ∧
  (∃ rest,
     HTTPUpstreamSession.calls
       (session (SampleSession.after
                   (connectSuccess (Sample.disk [])
                      (mkConnection
                         (on_client (setFlowControlSettings (-1))
                            (Sample.getter false false))
                         SampleSession.plain []))))
     = HTTPUpstreamSession.calls SampleSession.plain
       ++ HTTPUpstreamSession.setFlowControl
            (size_t (int32_t (-1))) (size_t (int32_t (-1)))
            (size_t (int32_t (-1)))
          :: HTTPUpstreamSession.newTransaction :: rest) ∧
  ((0 ≤ -1 < 2 ^ 31)%Z → size_t (int32_t (-1)) = (-1)%Z) ∧
  ((- 2 ^ 31 ≤ -1 < 0)%Z → size_t (int32_t (-1)) = (2 ^ 64 + -1)%Z).
Proof.
  apply (setFlowControlSettings_reaches_session (Sample.disk []) (-1)
           (Sample.getter false false) SampleSession.plain []).
  vm_compute. reflexivity.
Defined.
